(** * Workspace_Cleanup: the archive categorization engine

    A shallow embedding of [File_Organizer.py] and of its predecessor
    [File_Organizer (old).py], and the properties of the classifier, the
    system-entry filter, the mover and the two sweeps.

    Conventions of the embedding.
    - A path is the list of its components; [os.path.join p name] is
      [p ++ [name]] and [os.path.basename] is the last component.  The empty
      list stands for the empty string, which no file has.
    - The directory tree is an association list from paths to nodes, in
      listing order: [os.listdir] returns the children of a directory in the
      order of the list, and relocating an entry keeps its position.
    - Python code runs in a state-and-exception monad: a raised exception
      does not undo the writes made before it.
    - A file held by another process makes [shutil.move] raise
      [PermissionError] and leaves the tree as it was; how many further
      attempts fail is recorded per source path in [busy].
    - Relocations and directory creations are entered in a journal, so that
      what a run did can be stated as such.
    - The program imports [winreg] and runs on Windows only.  The attribute
      bits [SetFileAttributesW] sets (read-only, hidden, system) are kept
      per path beside the tree; they go with an entry that is renamed, and
      a file that has one of them cannot be opened for writing.
    - An attribute of the object that was never assigned raises
      [AttributeError] when it is read.
    - Category names and file names are single path components.
    - [str.lower] is modelled on the ASCII range.

    The definitions come first: the embedding of the code, then the
    vocabulary of the statements and the sample inputs.  The properties
    follow. *)

From Stdlib Require Import List String Ascii ZArith Lia Bool Arith.
Import ListNotations.

Local Open Scope string_scope.
Local Open Scope list_scope.

(* ------------------------------------------------------------------ *)
(** ** Python strings *)

Module PyStr.

Definition lower_ascii (c : ascii) : ascii :=
  let n := nat_of_ascii c in
  if (65 <=? n)%nat && (n <=? 90)%nat then ascii_of_nat (n + 32) else c.

(** [s.lower()] *)
Fixpoint lower (s : string) : string :=
  match s with
  | EmptyString => EmptyString
  | String c r => String (lower_ascii c) (lower r)
  end.

(** [sub in s] *)
Fixpoint contains (sub s : string) : bool :=
  String.prefix sub s ||
  match s with
  | EmptyString => false
  | String _ r => contains sub r
  end.

(** [s.endswith(suffix)] *)
Definition endswith (s suffix : string) : bool :=
  let n := String.length s in
  let m := String.length suffix in
  (m <=? n)%nat && String.eqb (substring (n - m) m s) suffix.

(** [s.endswith((a, b, ...))] with a tuple of suffixes *)
Definition endswith_any (s : string) (suffixes : list string) : bool :=
  existsb (endswith s) suffixes.

(** [x in l] for a list of strings *)
Definition mem (x : string) (l : list string) : bool :=
  existsb (String.eqb x) l.

(** [p.rfind(".")], scanning from index [i] *)
Fixpoint rfind_dot (p : string) (i : nat) (found : option nat) : option nat :=
  match p with
  | EmptyString => found
  | String c r =>
      rfind_dot r (S i) (if Ascii.eqb c "."%char then Some i else found)
  end.

(** The loop of [genericpath._splitext] that skips leading dots: true when
    some character before [dotIndex] is not a dot. *)
Fixpoint has_stem (p : string) (dotIndex : nat) : bool :=
  match dotIndex, p with
  | S k, String c r => if Ascii.eqb c "."%char then has_stem r k else true
  | _, _ => false
  end.

(** [os.path.splitext] on a name without separators *)
Definition splitext (p : string) : string * string :=
  match rfind_dot p 0 None with
  | Some dotIndex =>
      if has_stem p dotIndex
      then (substring 0 dotIndex p,
            substring dotIndex (String.length p - dotIndex) p)
      else (p, "")
  | None => (p, "")
  end.

Definition upper_ascii (c : ascii) : ascii :=
  let n := nat_of_ascii c in
  if (97 <=? n)%nat && (n <=? 122)%nat then ascii_of_nat (n - 32) else c.

(** [s.upper()] *)
Fixpoint upper (s : string) : string :=
  match s with
  | EmptyString => EmptyString
  | String c r => String (upper_ascii c) (upper r)
  end.

End PyStr.

(* ------------------------------------------------------------------ *)
(** ** The Extension Classifier *)

(** The value of [self.categories] where it is set: the categories in
    declaration order, each with the list under its ['extensions'] key. *)
Definition category_table : Type := list (string * list string).

Definition shortcut_extensions : list string := [".lnk"; ".url"; ".desktop"].

(** The [for category, info in self.categories.items()] scan of
    [get_category_for_extension], with its early return. *)
Fixpoint scan_categories (cats : category_table) (ext : string)
  : option string :=
  match cats with
  | [] => None
  | (category, extensions) :: rest =>
      if PyStr.mem ext extensions then Some category
      else scan_categories rest ext
  end.

(** The scan written out in [move_to_category]: [category], preset to
    ['Others'], is overwritten by the first match, which ends the loop. *)
Fixpoint scan_from (category : string) (cats : category_table) (ext : string)
  : string :=
  match cats with
  | [] => category
  | (cat, extensions) :: rest =>
      if PyStr.mem ext extensions then cat else scan_from category rest ext
  end.

(* ------------------------------------------------------------------ *)
(** ** The directory tree *)

Definition path := list string.

(** What [os.stat] reports of an entry: its kind and [st_size]. *)
Inductive node : Type :=
| File (st_size : Z)
| Dir (st_size : Z).

Definition tree := list (path * node).

Fixpoint path_eqb (p q : path) : bool :=
  match p, q with
  | [], [] => true
  | a :: p', b :: q' => String.eqb a b && path_eqb p' q'
  | _, _ => false
  end.

(** [strip_prefix p q] is [Some r] exactly when [q = p ++ r]. *)
Fixpoint strip_prefix (p q : path) : option path :=
  match p, q with
  | [], _ => Some q
  | a :: p', b :: q' => if String.eqb a b then strip_prefix p' q' else None
  | _ :: _, [] => None
  end.

Definition is_prefix (p q : path) : bool :=
  match strip_prefix p q with Some _ => true | None => false end.

Fixpoint lookup (p : path) (t : tree) : option node :=
  match t with
  | [] => None
  | (q, n) :: rest => if path_eqb p q then Some n else lookup p rest
  end.

(** [os.path.basename] and [os.path.dirname] *)
Definition basename (p : path) : string := last p "".
Definition dirname (p : path) : path := removelast p.

Definition exists_in (t : tree) (p : path) : bool :=
  match lookup p t with Some _ => true | None => false end.

Definition isdir_in (t : tree) (p : path) : bool :=
  match lookup p t with Some (Dir _) => true | _ => false end.

Definition isfile_in (t : tree) (p : path) : bool :=
  match lookup p t with Some (File _) => true | _ => false end.

(** The directory that is to hold [p] is there.  A path of one component
    (a drive) hangs off the root. *)
Definition parent_is_dir (t : tree) (p : path) : bool :=
  match dirname p with
  | [] => true
  | parent => isdir_in t parent
  end.

(** The name of [q] when [q] is an immediate child of [p]. *)
Definition child_name (p q : path) : option string :=
  match strip_prefix p q with
  | Some [name] => Some name
  | _ => None
  end.

(** The children of [p] with their nodes, in listing order. *)
Fixpoint scandir_in (t : tree) (p : path) : list (string * node) :=
  match t with
  | [] => []
  | (q, n) :: rest =>
      match child_name p q with
      | Some name => (name, n) :: scandir_in rest p
      | None => scandir_in rest p
      end
  end.

Definition listdir_in (t : tree) (p : path) : list string :=
  map fst (scandir_in t p).

(** Write node [n] at [p]: in place when [p] is there, else as a new last
    entry. *)
Fixpoint set_node (p : path) (n : node) (t : tree) : tree :=
  match t with
  | [] => [(p, n)]
  | (q, m) :: rest =>
      if path_eqb p q then (q, n) :: rest else (q, m) :: set_node p n rest
  end.

Definition rename_key (src dst : path) (e : path * node) : path * node :=
  match strip_prefix src (fst e) with
  | Some rest => (dst ++ rest, snd e)
  | None => e
  end.

(** The tree after the directory [src], with all below it, has been renamed
    to [dst], replacing what was at [dst]. *)
Definition relocate (src dst : path) (t : tree) : tree :=
  map (rename_key src dst)
      (filter (fun e => negb (path_eqb (fst e) dst)) t).

(** The tree after the file [src] has been renamed to [dst], replacing what
    was at [dst]. *)
Definition rename_file (src dst : path) (t : tree) : tree :=
  map (fun e => if path_eqb (fst e) src then (dst, snd e) else e)
      (filter (fun e => negb (path_eqb (fst e) dst)) t).

Definition relocate_entry (n : node) (src dst : path) (t : tree) : tree :=
  match n with
  | File _ => rename_file src dst t
  | Dir _ => relocate src dst t
  end.

(* ------------------------------------------------------------------ *)
(** ** State, exceptions and the monad of the embedded code *)

Inductive exn : Type :=
| PermissionError
| FileNotFoundError
| FileExistsError
| NotADirectoryError
| AttributeError
| ShutilError.     (* shutil.Error *)

(** How a call ends: with a value, with an exception, or (for the bounded
    walk only) cut short because its fuel ran out. *)
Inductive result (A : Type) : Type :=
| Ok (a : A)
| Raise (e : exn)
| Unfinished.
Arguments Ok {A} a.
Arguments Raise {A} e.
Arguments Unfinished {A}.

(** [self.stats] *)
Record Stats : Type := mkStats {
  files_moved : Z;
  space_cleared : Z;
  errors : Z
}.

(** What a run did to the tree: relocations and directory creations. *)
Inductive event : Type :=
| Moved (src dst : path)
| Created (dir : path).

Record State : Type := Build_State {
  stats : Stats;                (* self.stats *)
  files : tree;                 (* the disk *)
  busy : list (path * nat);     (* failing move attempts left, per source *)
  now : string;                 (* datetime.now(), formatted *)
  slept : nat;                  (* seconds spent in time.sleep *)
  journal : list event;         (* relocations and creations, oldest first *)
  attributes : list (path * Z)  (* attribute bits set, latest first *)
}.

(** A state in which no attribute bit has been set. *)
Definition mkState (stats : Stats) (files : tree) (busy : list (path * nat))
  (now : string) (slept : nat) (journal : list event) : State :=
  Build_State stats files busy now slept journal [].

Definition M (A : Type) : Type := State -> result A * State.

Definition ret {A} (a : A) : M A := fun s => (Ok a, s).

Definition bind {A B} (c : M A) (k : A -> M B) : M B :=
  fun s =>
    match c s with
    | (Ok a, s') => k a s'
    | (Raise e, s') => (Raise e, s')
    | (Unfinished, s') => (Unfinished, s')
    end.

Definition raise {A} (e : exn) : M A := fun s => (Raise e, s).

Declare Scope py_scope.
Delimit Scope py_scope with py.
Notation "x <- c ;; k" := (bind c (fun x => k))
  (at level 61, c at next level, right associativity) : py_scope.
Notation "c ;; k" := (bind c (fun _ => k))
  (at level 61, right associativity) : py_scope.
Local Open Scope py_scope.

(** [try: body except Exception as e: handler]. *)
Definition try_except {A} (body : M A) (handler : exn -> M A) : M A :=
  fun s =>
    match body s with
    | (Ok a, s') => (Ok a, s')
    | (Raise e, s') => handler e s'
    | (Unfinished, s') => (Unfinished, s')
    end.

(** [try: body except PermissionError: handler]: any other exception
    passes through. *)
Definition try_except_PermissionError {A} (body : M A) (handler : M A) : M A :=
  fun s =>
    match body s with
    | (Raise PermissionError, s') => handler s'
    | r => r
    end.

(** [for x in l: body x] *)
Fixpoint for_each {A} (l : list A) (body : A -> M unit) : M unit :=
  match l with
  | [] => ret tt
  | x :: rest => body x ;; for_each rest body
  end.

Definition when (b : bool) (c : M unit) : M unit := if b then c else ret tt.

Definition set_files (t : tree) (s : State) : State :=
  Build_State (stats s) t (busy s) (now s) (slept s) (journal s) (attributes s).

Definition set_stats (st : Stats) (s : State) : State :=
  Build_State st (files s) (busy s) (now s) (slept s) (journal s)
              (attributes s).

Definition record (e : event) (s : State) : State :=
  Build_State (stats s) (files s) (busy s) (now s) (slept s)
              (journal s ++ [e]) (attributes s).

Definition set_attributes (a : list (path * Z)) (s : State) : State :=
  Build_State (stats s) (files s) (busy s) (now s) (slept s) (journal s) a.

(** *** Locks *)

Fixpoint busy_count (p : path) (b : list (path * nat)) : nat :=
  match b with
  | [] => 0
  | (q, k) :: rest => if path_eqb p q then k else busy_count p rest
  end.

(** One failing attempt on [p] has been used up. *)
Fixpoint busy_tick (p : path) (b : list (path * nat)) : list (path * nat) :=
  match b with
  | [] => []
  | (q, k) :: rest =>
      if path_eqb p q then (q, Nat.pred k) :: rest
      else (q, k) :: busy_tick p rest
  end.

Definition tick (p : path) (s : State) : State :=
  Build_State (stats s) (files s) (busy_tick p (busy s)) (now s) (slept s)
              (journal s) (attributes s).

(** *** Attribute bits *)

(** The bits of [p]: those of the latest setting, none where none was
    made. *)
Fixpoint attribute_bits (p : path) (a : list (path * Z)) : Z :=
  match a with
  | [] => 0
  | (q, bits) :: rest => if path_eqb p q then bits else attribute_bits p rest
  end.

(** [FILE_ATTRIBUTE_READONLY] (0x1), [FILE_ATTRIBUTE_HIDDEN] (0x2) and
    [FILE_ATTRIBUTE_SYSTEM] (0x4): a file that has one of them is not opened
    for writing. *)
Definition write_protected (a : list (path * Z)) (p : path) : bool :=
  negb (Z.land (attribute_bits p a) 7 =? 0)%Z.

(** The settings after the entry [n] at [src] has been renamed to [dst]:
    they go with the entry, and with all below it when it is a directory;
    what was set at (or below) [dst] is gone. *)
Definition carry_attributes (n : node) (src dst : path)
  (a : list (path * Z)) : list (path * Z) :=
  match n with
  | File _ =>
      map (fun e => if path_eqb (fst e) src then (dst, snd e) else e)
          (filter (fun e => negb (path_eqb (fst e) dst)) a)
  | Dir _ =>
      map (fun e => match strip_prefix src (fst e) with
                    | Some rest => (dst ++ rest, snd e)
                    | None => e
                    end)
          (filter (fun e => negb (is_prefix dst (fst e))) a)
  end.

(** The state after the entry [n] at [src] has been renamed to [dst]. *)
Definition renamed (n : node) (src dst : path) (s : State) : State :=
  record (Moved src dst)
    (set_attributes (carry_attributes n src dst (attributes s))
       (set_files (relocate_entry n src dst (files s)) s)).

(** *** The library calls the code makes *)

Definition os_path_exists (p : path) : M bool :=
  fun s => (Ok (exists_in (files s) p), s).

Definition os_path_isdir (p : path) : M bool :=
  fun s => (Ok (isdir_in (files s) p), s).

Definition os_path_isfile (p : path) : M bool :=
  fun s => (Ok (isfile_in (files s) p), s).

Definition os_path_getsize (p : path) : M Z :=
  fun s =>
    match lookup p (files s) with
    | Some (File z) | Some (Dir z) => (Ok z, s)
    | None => (Raise FileNotFoundError, s)
    end.

Definition os_listdir (p : path) : M (list string) :=
  fun s =>
    match lookup p (files s) with
    | Some (Dir _) => (Ok (listdir_in (files s) p), s)
    | Some (File _) => (Raise NotADirectoryError, s)
    | None => (Raise FileNotFoundError, s)
    end.

Definition os_mkdir (p : path) : M unit :=
  fun s =>
    if exists_in (files s) p then (Raise FileExistsError, s)
    else if parent_is_dir (files s) p
    then (Ok tt, record (Created p) (set_files (files s ++ [(p, Dir 0)]) s))
    else if exists_in (files s) (dirname p) then (Raise NotADirectoryError, s)
    else (Raise FileNotFoundError, s).

(** [os.makedirs(name, exist_ok)], on the reversed path: the missing head is
    made first, then the leaf; an [OSError] of the leaf is swallowed when
    [exist_ok] holds and the leaf is a directory. *)
Fixpoint makedirs_rev (rname : list string) (exist_ok : bool) : M unit :=
  match rname with
  | [] => raise FileNotFoundError
  | tail :: rhead =>
      (match rhead with
       | [] => ret tt
       | _ :: _ =>
           head_exists <- os_path_exists (rev rhead) ;;
           if head_exists then ret tt
           else fun s =>
                  match makedirs_rev rhead exist_ok s with
                  | (Raise FileExistsError, s') => (Ok tt, s')
                  | r => r
                  end
       end) ;;
      fun s =>
        match os_mkdir (rev rhead ++ [tail]) s with
        | (Raise e, s') =>
            if negb exist_ok || negb (isdir_in (files s') (rev rhead ++ [tail]))
            then (Raise e, s') else (Ok tt, s')
        | r => r
        end
  end.

Definition os_makedirs (name : path) (exist_ok : bool) : M unit :=
  makedirs_rev (rev name) exist_ok.

(** [shutil.move(src, dst)].  Into an existing directory [dst] the entry
    goes under its own name, and a name taken there is an error; otherwise
    [dst] is the new name, and a file at [dst] is replaced, which its
    attribute bits can forbid. *)
Definition shutil_move (src dst : path) : M unit :=
  fun s =>
    let t := files s in
    let real_dst := if isdir_in t dst then dst ++ [basename src] else dst in
    if isdir_in t dst && exists_in t real_dst then (Raise ShutilError, s)
    else
      match lookup src t with
      | None => (Raise FileNotFoundError, s)
      | Some n =>
          if negb (parent_is_dir t real_dst) then (Raise FileNotFoundError, s)
          else if (0 <? busy_count src (busy s))%nat
          then (Raise PermissionError, tick src s)
          else
            match n with
            | Dir _ =>
                if is_prefix src real_dst then (Raise ShutilError, s)
                else if exists_in t real_dst then (Raise FileExistsError, s)
                else (Ok tt, renamed n src real_dst s)
            | File _ =>
                if exists_in t real_dst
                   && write_protected (attributes s) real_dst
                then (Raise PermissionError, s)
                else (Ok tt, renamed n src real_dst s)
            end
      end.

(** [with open(p, 'w') as f: ...] leaving [size] bytes at [p].  A new file
    has none of the three bits. *)
Definition open_write (p : path) (size : Z) : M unit :=
  fun s =>
    match lookup p (files s) with
    | Some (Dir _) => (Raise PermissionError, s)
    | Some (File _) =>
        if write_protected (attributes s) p then (Raise PermissionError, s)
        else (Ok tt, set_files (set_node p (File size) (files s)) s)
    | None =>
        if parent_is_dir (files s) p
        then (Ok tt, set_attributes ((p, 0%Z) :: attributes s)
                       (set_files (set_node p (File size) (files s)) s))
        else (Raise FileNotFoundError, s)
    end.

(** [ctypes.windll.kernel32.SetFileAttributesW(p, bits)]: the bits of [p]
    become [bits]; where nothing is at [p] the call fails, which its
    callers do not look at. *)
Definition SetFileAttributesW (p : path) (bits : Z) : M unit :=
  fun s =>
    if exists_in (files s) p
    then (Ok tt, set_attributes ((p, bits) :: attributes s) s)
    else (Ok tt, s).

Definition time_sleep (seconds : nat) : M unit :=
  fun s =>
    (Ok tt, Build_State (stats s) (files s) (busy s) (now s)
                        (slept s + seconds) (journal s) (attributes s)).

(** [datetime.datetime.now().strftime("%b-%d-%Y_%I-%M%p")] *)
Definition strftime_now : M string := fun s => (Ok (now s), s).

(** [self.stats[...] += ...] *)
Definition add_space_cleared (z : Z) : M unit :=
  fun s =>
    (Ok tt, set_stats (mkStats (files_moved (stats s))
                               (space_cleared (stats s) + z)
                               (errors (stats s))) s).

Definition incr_files_moved : M unit :=
  fun s =>
    (Ok tt, set_stats (mkStats (files_moved (stats s) + 1)
                               (space_cleared (stats s))
                               (errors (stats s))) s).

Definition incr_errors : M unit :=
  fun s =>
    (Ok tt, set_stats (mkStats (files_moved (stats s))
                               (space_cleared (stats s))
                               (errors (stats s) + 1)) s).

(** [os.rename(src, dst)] as Windows has it: a name taken at [dst] is an
    error, and so is a directory renamed into itself.  Renaming an entry to
    its own name changes nothing. *)
Definition os_rename (src dst : path) : M unit :=
  fun s =>
    let t := files s in
    match lookup src t with
    | None => (Raise FileNotFoundError, s)
    | Some n =>
        if path_eqb src dst then (Ok tt, s)
        else if exists_in t dst then (Raise FileExistsError, s)
        else if negb (parent_is_dir t dst) then (Raise FileNotFoundError, s)
        else if (0 <? busy_count src (busy s))%nat
        then (Raise PermissionError, tick src s)
        else if match n with Dir _ => is_prefix src dst | File _ => false end
        then (Raise PermissionError, s)
        else (Ok tt, renamed n src dst s)
    end.

(* ------------------------------------------------------------------ *)
(** ** Functions that both files define alike *)

(** [FileOrganizer.get_file_size] *)
Definition get_file_size (file_path : path) : M Z :=
  try_except (os_path_getsize file_path) (fun _ => ret 0%Z).

Definition system_files : list string :=
  [ "desktop.ini"; "recycle bin"; "trash"; "$recycle.bin"; ".ds_store";
    "thumbs.db" ].

(** [FileOrganizer.is_system_file], over the directory test it calls.
    [os.path.isdir] itself answers [False] where [os.stat] fails, so the
    handler is reached only with a test that raises. *)
Definition is_system_file_with (isdir : path -> M bool) (file_path : path)
  : M bool :=
  try_except
    (let file_name := basename file_path in
     let file_lower := PyStr.lower file_name in
     if PyStr.mem file_lower system_files then ret true
     else
       d <- isdir file_path ;;
       if d && (PyStr.contains "$recycle.bin" file_lower
                || PyStr.contains "recycle bin" file_lower)
       then ret true
       else ret false)
    (fun _ => ret false).

Definition is_system_file : path -> M bool := is_system_file_with os_path_isdir.

(** [FileOrganizer.update_archive_timestamp].  The result is [None] where
    the source falls off the end of the function without a [return]. *)
Definition update_archive_timestamp (archive_path : path) : M (option path) :=
  try_except
    (archive_exists <- os_path_exists archive_path ;;
     if archive_exists then
       new_timestamp <- strftime_now ;;
       let parent_dir := dirname archive_path in
       let new_path := parent_dir ++ [("Archive_" ++ new_timestamp)%string] in
       try_except
         (os_rename archive_path new_path ;;
          ret (Some new_path))
         (fun _ => ret (Some archive_path))
     else ret None)
    (fun _ => ret (Some archive_path)).

(** [FileOrganizer.print_statistics] only logs. *)
Definition print_statistics : M unit := ret tt.

(** [self.desktop_path] and [self.downloads_path] hold a path or [None];
    in [if self.desktop_path:] both [None] and the empty string count as
    false. *)
Definition truthy_path (p : option path) : bool :=
  match p with
  | Some (_ :: _) => true
  | _ => false
  end.

Definition path_of (p : option path) : path :=
  match p with
  | Some q => q
  | None => []
  end.

(* ------------------------------------------------------------------ *)
(** ** [File_Organizer (old).py]: the forward sweep with statistics *)

Module Legacy.

(** The condition under which [organize_folder] keeps an item, over the
    directory test of [is_system_file]. *)
Definition keeps_with (isdir : path -> M bool) (folder_path : path)
  (item : string) : M bool :=
  let item_path := folder_path ++ [item] in
  if negb (String.eqb item "Archive") then
    sys <- is_system_file_with isdir item_path ;;
    ret (negb sys && negb (PyStr.contains "archive" (PyStr.lower item)))
  else ret false.

Definition keeps : path -> string -> M bool := keeps_with os_path_isdir.

(** The loop that fills [files_to_move]. *)
Fixpoint filter_items (folder_path : path) (all_items : list string)
  : M (list string) :=
  match all_items with
  | [] => ret []
  | item :: rest =>
      keep <- keeps folder_path item ;;
      files_to_move <- filter_items folder_path rest ;;
      ret (if keep then item :: files_to_move else files_to_move)
  end.

(** [while retry_count > 0: try: ... break except PermissionError: ...] *)
Fixpoint retry_loop (retry_count : nat) (item_path target_path : path)
  : M unit :=
  match retry_count with
  | O => ret tt
  | S retry_count' =>
      try_except_PermissionError
        (size <- get_file_size item_path ;;
         add_space_cleared size ;;
         shutil_move item_path target_path ;;
         incr_files_moved)
        (time_sleep 1 ;;
         if (retry_count' =? 0)%nat then raise PermissionError
         else retry_loop retry_count' item_path target_path)
  end.

(** The body of [for item in files_to_move]. *)
Definition move_item (folder_path dated_subfolder : path) (item : string)
  : M unit :=
  try_except
    (let item_path := folder_path ++ [item] in
     let target_path := dated_subfolder ++ [item] in
     retry_loop 3 item_path target_path)
    (fun _ => incr_errors).

(** [FileOrganizer.organize_folder] *)
Definition organize_folder (folder_path : path) : M unit :=
  try_except
    (folder_exists <- os_path_exists folder_path ;;
     match folder_path with
     | [] => ret tt
     | _ :: _ =>
         if negb folder_exists then ret tt
         else
           let archive_folder := folder_path ++ ["Archive"] in
           archive_exists <- os_path_exists archive_folder ;;
           when (negb archive_exists) (os_makedirs archive_folder false) ;;
           timestamp <- strftime_now ;;
           let dated_subfolder := archive_folder ++ [timestamp] in
           fun s =>
             match os_listdir folder_path s with
             | (Raise _, s') => (Ok tt, s')
             | (Unfinished, s') => (Unfinished, s')
             | (Ok all_items, s') =>
                 (files_to_move <- filter_items folder_path all_items ;;
                  match files_to_move with
                  | [] => ret tt
                  | _ :: _ =>
                      os_makedirs dated_subfolder true ;;
                      for_each files_to_move
                               (move_item folder_path dated_subfolder)
                  end) s'
             end
     end)
    (fun _ => ret tt).

(** [FileOrganizer.organize] *)
Definition organize (desktop_path downloads_path : option path) : M unit :=
  try_except
    (when (truthy_path desktop_path)
       (organize_folder (path_of desktop_path)) ;;
     when (truthy_path downloads_path)
       (organize_folder (path_of downloads_path)) ;;
     print_statistics)
    (fun _ => incr_errors).

Section SpecialFolders.

Variable os_type : string.     (* self.os_type *)
Variable home : path.          (* Path.home() *)
(** The [Shell Folders] value of the Downloads GUID in the registry;
    [None] when the key or the value cannot be read. *)
Variable shell_folders_downloads : option path.

Definition winreg_QueryValueEx (value : option path) : M path :=
  match value with
  | Some reg_path => ret reg_path
  | None => raise FileNotFoundError
  end.

(** [FileOrganizer.get_special_folder_path] *)
Definition get_special_folder_path (folder_name : string) : M (option path) :=
  try_except
    (if String.eqb os_type "Windows" then
       let possible_paths : list path := [] in
       let onedrive_path := home ++ ["OneDrive"; folder_name] in
       onedrive_exists <- os_path_exists onedrive_path ;;
       let possible_paths :=
         if onedrive_exists then possible_paths ++ [onedrive_path]
         else possible_paths in
       let regular_path := home ++ [folder_name] in
       regular_exists <- os_path_exists regular_path ;;
       let possible_paths :=
         if regular_exists then possible_paths ++ [regular_path]
         else possible_paths in
       possible_paths <-
         (if String.eqb folder_name "Downloads" then
            try_except
              (reg_path <- winreg_QueryValueEx shell_folders_downloads ;;
               reg_exists <- os_path_exists reg_path ;;
               ret (if reg_exists then possible_paths ++ [reg_path]
                    else possible_paths))
              (fun _ => ret possible_paths)
          else ret possible_paths) ;;
       match possible_paths with
       | chosen_path :: _ => ret (Some chosen_path)
       | [] => ret None
       end
     else
       let path := home ++ [folder_name] in
       path_exists <- os_path_exists path ;;
       if path_exists then ret (Some path) else ret None)
    (fun _ => ret None).

End SpecialFolders.

End Legacy.

(* ------------------------------------------------------------------ *)
(** ** [File_Organizer.py] *)

Module FileOrganizer.

(** The lines [f.write] puts into [Desktop.ini] after the section header. *)
Definition shell32 (index : string) : string :=
  "IconResource=%SystemRoot%\system32\SHELL32.dll," ++ index.

Definition desktop_ini_lines (category : string) : list string :=
  "[.ShellClassInfo]" ::
  (if String.eqb category "Audio" then
     [shell32 "137"; "BackgroundColor=144 238 144"]
   else if String.eqb category "Documents" then
     [shell32 "21"; "BackgroundColor=255 232 186"]
   else if String.eqb category "Images" then
     [shell32 "140"; "BackgroundColor=173 216 230"]
   else if String.eqb category "Video" then
     [shell32 "136"; "BackgroundColor=255 182 193"]
   else if String.eqb category "Shortcuts" then
     [shell32 "29"; "BackgroundColor=255 215 0"]
   else if String.eqb category "Code" then
     [shell32 "70"; "BackgroundColor=221 160 221"]
   else if String.eqb category "Executables" then
     [shell32 "8"; "BackgroundColor=255 160 122"]
   else if String.eqb category "ZIP_Files" then
     ["IconResource=%SystemRoot%\system32\zipfldr.dll,0";
      "BackgroundColor=210 180 140"]
   else if String.eqb category "RAR_Files" then
     [shell32 "165"; "BackgroundColor=210 180 140"]
   else if String.eqb category "Other_Archives" then
     [shell32 "165"; "BackgroundColor=210 180 140"]
   else
     [shell32 "234"; "BackgroundColor=211 211 211"]).

(** What [set_folder_color] writes: only [Shortcuts] has lines of its own. *)
Definition folder_color_lines (category : string) : list string :=
  "[.ShellClassInfo]" ::
  (if String.eqb category "Shortcuts" then
     [shell32 "29"; "IconFile=%SystemRoot%\system32\SHELL32.dll";
      "IconIndex=29"; "BackgroundColor=255 215 0"]
   else []).

(** Bytes on disk of lines written in text mode (each ends in CR LF). *)
Definition written_size (lines : list string) : Z :=
  fold_right (fun l acc => (Z.of_nat (String.length l) + 2 + acc)%Z) 0%Z lines.

(** [FileOrganizer.set_folder_color] on Windows (the module imports
    [winreg], so it loads nowhere else). *)
Definition set_folder_color (folder_path : path) (category : string)
  : M unit :=
  try_except
    (let ini_path := folder_path ++ ["Desktop.ini"] in
     open_write ini_path (written_size (folder_color_lines category)) ;;
     SetFileAttributesW ini_path 6 ;;
     SetFileAttributesW folder_path 1)
    (fun _ => ret tt).

Definition shortcut_suffixes : list string := [".lnk"; ".url"; ".desktop"].

(** [FileOrganizer.organize_folder]: the shortcut pass; the source ends
    with a placeholder comment where the regular organization would be. *)
Definition organize_folder (folder_path : path) : M unit :=
  try_except
    (folder_exists <- os_path_exists folder_path ;;
     match folder_path with
     | [] => ret tt
     | _ :: _ =>
         if negb folder_exists then ret tt
         else
           items <- os_listdir folder_path ;;
           let shortcuts :=
             filter (fun item =>
                       PyStr.endswith_any (PyStr.lower item) shortcut_suffixes)
                    items in
           match shortcuts with
           | [] => ret tt
           | _ :: _ =>
               timestamp <- strftime_now ;;
               let archive_path := folder_path ++ ["Archive"; timestamp] in
               let shortcuts_path := archive_path ++ ["Shortcuts"] in
               os_makedirs shortcuts_path true ;;
               set_folder_color shortcuts_path "Shortcuts" ;;
               for_each shortcuts (fun shortcut =>
                 try_except
                   (let source_path := folder_path ++ [shortcut] in
                    let target_path := shortcuts_path ++ [shortcut] in
                    shutil_move source_path target_path)
                   (fun _ => ret tt))
           end
     end)
    (fun _ => ret tt).

(** The lines [handle_shortcuts_first] writes. *)
Definition shortcut_ini_lines : list string :=
  [ "[.ShellClassInfo]"; shell32 "29";
    "IconFile=%SystemRoot%\system32\SHELL32.dll"; "IconIndex=29";
    "BackgroundColor=255 215 0" ].

(** [FileOrganizer.handle_shortcuts_first] *)
Definition handle_shortcuts_first (folder_path : path) : M unit :=
  try_except
    (timestamp <- strftime_now ;;
     let archive_path := folder_path ++ ["Archive"; timestamp] in
     let shortcuts_path := archive_path ++ ["Shortcuts"] in
     os_makedirs shortcuts_path true ;;
     let ini_path := shortcuts_path ++ ["Desktop.ini"] in
     open_write ini_path (written_size shortcut_ini_lines) ;;
     SetFileAttributesW ini_path 6 ;;
     SetFileAttributesW shortcuts_path 1 ;;
     items <- os_listdir folder_path ;;
     for_each items (fun item =>
       when (PyStr.endswith_any (PyStr.lower item) shortcut_suffixes)
         (try_except
            (let source := folder_path ++ [item] in
             let target := shortcuts_path ++ [item] in
             source_exists <- os_path_exists source ;;
             when source_exists (shutil_move source target))
            (fun _ => ret tt))))
    (fun _ => ret tt).

(** [FileOrganizer.move_shortcuts]: the moves are not guarded one by one. *)
Definition move_shortcuts (folder_path : path) : M unit :=
  try_except
    (timestamp <- strftime_now ;;
     let archive_path := folder_path ++ ["Archive"; timestamp] in
     let shortcuts_path := archive_path ++ ["Shortcuts"] in
     os_makedirs shortcuts_path true ;;
     items <- os_listdir folder_path ;;
     for_each items (fun item =>
       when (PyStr.endswith_any (PyStr.lower item) shortcut_suffixes)
         (let source := folder_path ++ [item] in
          let target := shortcuts_path ++ [item] in
          shutil_move source target)))
    (fun _ => ret tt).

(** What [set_folder_icon_and_color] writes. *)
Definition icon_and_color_lines (category : string) : list string :=
  "[.ShellClassInfo]" ::
  (if String.eqb category "Audio" then
     [shell32 "137"; "BackgroundColor=144 238 144"]
   else if String.eqb category "Documents" then
     [shell32 "21"; "BackgroundColor=255 232 186"]
   else if String.eqb category "Images" then
     [shell32 "140"; "BackgroundColor=173 216 230"]
   else if String.eqb category "Shortcuts" then
     [shell32 "29"; "BackgroundColor=255 215 0"]
   else []).

(** [FileOrganizer.set_folder_icon_and_color] *)
Definition set_folder_icon_and_color (folder_path : path) (category : string)
  : M unit :=
  try_except
    (let ini_path := folder_path ++ ["Desktop.ini"] in
     open_write ini_path (written_size (icon_and_color_lines category)) ;;
     SetFileAttributesW ini_path 6 ;;
     SetFileAttributesW folder_path 1)
    (fun _ => ret tt).

(** What [force_update_onedrive_archive] writes. *)
Definition force_update_lines (category : string) : list string :=
  "[.ShellClassInfo]" ::
  (if String.eqb category "Audio" then
     [shell32 "137"; "BackgroundColor=144 238 144"]
   else if String.eqb category "Documents" then
     [shell32 "21"; "BackgroundColor=255 232 186"]
   else if String.eqb category "Images" then
     [shell32 "140"; "BackgroundColor=173 216 230"]
   else []).

(** How control leaves a part of [get_special_folder_path]: by [return],
    or by falling through to the next statement with the local name [path]
    bound or not. *)
Inductive flow : Type :=
| Returned (p : path)
| Falls (path : option path).

Fixpoint assoc {A} (key : string) (d : list (string * A)) : option A :=
  match d with
  | [] => None
  | (k, v) :: rest => if String.eqb key k then Some v else assoc key rest
  end.

Section SpecialFolders.

Variable os_type : string.      (* self.os_type *)
Variable home : path.           (* os.path.expanduser('~') *)
(** [os.path.expandvars] of the value of that name under
    [User Shell Folders]; [None] when the key or the value cannot be
    read. *)
Variable user_shell_folders : string -> option path.
(** [buf.value] after [SHGetFolderPathW] for a CSIDL; [None] when the call
    raises. *)
Variable SHGetFolderPathW : Z -> option path.
Variable USERPROFILE : path.    (* os.environ.get('USERPROFILE', '') *)
(** The lines of [~/.config/user-dirs.dirs], each with the path that the
    value after its [=] denotes once unquoted and with [$HOME] expanded
    ([None] when taking it apart raises); [None] when the file cannot be
    opened. *)
Variable user_dirs : option (list (string * option path)).

Definition known_folders : list string :=
  ["Desktop"; "Documents"; "Downloads"; "Music"; "Pictures"; "Videos"].

Definition CSIDL_VALUES : list (string * Z) :=
  [ ("Desktop", 0%Z); ("Documents", 5%Z); ("Music", 13%Z);
    ("Pictures", 39%Z); ("Videos", 14%Z); ("Downloads", 26%Z) ].

(** Every entry of [env_vars] names [USERPROFILE] and a folder. *)
Definition env_vars : list (string * string) :=
  [ ("Desktop", "Desktop"); ("Documents", "Documents");
    ("Downloads", "Downloads"); ("Music", "Music");
    ("Pictures", "Pictures"); ("Videos", "Videos") ].

Definition mac_paths : list (string * string) :=
  [ ("Desktop", "Desktop"); ("Documents", "Documents");
    ("Downloads", "Downloads"); ("Music", "Music");
    ("Pictures", "Pictures"); ("Movies", "Movies") ].

Definition linux_paths : list (string * string) :=
  [ ("Desktop", "Desktop"); ("Documents", "Documents");
    ("Downloads", "Downloads"); ("Music", "Music");
    ("Pictures", "Pictures"); ("Videos", "Videos") ].

Definition lookup_or_raise (value : option path) : M path :=
  match value with
  | Some p => ret p
  | None => raise FileNotFoundError
  end.

(** [path = ...; if os.path.exists(path): return path] *)
Definition try_path (path : path) : M flow :=
  path_exists <- os_path_exists path ;;
  ret (if path_exists then Returned path else Falls (Some path)).

(** The loop over the lines of [user-dirs.dirs]; a line whose value cannot
    be taken apart ends it, with [path] as it was. *)
Fixpoint scan_user_dirs (folder_name : string)
  (lines : list (string * option path)) (path : option path) : M flow :=
  match lines with
  | [] => ret (Falls path)
  | (line, value) :: rest =>
      if String.prefix ("XDG_" ++ PyStr.upper folder_name ++ "_DIR")%string
                       line
      then match value with
           | None => ret (Falls path)
           | Some new_path =>
               r <- try_path new_path ;;
               match r with
               | Returned p => ret (Returned p)
               | Falls path' => scan_user_dirs folder_name rest path'
               end
           end
      else scan_user_dirs folder_name rest path
  end.

(** Run [next] unless [r] has returned. *)
Definition unless_returned (r : flow) (next : option path -> M flow) : M flow :=
  match r with
  | Returned p => ret (Returned p)
  | Falls path => next path
  end.

(** [FileOrganizer.get_special_folder_path].  Where the source reaches its
    last lines with [path] unbound, the name error is caught by the
    handler, which answers [None]. *)
Definition get_special_folder_path (folder_name : string) : M (option path) :=
  try_except
    (r <-
       (if String.eqb os_type "Windows" then
          r <-
            (if PyStr.mem folder_name known_folders then
               r <- try_except
                      (path <- lookup_or_raise
                                 (user_shell_folders folder_name) ;;
                       try_path path)
                      (fun _ => ret (Falls None)) ;;
               unless_returned r (fun path =>
                 try_except
                   (match assoc folder_name CSIDL_VALUES with
                    | Some csidl =>
                        new_path <- lookup_or_raise (SHGetFolderPathW csidl) ;;
                        try_path new_path
                    | None => ret (Falls path)
                    end)
                   (fun _ => ret (Falls path)))
             else ret (Falls None)) ;;
          unless_returned r (fun path =>
            match assoc folder_name env_vars with
            | Some name => try_path (USERPROFILE ++ [name])
            | None => ret (Falls path)
            end)
        else if String.eqb os_type "Darwin" then
          match assoc folder_name mac_paths with
          | Some name => try_path (home ++ [name])
          | None => ret (Falls None)
          end
        else if String.eqb os_type "Linux" then
          r <- match user_dirs with
               | Some lines => scan_user_dirs folder_name lines None
               | None => ret (Falls None)
               end ;;
          unless_returned r (fun path =>
            match assoc folder_name linux_paths with
            | Some name => try_path (home ++ [name])
            | None => ret (Falls path)
            end)
        else ret (Falls None)) ;;
     match r with
     | Returned p => ret (Some p)
     | Falls (Some path) => ret (Some path)
     | Falls None => ret None
     end)
    (fun _ => ret None).

End SpecialFolders.

(** [self.categories] as [FileOrganizer.__init__] leaves it.  The
    constructor assigns [os_type], [config], [stats], [desktop_path] and
    [downloads_path]; the configuration it loads stays in [self.config], and
    no line of the file assigns [categories]: the attribute is not set. *)
Definition categories_after_init : option category_table := None.

(** Reading [self.categories]: the table where the attribute is set. *)
Definition getattr_categories (self_categories : option category_table)
  : M category_table :=
  match self_categories with
  | Some categories => ret categories
  | None => raise AttributeError
  end.

Section Repair.

(** [self.categories]: [None] while the attribute is not set. *)
Variable self_categories : option category_table.
Variable home : path.                    (* os.path.expanduser('~') *)
Variable desktop_path : option path.     (* self.desktop_path *)
Variable downloads_path : option path.   (* self.downloads_path *)

(** [FileOrganizer.get_category_for_extension] *)
Definition get_category_for_extension (ext : string) : M string :=
  if PyStr.mem ext shortcut_extensions then ret "Shortcuts"
  else
    categories <- getattr_categories self_categories ;;
    match scan_categories categories ext with
    | Some category => ret category
    | None => ret "Others"
    end.

(** [FileOrganizer.move_to_category] *)
Definition move_to_category (file_path dated_folder : path) : M unit :=
  try_except
    (let file_name := basename file_path in
     let ext := snd (PyStr.splitext (PyStr.lower file_name)) in
     let category := "Others" in
     category <-
       (if PyStr.mem ext shortcut_extensions then ret "Shortcuts"
        else
          categories <- getattr_categories self_categories ;;
          ret (scan_from category categories ext)) ;;
     let target_dir := dated_folder ++ [category] in
     let target_path := target_dir ++ [file_name] in
     target_exists <- os_path_exists target_path ;;
     when (negb target_exists) (shutil_move file_path target_path))
    (fun _ => ret tt).

(** The truth value of a string: empty is false. *)
Definition truthy (s : string) : bool := negb (String.eqb s "").

(** "Move any misplaced files": the test and the move made for one name
    of a dated folder, the same in both repair sweeps. *)
Definition refile (dated_path : path) (item : string) : M unit :=
  is_file <- os_path_isfile (dated_path ++ [item]) ;;
  when is_file
    (let ext := snd (PyStr.splitext (PyStr.lower item)) in
     target_category <- get_category_for_extension ext ;;
     when (truthy target_category)
       (let source := dated_path ++ [item] in
        let target := dated_path ++ [target_category; item] in
        target_exists <- os_path_exists target ;;
        when (negb target_exists) (shutil_move source target))).

(** Creation and decoration of one category folder. *)
Definition ensure_category (dated_path : path) (category : string) : M unit :=
  let category_path := dated_path ++ [category] in
  os_makedirs category_path true ;;
  let ini_path := category_path ++ ["Desktop.ini"] in
  open_write ini_path (written_size (desktop_ini_lines category)) ;;
  SetFileAttributesW ini_path 6 ;;
  SetFileAttributesW category_path 1.

(** The body of [for category in self.categories.keys()] of
    [fix_onedrive_archives]; the move loop sits inside the category loop and
    lists the dated folder anew each time. *)
Definition fix_category (dated_path : path) (category : string) : M unit :=
  ensure_category dated_path category ;;
  items <- os_listdir dated_path ;;
  for_each items (refile dated_path).

Definition fix_dated_folder (archive_path : path) (dated_folder : string)
  : M unit :=
  let dated_path := archive_path ++ [dated_folder] in
  is_dir <- os_path_isdir dated_path ;;
  when (is_dir && PyStr.contains "_" dated_folder)
    (categories <- getattr_categories self_categories ;;
     for_each (map fst categories) (fix_category dated_path)).

Definition onedrive_archive_paths : list path :=
  [ home ++ ["OneDrive"; "Archive - Pre-2024"; "Desktop"; "Archive"];
    home ++ ["OneDrive"; "Archive - Pre-2024"; "Downloads"; "Archive"];
    home ++ ["OneDrive - Business"; "Archive - Pre-2024"; "Desktop"; "Archive"];
    home ++ ["OneDrive - Business"; "Archive - Pre-2024"; "Downloads"; "Archive"] ].

Definition fix_archive (archive_path : path) : M unit :=
  archive_exists <- os_path_exists archive_path ;;
  when archive_exists
    (dated_folders <- os_listdir archive_path ;;
     for_each dated_folders (fix_dated_folder archive_path)).

(** [FileOrganizer.fix_onedrive_archives] *)
Definition fix_onedrive_archives : M unit :=
  try_except (for_each onedrive_archive_paths fix_archive) (fun _ => ret tt).

(** [s.count("_")] *)
Fixpoint count_underscore (s : string) : nat :=
  match s with
  | EmptyString => 0
  | String c r =>
      (if Ascii.eqb c "_"%char then 1 else 0) + count_underscore r
  end.

(** [os.walk(top)], top down, applying [visit] to each
    [(root, dirs, files)]; a directory that cannot be listed is passed
    over. *)
Fixpoint os_walk (fuel : nat) (top : path)
  (visit : path -> list string -> list string -> M unit) : M unit :=
  match fuel with
  | O => fun s => (Unfinished, s)
  | S fuel' =>
      fun s =>
        match lookup top (files s) with
        | Some (Dir _) =>
            let entries := scandir_in (files s) top in
            let is_dir := fun e : string * node =>
                            match snd e with Dir _ => true | File _ => false end in
            let dirs := map fst (filter is_dir entries) in
            let nondirs := map fst (filter (fun e => negb (is_dir e)) entries) in
            (visit top dirs nondirs ;;
             for_each dirs (fun dirname => os_walk fuel' (top ++ [dirname]) visit))
              s
        | _ => (Ok tt, s)
        end
  end.

(** The body of the walk of [fix_all_archives]; the files are those the
    walk listed on arrival. *)
Definition fix_walked (root : path) (dirs files_ : list string) : M unit :=
  when (0 <? count_underscore (basename root))%nat
    (categories <- getattr_categories self_categories ;;
     for_each (map fst categories) (fun category =>
       ensure_category root category ;;
       for_each files_ (refile root))).

Definition archive_locations : list path :=
  [ home ++ ["OneDrive"; "Archive - Pre-2024"];
    home ++ ["OneDrive - Business"; "Archive - Pre-2024"] ]
  ++ match desktop_path with
     | Some p => match p with [] => [] | _ :: _ => [p ++ ["Archive"]] end
     | None => []
     end
  ++ match downloads_path with
     | Some p => match p with [] => [] | _ :: _ => [p ++ ["Archive"]] end
     | None => []
     end.

(** [FileOrganizer.fix_all_archives] *)
Definition fix_all_archives (fuel : nat) : M unit :=
  try_except
    (for_each archive_locations (fun archive_path =>
       archive_exists <- os_path_exists archive_path ;;
       when archive_exists (os_walk fuel archive_path fix_walked)))
    (fun _ => ret tt).

(** [FileOrganizer.update_existing_archives] *)
Definition update_existing_archives (root_path : path) : M unit :=
  try_except
    (let archive_path := root_path ++ ["Archive"] in
     archive_exists <- os_path_exists archive_path ;;
     when archive_exists
       (dated_folders <- os_listdir archive_path ;;
        for_each dated_folders (fun dated_folder =>
          let dated_path := archive_path ++ [dated_folder] in
          is_dir <- os_path_isdir dated_path ;;
          when is_dir
            (categories <- getattr_categories self_categories ;;
             for_each (map fst categories) (fun category =>
               let category_path := dated_path ++ [category] in
               os_makedirs category_path true ;;
               set_folder_icon_and_color category_path category)))))
    (fun _ => ret tt).

(** [FileOrganizer.force_update_onedrive_archive] *)
Definition force_update_onedrive_archive : M unit :=
  try_except
    (let onedrive_paths :=
       [ home ++ ["OneDrive"; "Archive - Pre-2024"];
         home ++ ["OneDrive - Business"; "Archive - Pre-2024"] ] in
     for_each onedrive_paths (fun onedrive_path =>
       onedrive_exists <- os_path_exists onedrive_path ;;
       when onedrive_exists
         (items <- os_listdir onedrive_path ;;
          for_each items (fun item =>
            let dated_path := onedrive_path ++ [item] in
            is_dir <- os_path_isdir dated_path ;;
            when (is_dir && PyStr.contains "_" item)
              (categories <- getattr_categories self_categories ;;
               for_each (map fst categories) (fun category =>
                 let category_path := dated_path ++ [category] in
                 os_makedirs category_path true ;;
                 let ini_path := category_path ++ ["Desktop.ini"] in
                 open_write ini_path
                   (written_size (force_update_lines category)) ;;
                 SetFileAttributesW ini_path 6 ;;
                 SetFileAttributesW category_path 1))))))
    (fun _ => ret tt).

(** The [UserFolder] values of the OneDrive accounts in the registry;
    [None] when the key or the value cannot be read. *)
Variable onedrive_business : option path.
Variable onedrive_personal : option path.

Definition winreg_UserFolder (account : option path) : M path :=
  match account with
  | Some onedrive_path => ret onedrive_path
  | None => raise FileNotFoundError
  end.

(** [FileOrganizer.get_onedrive_archives] *)
Definition get_onedrive_archives : M (list path) :=
  let archive_paths : list path := [] in
  archive_paths <-
    try_except
      (onedrive_path <- winreg_UserFolder onedrive_business ;;
       let archive_path := onedrive_path ++ ["Archive - Pre-2024"] in
       archive_exists <- os_path_exists archive_path ;;
       ret (if archive_exists then archive_paths ++ [archive_path]
            else archive_paths))
      (fun _ => ret archive_paths) ;;
  archive_paths <-
    try_except
      (onedrive_path <- winreg_UserFolder onedrive_personal ;;
       let archive_path := onedrive_path ++ ["Archive - Pre-2024"] in
       archive_exists <- os_path_exists archive_path ;;
       ret (if archive_exists then archive_paths ++ [archive_path]
            else archive_paths))
      (fun _ => ret archive_paths) ;;
  ret archive_paths.

(** The body of the walk of [update_all_archives]: every listed directory
    with an underscore in its name is taken for a dated folder. *)
Definition update_walked (root : path) (dirs files_ : list string) : M unit :=
  for_each dirs (fun dir_name =>
    when (PyStr.contains "_" dir_name)
      (let dated_path := root ++ [dir_name] in
       categories <- getattr_categories self_categories ;;
       for_each (map fst categories) (fun category =>
         let category_path := dated_path ++ [category] in
         os_makedirs category_path true ;;
         set_folder_color category_path category) ;;
       items <- os_listdir dated_path ;;
       for_each items (fun item =>
         let item_path := dated_path ++ [item] in
         is_file <- os_path_isfile item_path ;;
         when is_file (move_to_category item_path dated_path)))).

(** [FileOrganizer.update_all_archives] *)
Definition update_all_archives (fuel : nat) : M unit :=
  try_except
    (onedrive_archives <- get_onedrive_archives ;;
     let archive_locations :=
       onedrive_archives
       ++ match desktop_path with
          | Some p => match p with [] => [] | _ :: _ => [p ++ ["Archive"]] end
          | None => []
          end
       ++ match downloads_path with
          | Some p => match p with [] => [] | _ :: _ => [p ++ ["Archive"]] end
          | None => []
          end in
     for_each archive_locations (fun archive_path =>
       archive_exists <- os_path_exists archive_path ;;
       when archive_exists (os_walk fuel archive_path update_walked)))
    (fun _ => ret tt).

(** [FileOrganizer.organize] *)
Definition organize : M unit :=
  try_except
    (fix_onedrive_archives ;;
     when (truthy_path desktop_path)
       (organize_folder (path_of desktop_path)) ;;
     when (truthy_path downloads_path)
       (organize_folder (path_of downloads_path)) ;;
     fix_onedrive_archives ;;
     print_statistics)
    (fun _ => ret tt).

End Repair.

End FileOrganizer.

(* ------------------------------------------------------------------ *)
(** ** Vocabulary of the statements *)

(** [c] keeps the relation [R] between the state it starts in and the state
    it leaves, however it ends. *)
Definition preserves (R : State -> State -> Prop) {A} (c : M A) : Prop :=
  forall s, R s (snd (c s)).

Definition same_stats (s s' : State) : Prop := stats s' = stats s.

(** [is_system_file] as a function of the tree. *)
Definition system_entry (t : tree) (file_path : path) : bool :=
  let file_lower := PyStr.lower (basename file_path) in
  PyStr.mem file_lower system_files
  || (isdir_in t file_path
      && (PyStr.contains "$recycle.bin" file_lower
          || PyStr.contains "recycle bin" file_lower)).

(** The System-Entry Filter of the forward sweep as a function of the
    tree. *)
Definition eligible (t : tree) (folder_path : path) (item : string) : bool :=
  negb (String.eqb item "Archive")
  && negb (system_entry t (folder_path ++ [item]))
  && negb (PyStr.contains "archive" (PyStr.lower item)).

(** The name is reserved for archives. *)
Definition archive_name (item : string) : bool :=
  String.eqb item "Archive" || PyStr.contains "archive" (PyStr.lower item).

(** [shutil.move src dst] gets as far as touching the source: the source is
    there, the place for it is there, and no name clash stops the call. *)
Definition reaches_source (t : tree) (src dst : path) : bool :=
  let real_dst := if isdir_in t dst then dst ++ [basename src] else dst in
  negb (isdir_in t dst && exists_in t real_dst)
  && exists_in t src
  && parent_is_dir t real_dst.

(** [st_size] as [get_file_size] reads it. *)
Definition size_in (t : tree) (p : path) : Z :=
  match lookup p t with
  | Some (File z) | Some (Dir z) => z
  | None => 0
  end.

(** The state after [k] attempts on a locked [item_path], each of which
    added [size] to [space_cleared] and was followed by a second of
    sleep. *)
Fixpoint after_failed_attempts (k : nat) (item_path : path) (size : Z)
  (s : State) : State :=
  match k with
  | O => s
  | S k' =>
      after_failed_attempts k' item_path size
        (Build_State (mkStats (files_moved (stats s))
                              (space_cleared (stats s) + size)
                              (errors (stats s)))
                     (files s) (busy_tick item_path (busy s)) (now s)
                     (slept s + 1) (journal s) (attributes s))
  end.

(** Where [shutil.move src dst] puts the entry. *)
Definition real_destination (t : tree) (src dst : path) : path :=
  if isdir_in t dst then dst ++ [basename src] else dst.

(** In the tree, nothing but a lock can stop [shutil.move src dst]. *)
Definition move_possible (t : tree) (src dst : path) : bool :=
  reaches_source t src dst
  && match lookup src t with
     | Some (Dir _) =>
         negb (is_prefix src (real_destination t src dst))
         && negb (exists_in t (real_destination t src dst))
     | _ => true
     end.

(** No attribute bit keeps [shutil.move src dst] from replacing what is at
    the destination. *)
Definition replaceable (s : State) (src dst : path) : bool :=
  negb (exists_in (files s) (real_destination (files s) src dst)
        && write_protected (attributes s)
             (real_destination (files s) src dst)).

(** The state a successful [shutil.move src dst] leaves. *)
Definition moved (src dst : path) (s : State) : State :=
  match lookup src (files s) with
  | Some n => renamed n src (real_destination (files s) src dst) s
  | None => s
  end.

(** The state after the attempt that succeeds: the size is added once more,
    the entry is moved and counted. *)
Definition after_successful_attempt (item_path target_path : path) (size : Z)
  (s : State) : State :=
  let s1 := set_stats (mkStats (files_moved (stats s))
                               (space_cleared (stats s) + size)
                               (errors (stats s))) s in
  let s2 := moved item_path target_path s1 in
  set_stats (mkStats (files_moved (stats s2) + 1)
                     (space_cleared (stats s2))
                     (errors (stats s2))) s2.

(** The state after the three attempts on a locked entry have been used up
    and the failure has been counted. *)
Definition after_exhausted_retries (item_path : path) (size : Z) (s : State)
  : State :=
  let s3 := after_failed_attempts 3 item_path size s in
  set_stats (mkStats (files_moved (stats s3))
                     (space_cleared (stats s3))
                     (errors (stats s3) + 1)) s3.

(** Every relocation of the journal extension satisfies [Q]. *)
Definition moves_satisfy (Q : path -> path -> Prop) (e : event) : Prop :=
  match e with
  | Moved src dst => Q src dst
  | Created _ => True
  end.

(** From [s] to [s'] the clock reading stays and the journal grows by
    events whose relocations satisfy [Q]. *)
Definition journal_grows (Q : path -> path -> Prop) (s s' : State) : Prop :=
  now s' = now s /\
  exists evs, journal s' = journal s ++ evs /\ Forall (moves_satisfy Q) evs.

(** A relocation of the old forward sweep: an entry of the folder whose
    name is not reserved goes under its own name straight into the dated
    subtree [T] (or into the directory of that name already there). *)
Definition flat_relocation (folder_path : path) (T : string) (src dst : path)
  : Prop :=
  exists item,
    archive_name item = false /\
    src = folder_path ++ [item] /\
    (dst = folder_path ++ ["Archive"; T; item] \/
     dst = folder_path ++ ["Archive"; T; item; item]).

(** A relocation of the shortcut pass of the new forward sweep. *)
Definition shortcut_relocation (folder_path : path) (T : string)
  (src dst : path) : Prop :=
  exists item,
    PyStr.endswith_any (PyStr.lower item) FileOrganizer.shortcut_suffixes
    = true /\
    src = folder_path ++ [item] /\
    (dst = folder_path ++ ["Archive"; T; "Shortcuts"; item] \/
     dst = folder_path ++ ["Archive"; T; "Shortcuts"; item; item]).

(** *** Sample inputs *)

Module Sample.

Definition desktop : path := ["C:"; "Users"; "gv"; "Desktop"].

Definition fresh (t : tree) (locks : list (path * nat)) : State :=
  mkState (mkStats 0 0 0) t locks "Mar-14-2024_09-30AM" 0 [].

Definition dated : path := desktop ++ ["Archive"; "Mar-14-2024_09-30AM"].

(** Scenario 1: [report.pdf], [photo.jpg] and an empty [Archive]. *)
Definition scenario1 : tree :=
  [ (desktop, Dir 0);
    (desktop ++ ["report.pdf"], File 100);
    (desktop ++ ["photo.jpg"], File 250);
    (desktop ++ ["Archive"], Dir 0) ].

(** Scenario 1 once the sweep has made its dated subtree. *)
Definition scenario1_started : tree := scenario1 ++ [(dated, Dir 0)].

(** Scenario 2: only [desktop.ini] and [thumbs.db]. *)
Definition scenario2 : tree :=
  [ (desktop, Dir 0);
    (desktop ++ ["desktop.ini"], File 282);
    (desktop ++ ["thumbs.db"], File 4096) ].

(** Scenario 4 on the forward sweep: [a.zip] is already in the dated
    subtree of this minute. *)
Definition scenario4 : tree :=
  [ (desktop, Dir 0);
    (desktop ++ ["a.zip"], File 100);
    (desktop ++ ["Archive"], Dir 0);
    (dated, Dir 0);
    (dated ++ ["a.zip"], File 7) ].

(** One file and a folder whose name mentions archives. *)
Definition with_archives : tree :=
  [ (desktop, Dir 0);
    (desktop ++ ["notes.txt"], File 12);
    (desktop ++ ["My Archived Photos"], Dir 0);
    (desktop ++ ["My Archived Photos"; "cat.jpg"], File 30);
    (desktop ++ ["Archive"], Dir 0) ].

Definition config : list (string * list string) :=
  [ ("Audio", [".mp3"; ".wav"]);
    ("Documents", [".pdf"; ".txt"; ".lnk"]);
    ("Images", [".jpg"; ".png"]);
    ("ZIP_Files", [".zip"]);
    ("Others", []) ].


Definition home : path := ["C:"; "Users"; "gv"].

Definition onedrive_archive : path :=
  home ++ ["OneDrive"; "Archive - Pre-2024"; "Desktop"; "Archive"].

(** Scenario 3 under a OneDrive archive whose [Documents] folder is
    there. *)
Definition scenario3 : tree :=
  [ (onedrive_archive, Dir 0);
    (onedrive_archive ++ ["Mar-14-2024_09-30AM"], Dir 0);
    (onedrive_archive ++ ["Mar-14-2024_09-30AM"; "Audio"], Dir 0);
    (onedrive_archive ++ ["Mar-14-2024_09-30AM"; "Documents"], Dir 0);
    (onedrive_archive ++ ["Mar-14-2024_09-30AM"; "Images"], Dir 0);
    (onedrive_archive ++ ["Mar-14-2024_09-30AM"; "ZIP_Files"], Dir 0);
    (onedrive_archive ++ ["Mar-14-2024_09-30AM"; "Others"], Dir 0);
    (onedrive_archive ++ ["Mar-14-2024_09-30AM"; "notes.txt"], File 12) ].




End Sample.

(** *** The repair of a dated folder *)

(** The paths a repair of the dated folder [D] may write: the entries of
    [D] and the entries of its category folders. *)
Definition below_dated (D q : path) : bool :=
  match strip_prefix D q with
  | Some [_] | Some [_; _] => true
  | _ => false
  end.

(** The paths a repair under the archive root [A] may write: all that lies
    at least two levels below [A]. *)
Definition deep_below (A q : path) : bool :=
  match strip_prefix A q with
  | Some (_ :: _ :: _) => true
  | _ => false
  end.

(** A step that, with no file locked, leaves no file locked and writes at
    paths of [P] only. *)
Definition framed (P : path -> bool) (s s' : State) : Prop :=
  busy s = [] ->
  busy s' = [] /\
  forall q, P q = false -> lookup q (files s') = lookup q (files s).

(** The call ends with a value or an exception. *)
Definition finishes {A} (c : M A) : Prop :=
  forall s, fst (c s) <> Unfinished.

(** The state is left as it was found. *)
Definition unchanged (s s' : State) : Prop := s' = s.

(** The category [get_category_for_extension] answers where
    [self.categories] is set, to [categories]. *)
Definition category_of_extension (categories : category_table) (ext : string)
  : string :=
  if PyStr.mem ext shortcut_extensions then "Shortcuts"
  else match scan_categories categories ext with
       | Some category => category
       | None => "Others"
       end.

Section RepairVocabulary.

Variable categories : category_table.

Definition category_of_item (item : string) : string :=
  category_of_extension categories (snd (PyStr.splitext (PyStr.lower item))).

(** The repair would move [item], a loose file of [D] whose place in its
    category folder is free. *)
Definition pending (t : tree) (D : path) (item : string) : bool :=
  isfile_in t (D ++ [item])
  && FileOrganizer.truthy (category_of_item item)
  && negb (exists_in t (D ++ [category_of_item item; item])).

End RepairVocabulary.


(** *** Runs of the forward sweeps *)

(** The relocations among the events of a run. *)
Fixpoint count_moved (evs : list event) : nat :=
  match evs with
  | [] => 0
  | Moved _ _ :: rest => S (count_moved rest)
  | Created _ :: rest => count_moved rest
  end.

(** From [s] to [s'] the journal has grown, and [files_moved] by the number
    of relocations it has grown by. *)
Definition counted (s s' : State) : Prop :=
  exists evs,
    journal s' = journal s ++ evs /\
    files_moved (stats s')
    = (files_moved (stats s) + Z.of_nat (count_moved evs))%Z.

(** One pass through the body of the retry loop of the old sweep, lock
    test left out. *)
Definition attempt (item_path target_path : path) : M unit :=
  size <- get_file_size item_path ;;
  add_space_cleared size ;;
  shutil_move item_path target_path ;;
  incr_files_moved.

(** The tree after the entry at [src], if there is one, has been renamed to
    [dst]. *)
Definition relocated (src dst : path) (t : tree) : tree :=
  match lookup src t with
  | Some n => relocate_entry n src dst t
  | None => t
  end.

(** The tree after the entries [items] of [folder_path] have gone, one
    after the other and under their own names, into [target]. *)
Fixpoint swept (folder_path target : path) (items : list string) (t : tree)
  : tree :=
  match items with
  | [] => t
  | item :: rest =>
      swept folder_path target rest
        (relocated (folder_path ++ [item]) (target ++ [item]) t)
  end.

(** The attribute settings after the same moves. *)
Fixpoint swept_attributes (folder_path target : path) (items : list string)
  (t : tree) (a : list (path * Z)) : list (path * Z) :=
  match items with
  | [] => a
  | item :: rest =>
      swept_attributes folder_path target rest
        (relocated (folder_path ++ [item]) (target ++ [item]) t)
        (match lookup (folder_path ++ [item]) t with
         | Some n =>
             carry_attributes n (folder_path ++ [item]) (target ++ [item]) a
         | None => a
         end)
  end.

(** No path lies below both [p] and [q]. *)
Definition apart (p q : path) : Prop := forall r r', p ++ r <> q ++ r'.

(** The sizes of the entries [items] of [folder_path], added up. *)
Definition sizes (t : tree) (folder_path : path) (items : list string) : Z :=
  fold_right (fun item acc => (size_in t (folder_path ++ [item]) + acc)%Z)
             0%Z items.

(** The state after every entry of [items] has been moved into [target] at
    the first attempt and counted. *)
Definition swept_state (folder_path target : path) (items : list string)
  (s : State) : State :=
  Build_State
    (mkStats (files_moved (stats s) + Z.of_nat (List.length items))
             (space_cleared (stats s) + sizes (files s) folder_path items)
             (errors (stats s)))
    (swept folder_path target items (files s))
    (busy s) (now s) (slept s)
    (journal s
     ++ map (fun item => Moved (folder_path ++ [item]) (target ++ [item]))
            items)
    (swept_attributes folder_path target items (files s) (attributes s)).


(** The state once the directory [d] has been made, if it was missing. *)
Definition ensured (d : path) (s : State) : State :=
  if exists_in (files s) d then s
  else record (Created d) (set_files (files s ++ [(d, Dir 0)]) s).

(** The state in which the old sweep starts to move: [Archive] is there,
    and so is the dated subfolder when there is an entry to move. *)
Definition prepared (folder_path : path) (to_move : list string) (s : State)
  : State :=
  let s1 := ensured (folder_path ++ ["Archive"]) s in
  match to_move with
  | [] => s1
  | _ :: _ => ensured (folder_path ++ ["Archive"; now s]) s1
  end.



(** The folders [organize] sweeps: those of the two that are set and not
    empty. *)
Definition configured (p : option path) : list path :=
  if truthy_path p then [path_of p] else [].

(** The name [update_archive_timestamp] renames an archive to. *)
Definition stamped (archive_path : path) (s : State) : path :=
  dirname archive_path ++ [("Archive_" ++ now s)%string].

(** The places where the old [get_special_folder_path] looks, in the order
    of its preference. *)
Definition special_folder_candidates (os_type : string) (home : path)
  (shell_folders_downloads : option path) (folder_name : string) : list path :=
  if String.eqb os_type "Windows" then
    [ home ++ ["OneDrive"; folder_name]; home ++ [folder_name] ]
    ++ (if String.eqb folder_name "Downloads" then
          match shell_folders_downloads with
          | Some reg_path => [reg_path]
          | None => []
          end
        else [])
  else [ home ++ [folder_name] ].

(** The OneDrive accounts whose folder the registry gives, Business
    first. *)
Definition onedrive_accounts (business personal : option path) : list path :=
  match business with Some p => [p] | None => [] end
  ++ match personal with Some p => [p] | None => [] end.

(** The relation no relocation satisfies. *)
Definition nothing_moves (src dst : path) : Prop := False.

(** The answer of the current [get_special_folder_path] on Windows to one
    of the six names it knows: the registry value, else the shell's answer,
    if they exist; else the folder of that name under the profile, be it
    there or not. *)
Definition windows_special_folder (t : tree)
  (user_shell_folders : string -> option path)
  (SHGetFolderPathW : Z -> option path) (USERPROFILE : path)
  (folder_name : string) : path :=
  let existing := fun value : option path =>
    match value with
    | Some p => if exists_in t p then Some p else None
    | None => None
    end in
  match existing (user_shell_folders folder_name) with
  | Some p => p
  | None =>
      match existing
              (match FileOrganizer.assoc folder_name FileOrganizer.CSIDL_VALUES with
               | Some csidl => SHGetFolderPathW csidl
               | None => None
               end) with
      | Some p => p
      | None => USERPROFILE ++ [folder_name]
      end
  end.

(* ================================================================== *)
(** * Properties *)

(** ** Paths and trees *)

Lemma path_eqb_eq p q : path_eqb p q = true <-> p = q.
Proof.
  revert q. induction p as [|a p IH]; destruct q as [|b q]; simpl;
    try (split; [discriminate | congruence]); [tauto|].
  rewrite andb_true_iff, String.eqb_eq, IH. split.
  - intros [-> ->]. reflexivity.
  - intros [= -> ->]. auto.
Qed.

Lemma path_eqb_refl p : path_eqb p p = true.
Proof. now apply path_eqb_eq. Qed.

Lemma path_eqb_neq p q : path_eqb p q = false <-> p <> q.
Proof.
  rewrite <- path_eqb_eq. destruct (path_eqb p q); split; congruence.
Qed.

Lemma path_eqb_sym p q : path_eqb p q = path_eqb q p.
Proof.
  destruct (path_eqb p q) eqn:E; symmetry.
  - apply path_eqb_eq in E. subst. apply path_eqb_refl.
  - apply path_eqb_neq. apply path_eqb_neq in E. congruence.
Qed.

Lemma strip_prefix_app p r : strip_prefix p (p ++ r) = Some r.
Proof.
  induction p as [|a p IH]; simpl; [reflexivity|].
  now rewrite String.eqb_refl.
Qed.

Lemma strip_prefix_Some p q r : strip_prefix p q = Some r -> q = p ++ r.
Proof.
  revert q. induction p as [|a p IH]; intros [|b q]; simpl;
    try congruence.
  destruct (String.eqb a b) eqn:E; [|discriminate].
  apply String.eqb_eq in E. subst. intros H. f_equal. now apply IH.
Qed.

Lemma is_prefix_app p r : is_prefix p (p ++ r) = true.
Proof. unfold is_prefix. now rewrite strip_prefix_app. Qed.

Lemma is_prefix_true p q : is_prefix p q = true -> exists r, q = p ++ r.
Proof.
  unfold is_prefix. destruct (strip_prefix p q) eqn:E; [|discriminate].
  intros _. exists p0. now apply strip_prefix_Some.
Qed.

Lemma lookup_app p t1 t2 :
  lookup p (t1 ++ t2) =
  match lookup p t1 with Some n => Some n | None => lookup p t2 end.
Proof.
  induction t1 as [|[q n] t1 IH]; simpl; [reflexivity|].
  destruct (path_eqb p q); [reflexivity | exact IH].
Qed.

Lemma lookup_set_node q p n t :
  lookup q (set_node p n t) = if path_eqb q p then Some n else lookup q t.
Proof.
  induction t as [|[k m] t IH]; simpl.
  - reflexivity.
  - destruct (path_eqb p k) eqn:E; simpl.
    + apply path_eqb_eq in E. subst k.
      destruct (path_eqb q p); reflexivity.
    + destruct (path_eqb q k) eqn:E2.
      * apply path_eqb_eq in E2. subst k.
        rewrite path_eqb_sym, E. reflexivity.
      * exact IH.
Qed.

Lemma basename_app p x : basename (p ++ [x]) = x.
Proof. unfold basename. apply last_last. Qed.

Lemma dirname_app p x : dirname (p ++ [x]) = p.
Proof. unfold dirname. apply removelast_last. Qed.

(** ** The monad *)

Section Preserved.

Variable R : State -> State -> Prop.

(** [R] is a preorder: every lemma of the section takes it so, used or
    not, which keeps their use uniform. *)
Variable R_pre : (forall s, R s s) /\ (forall a b c, R a b -> R b c -> R a c).

Lemma preserves_ret A (a : A) : preserves R (ret a).
Proof. intros s. apply R_pre. Qed.

Lemma preserves_raise A e : preserves R (@raise A e).
Proof. intros s. apply R_pre. Qed.

Lemma preserves_bind A B (c : M A) (k : A -> M B) :
  preserves R c -> (forall a, preserves R (k a)) -> preserves R (bind c k).
Proof.
  destruct R_pre as [_ R_trans].
  intros Hc Hk s. unfold bind. specialize (Hc s).
  destruct (c s) as [[a|e|] s1]; simpl in *; auto.
  eapply R_trans; [exact Hc | apply Hk].
Qed.

Lemma preserves_try_except A (c : M A) h :
  preserves R c -> (forall e, preserves R (h e)) ->
  preserves R (try_except c h).
Proof.
  destruct R_pre as [_ R_trans].
  intros Hc Hh s. unfold try_except. specialize (Hc s).
  destruct (c s) as [[a|e|] s1]; simpl in *; auto.
  eapply R_trans; [exact Hc | apply Hh].
Qed.

Lemma preserves_try_except_PermissionError A (c h : M A) :
  preserves R c -> preserves R h ->
  preserves R (try_except_PermissionError c h).
Proof.
  destruct R_pre as [_ R_trans].
  intros Hc Hh s. unfold try_except_PermissionError. specialize (Hc s).
  destruct (c s) as [[a|e|] s1]; simpl in *; auto.
  destruct e; simpl; auto.
  eapply R_trans; [exact Hc | apply Hh].
Qed.

Lemma preserves_when b c : preserves R c -> preserves R (when b c).
Proof. destruct b; simpl; auto using preserves_ret. Qed.

Lemma preserves_for_each A (l : list A) body :
  (forall x, In x l -> preserves R (body x)) ->
  preserves R (for_each l body).
Proof.
  induction l as [|x l IH]; simpl; intros H.
  - apply preserves_ret.
  - apply preserves_bind; [apply H; now left|].
    intros _. apply IH. intros y Hy. apply H. now right.
Qed.

End Preserved.

(** ** Statistics are touched by the forward sweep only *)

Lemma same_stats_pre :
  (forall s, same_stats s s) /\
  (forall a b c, same_stats a b -> same_stats b c -> same_stats a c).
Proof. unfold same_stats. split; congruence. Qed.

Ltac break_match :=
  match goal with
  | |- context [match ?x with _ => _ end] => destruct x eqn:?
  end.

Ltac reads_only :=
  let s := fresh "s" in
  intros s; cbv beta delta [same_stats]; simpl;
  repeat (break_match; simpl); reflexivity.

Lemma os_path_exists_same_stats p : preserves same_stats (os_path_exists p).
Proof. reads_only. Qed.

Lemma os_path_isdir_same_stats p : preserves same_stats (os_path_isdir p).
Proof. reads_only. Qed.

Lemma os_path_isfile_same_stats p : preserves same_stats (os_path_isfile p).
Proof. reads_only. Qed.

Lemma os_listdir_same_stats p : preserves same_stats (os_listdir p).
Proof. unfold os_listdir. reads_only. Qed.

Lemma os_mkdir_same_stats p : preserves same_stats (os_mkdir p).
Proof. unfold os_mkdir. reads_only. Qed.

Lemma shutil_move_same_stats src dst : preserves same_stats (shutil_move src dst).
Proof. unfold shutil_move. reads_only. Qed.

Lemma open_write_same_stats p z : preserves same_stats (open_write p z).
Proof. unfold open_write. reads_only. Qed.

Lemma SetFileAttributesW_same_stats p bits :
  preserves same_stats (SetFileAttributesW p bits).
Proof. unfold SetFileAttributesW. reads_only. Qed.

Lemma getattr_categories_same_stats self_categories :
  preserves same_stats (FileOrganizer.getattr_categories self_categories).
Proof. destruct self_categories; reads_only. Qed.

Lemma makedirs_rev_same_stats rname exist_ok :
  preserves same_stats (makedirs_rev rname exist_ok).
Proof.
  induction rname as [|tail rhead IH]; simpl.
  - apply preserves_raise, same_stats_pre.
  - apply preserves_bind; [exact same_stats_pre| |].
    + destruct rhead as [|x r]; [apply preserves_ret, same_stats_pre|].
      apply preserves_bind;
        [exact same_stats_pre | apply os_path_exists_same_stats |].
      intros [|]; [apply preserves_ret, same_stats_pre|].
      intros s. specialize (IH s).
      destruct (makedirs_rev (x :: r) exist_ok s) as [[a|e|] s1]; simpl in *;
        try exact IH.
      destruct e; exact IH.
    + intros _ s. pose proof (os_mkdir_same_stats (rev rhead ++ [tail]) s) as H.
      destruct (os_mkdir (rev rhead ++ [tail]) s) as [[a|e|] s1]; simpl in *;
        try exact H.
      break_match; exact H.
Qed.

Lemma os_makedirs_same_stats name exist_ok :
  preserves same_stats (os_makedirs name exist_ok).
Proof. apply makedirs_rev_same_stats. Qed.

(** One step through the control structure of a computation, for a relation
    with preorder proof [pre]. *)
Ltac through pre :=
  first
    [ apply preserves_ret; exact pre
    | apply preserves_raise; exact pre
    | apply preserves_for_each; [exact pre | intros ? ? ]
    | apply preserves_bind; [exact pre | | intros ? ]
    | apply preserves_try_except_PermissionError; [exact pre | | ]
    | apply preserves_try_except; [exact pre | | intros ? ]
    | apply preserves_when; [exact pre | ] ].

(** A computation that branches keeps what each branch keeps. *)
Ltac branch :=
  match goal with
  | |- preserves _ (match ?x with _ => _ end) => destruct x
  end.

Ltac same_stats_step :=
  first
    [ through same_stats_pre
    | apply os_path_exists_same_stats
    | apply os_path_isdir_same_stats
    | apply os_path_isfile_same_stats
    | apply os_listdir_same_stats
    | apply os_makedirs_same_stats
    | apply shutil_move_same_stats
    | apply open_write_same_stats
    | apply SetFileAttributesW_same_stats
    | apply getattr_categories_same_stats
    | branch ].

Lemma move_to_category_same_stats categories file_path dated_folder :
  preserves same_stats
    (FileOrganizer.move_to_category categories file_path dated_folder).
Proof. unfold FileOrganizer.move_to_category. repeat same_stats_step. Qed.

Lemma get_category_for_extension_same_stats categories ext :
  preserves same_stats (FileOrganizer.get_category_for_extension categories ext).
Proof.
  unfold FileOrganizer.get_category_for_extension. repeat same_stats_step.
Qed.

Lemma refile_same_stats categories dated_path item :
  preserves same_stats (FileOrganizer.refile categories dated_path item).
Proof.
  unfold FileOrganizer.refile.
  repeat first [ apply get_category_for_extension_same_stats
               | same_stats_step ].
Qed.

Lemma ensure_category_same_stats dated_path category :
  preserves same_stats (FileOrganizer.ensure_category dated_path category).
Proof. unfold FileOrganizer.ensure_category. repeat same_stats_step. Qed.

Lemma fix_onedrive_archives_same_stats categories home :
  preserves same_stats (FileOrganizer.fix_onedrive_archives categories home).
Proof.
  unfold FileOrganizer.fix_onedrive_archives, FileOrganizer.fix_archive,
    FileOrganizer.fix_dated_folder, FileOrganizer.fix_category.
  repeat first [ apply refile_same_stats | apply ensure_category_same_stats
               | same_stats_step ].
Qed.

Lemma os_walk_same_stats fuel visit :
  (forall root dirs fs, preserves same_stats (visit root dirs fs)) ->
  forall top, preserves same_stats (FileOrganizer.os_walk fuel top visit).
Proof.
  intros Hv. induction fuel as [|fuel IH]; intros top s; simpl.
  - reflexivity.
  - destruct (lookup top (files s)) as [[z|z]|]; try reflexivity.
    match goal with |- same_stats s (snd (?c s)) => assert (preserves same_stats c) as H end.
    { same_stats_step; [apply Hv|]. same_stats_step. apply IH. }
    apply H.
Qed.

Lemma fix_all_archives_same_stats categories home desktop_path downloads_path fuel :
  preserves same_stats
    (FileOrganizer.fix_all_archives categories home desktop_path
       downloads_path fuel).
Proof.
  unfold FileOrganizer.fix_all_archives.
  repeat same_stats_step.
  apply os_walk_same_stats. intros root dirs fs.
  unfold FileOrganizer.fix_walked.
  repeat first [ apply refile_same_stats | apply ensure_category_same_stats
               | same_stats_step ].
Qed.

(** C10: the repair sweep leaves the run statistics as they are.  Neither
    [move_to_category] nor [fix_onedrive_archives] (nor [fix_all_archives])
    changes [files_moved], [space_cleared] or [errors], whether its moves
    succeed, are skipped or fail. *)
Theorem repair_sweep_leaves_statistics categories home desktop_path
  downloads_path :
  (forall file_path dated_folder s,
      stats (snd (FileOrganizer.move_to_category categories file_path
                    dated_folder s)) = stats s) /\
  (forall s,
      stats (snd (FileOrganizer.fix_onedrive_archives categories home s))
      = stats s) /\
  (forall fuel s,
      stats (snd (FileOrganizer.fix_all_archives categories home desktop_path
                    downloads_path fuel s)) = stats s).
Proof.
  split; [|split].
  - intros file_path dated_folder s.
    apply (move_to_category_same_stats categories file_path dated_folder s).
  - intros s. apply (fix_onedrive_archives_same_stats categories home s).
  - intros fuel s.
    apply (fix_all_archives_same_stats categories home desktop_path
             downloads_path fuel s).
Qed.

(** ** Strings *)

Lemma mem_In x l : PyStr.mem x l = true <-> In x l.
Proof.
  unfold PyStr.mem. rewrite existsb_exists. split.
  - intros [y [Hy He]]. apply String.eqb_eq in He. now subst.
  - intros H. exists x. split; [exact H | apply String.eqb_refl].
Qed.

Lemma mem_not_In x l : PyStr.mem x l = false <-> ~ In x l.
Proof.
  rewrite <- mem_In. destruct (PyStr.mem x l); split; congruence.
Qed.

Example splitext_pdf : PyStr.splitext "report.pdf" = ("report", ".pdf").
Proof. reflexivity. Qed.

Example splitext_hidden : PyStr.splitext ".lnk" = (".lnk", "").
Proof. reflexivity. Qed.

Example splitext_double : PyStr.splitext "a.tar.gz" = ("a.tar", ".gz").
Proof. reflexivity. Qed.

Example splitext_none : PyStr.splitext "Makefile" = ("Makefile", "").
Proof. reflexivity. Qed.

Example lower_mixed : PyStr.lower "My ARCHIVE.Zip" = "my archive.zip".
Proof. reflexivity. Qed.

Example endswith_lnk :
  PyStr.endswith "x.lnk" ".lnk" = true /\ PyStr.endswith "lnk" ".lnk" = false.
Proof. split; reflexivity. Qed.

Example contains_archive :
  PyStr.contains "archive" (PyStr.lower "My Archived Photos") = true /\
  PyStr.contains "archive" (PyStr.lower "notes.txt") = false.
Proof. split; reflexivity. Qed.

(** ** The classifier *)

Lemma scan_from_scan d cats ext :
  scan_from d cats ext =
  match scan_categories cats ext with Some c => c | None => d end.
Proof.
  induction cats as [|[c exts] rest IH]; simpl; [reflexivity|].
  destruct (PyStr.mem ext exts); [reflexivity | exact IH].
Qed.

Lemma scan_categories_first pre category extensions post ext :
  (forall c e, In (c, e) pre -> ~ In ext e) ->
  In ext extensions ->
  scan_categories (pre ++ (category, extensions) :: post) ext = Some category.
Proof.
  induction pre as [|[c e] pre IH]; simpl; intros Hpre Hin.
  - apply mem_In in Hin. now rewrite Hin.
  - destruct (PyStr.mem ext e) eqn:He.
    + apply mem_In in He. exfalso. apply (Hpre c e); auto.
    + apply IH; [|exact Hin]. intros c' e' H'. apply (Hpre c' e'). now right.
Qed.

Lemma scan_categories_none cats ext :
  (forall c e, In (c, e) cats -> ~ In ext e) ->
  scan_categories cats ext = None.
Proof.
  induction cats as [|[c e] rest IH]; simpl; intros H; [reflexivity|].
  destruct (PyStr.mem ext e) eqn:He.
  - apply mem_In in He. exfalso. apply (H c e); auto.
  - apply IH. intros c' e' H'. apply (H c' e'). now right.
Qed.

Lemma scan_categories_declared cats ext category :
  scan_categories cats ext = Some category -> In category (map fst cats).
Proof.
  induction cats as [|[c e] rest IH]; simpl; [discriminate|].
  destruct (PyStr.mem ext e).
  - intros [= <-]. now left.
  - intros H. right. now apply IH.
Qed.

(** With the table in place the method is a function of the extension. *)
Lemma get_category_for_extension_bound categories ext s :
  FileOrganizer.get_category_for_extension (Some categories) ext s
  = (Ok (category_of_extension categories ext), s).
Proof.
  unfold FileOrganizer.get_category_for_extension, category_of_extension.
  destruct (PyStr.mem ext shortcut_extensions); [reflexivity|].
  unfold bind, FileOrganizer.getattr_categories, ret.
  now destruct (scan_categories categories ext).
Qed.

(** Without it only the shortcut test is passed. *)
Lemma get_category_for_extension_unbound ext s :
  FileOrganizer.get_category_for_extension None ext s
  = (if PyStr.mem ext shortcut_extensions then Ok "Shortcuts"
     else Raise AttributeError, s).
Proof.
  unfold FileOrganizer.get_category_for_extension.
  now destruct (PyStr.mem ext shortcut_extensions).
Qed.

(** [move_to_category] with the table in place: the file goes into the
    folder of the category that [get_category_for_extension] answers. *)
Lemma move_to_category_bound categories file_path dated_folder s :
  let file_name := basename file_path in
  let target_path :=
    dated_folder ++ [category_of_item categories file_name; file_name] in
  FileOrganizer.move_to_category (Some categories) file_path dated_folder s
  = try_except
      (target_exists <- os_path_exists target_path ;;
       when (negb target_exists) (shutil_move file_path target_path))
      (fun _ => ret tt) s.
Proof.
  cbv zeta.
  unfold FileOrganizer.move_to_category, category_of_item,
    category_of_extension, try_except.
  rewrite <- scan_from_scan.
  destruct (PyStr.mem _ shortcut_extensions);
    unfold bind at 1; cbn [FileOrganizer.getattr_categories ret bind];
    rewrite <- app_assoc; reflexivity.
Qed.

(** Without it a file that is no shortcut stays where it is: the error is
    caught and logged. *)
Lemma move_to_category_unbound file_path dated_folder s :
  PyStr.mem (snd (PyStr.splitext (PyStr.lower (basename file_path))))
    shortcut_extensions = false ->
  FileOrganizer.move_to_category None file_path dated_folder s = (Ok tt, s).
Proof.
  intros H. unfold FileOrganizer.move_to_category, try_except.
  now rewrite H.
Qed.

(** C5 on the code.  [get_category_for_extension] reads [self.categories],
    which [__init__] never sets: on the object as it is constructed a
    shortcut extension ([.lnk], [.url], [.desktop]) gives [Shortcuts], and
    every other extension, [.jpg] and the empty one included, raises
    [AttributeError]; [move_to_category] then leaves the file where it is.
    Once the attribute holds the table, the rules are those of the claim:
    a shortcut extension gives [Shortcuts] whatever the table holds, any
    other extension the first declared category whose extension list has
    it, and [Others] when none has; the answer is always [Shortcuts], a
    declared category or [Others], and [move_to_category] files under the
    same category. *)
Theorem classification_rules ext s :
  FileOrganizer.get_category_for_extension FileOrganizer.categories_after_init
    ext s
  = (if PyStr.mem ext shortcut_extensions then Ok "Shortcuts"
     else Raise AttributeError, s) /\
  FileOrganizer.get_category_for_extension FileOrganizer.categories_after_init
    ".jpg" s = (Raise AttributeError, s) /\
  FileOrganizer.get_category_for_extension FileOrganizer.categories_after_init
    "" s = (Raise AttributeError, s) /\
  (forall file_path dated_folder,
      snd (PyStr.splitext (PyStr.lower (basename file_path))) = ext ->
      ~ In ext shortcut_extensions ->
      FileOrganizer.move_to_category FileOrganizer.categories_after_init
        file_path dated_folder s = (Ok tt, s)) /\
  forall categories,
    (In ext shortcut_extensions ->
     FileOrganizer.get_category_for_extension (Some categories) ext s
     = (Ok "Shortcuts", s)) /\
    (~ In ext shortcut_extensions ->
     forall pre category extensions post,
       categories = pre ++ (category, extensions) :: post ->
       (forall c e, In (c, e) pre -> ~ In ext e) ->
       In ext extensions ->
       FileOrganizer.get_category_for_extension (Some categories) ext s
       = (Ok category, s)) /\
    (~ In ext shortcut_extensions ->
     (forall c e, In (c, e) categories -> ~ In ext e) ->
     FileOrganizer.get_category_for_extension (Some categories) ext s
     = (Ok "Others", s)) /\
    (exists category,
        FileOrganizer.get_category_for_extension (Some categories) ext s
        = (Ok category, s) /\
        (category = "Shortcuts" \/ In category (map fst categories) \/
         category = "Others")) /\
    (forall file_path dated_folder,
        snd (PyStr.splitext (PyStr.lower (basename file_path))) = ext ->
        forall category,
          FileOrganizer.get_category_for_extension (Some categories) ext s
          = (Ok category, s) ->
          FileOrganizer.move_to_category (Some categories) file_path
            dated_folder s
          = try_except
              (target_exists <-
                 os_path_exists
                   (dated_folder ++ [category; basename file_path]) ;;
               when (negb target_exists)
                 (shutil_move file_path
                    (dated_folder ++ [category; basename file_path])))
              (fun _ => ret tt) s).
Proof.
  split; [apply get_category_for_extension_unbound|].
  split; [reflexivity|]. split; [reflexivity|]. split.
  { intros file_path dated_folder <- H. apply move_to_category_unbound.
    now apply mem_not_In. }
  intros categories.
  rewrite get_category_for_extension_bound. unfold category_of_extension.
  split; [|split; [|split; [|split]]].
  - intros H. apply mem_In in H. now rewrite H.
  - intros H pre category extensions post -> Hpre Hin.
    apply mem_not_In in H. rewrite H.
    now rewrite (scan_categories_first pre category extensions post ext Hpre Hin).
  - intros H Hnone. apply mem_not_In in H. rewrite H.
    now rewrite (scan_categories_none categories ext Hnone).
  - eexists. split; [reflexivity|].
    destruct (PyStr.mem ext shortcut_extensions); [now left|].
    destruct (scan_categories categories ext) as [c|] eqn:E; [|now right; right].
    right; left. now apply (scan_categories_declared categories ext).
  - intros file_path dated_folder <- category [= <-].
    apply move_to_category_bound.
Qed.

(** The object as constructed on [.jpg], and the rules at work on a table
    that lists [.lnk] under [Documents] as well. *)
Lemma classification_rules_witness :
  FileOrganizer.get_category_for_extension FileOrganizer.categories_after_init
    ".jpg" (Sample.fresh [] [])
  = (Raise AttributeError, Sample.fresh [] []) /\
  FileOrganizer.get_category_for_extension (Some Sample.config) ".lnk"
    (Sample.fresh [] [])
  = (Ok "Shortcuts", Sample.fresh [] []) /\
  FileOrganizer.get_category_for_extension (Some Sample.config) ".jpg"
    (Sample.fresh [] [])
  = (Ok "Images", Sample.fresh [] []) /\
  FileOrganizer.get_category_for_extension (Some Sample.config) ""
    (Sample.fresh [] [])
  = (Ok "Others", Sample.fresh [] []) /\
  FileOrganizer.move_to_category FileOrganizer.categories_after_init
    (Sample.dated ++ ["photo.jpg"]) Sample.dated
    (Sample.fresh Sample.scenario1_started [])
  = (Ok tt, Sample.fresh Sample.scenario1_started []).
Proof.
  destruct (classification_rules ".lnk" (Sample.fresh [] []))
    as [_ [_ [_ [_ Hlnk]]]].
  destruct (classification_rules ".jpg" (Sample.fresh [] []))
    as [_ [Hraise [_ [_ Hjpg]]]].
  destruct (classification_rules "" (Sample.fresh [] []))
    as [_ [_ [_ [_ Hnone]]]].
  destruct (classification_rules ".jpg"
              (Sample.fresh Sample.scenario1_started []))
    as [_ [_ [_ [Hmove _]]]].
  destruct (Hlnk Sample.config) as [H1 _].
  destruct (Hjpg Sample.config) as [_ [H2 _]].
  destruct (Hnone Sample.config) as [_ [_ [H3 _]]].
  split; [exact Hraise|].
  split; [|split; [|split]].
  - apply H1. simpl. auto.
  - apply H2
      with (pre := [("Audio", [".mp3"; ".wav"]);
                    ("Documents", [".pdf"; ".txt"; ".lnk"])])
           (extensions := [".jpg"; ".png"])
           (post := [("ZIP_Files", [".zip"]); ("Others", [])]).
    + simpl. intros [H|[H|[H|[]]]]; discriminate.
    + reflexivity.
    + simpl. intros c e [[= <- <-]|[[= <- <-]|[]]] Hin; simpl in Hin;
        repeat (destruct Hin as [Hin|Hin]; [discriminate|]); exact Hin.
    + simpl. auto.
  - apply H3.
    + simpl. intros [H|[H|[H|[]]]]; discriminate.
    + unfold Sample.config. simpl.
      intros c e H.
      repeat (destruct H as [[= <- <-]|H];
              [simpl; intros H';
               repeat (destruct H' as [H'|H']; [discriminate|]); exact H'|]).
      destruct H.
  - apply Hmove.
    + reflexivity.
    + simpl. intros [H|[H|[H|[]]]]; discriminate.
Defined.

(** ** The system-entry filter *)

Lemma is_system_file_pure file_path s :
  is_system_file file_path s = (Ok (system_entry (files s) file_path), s).
Proof.
  unfold is_system_file, is_system_file_with, system_entry, try_except, bind,
    os_path_isdir, ret.
  destruct (PyStr.mem (PyStr.lower (basename file_path)) system_files);
    simpl; [reflexivity|].
  destruct (isdir_in (files s) file_path); simpl; [|reflexivity].
  destruct (PyStr.contains "$recycle.bin" (PyStr.lower (basename file_path))
            || PyStr.contains "recycle bin" (PyStr.lower (basename file_path)));
    reflexivity.
Qed.

Lemma is_system_file_with_never_raises isdir file_path s e s' :
  is_system_file_with isdir file_path s <> (Raise e, s').
Proof.
  unfold is_system_file_with, try_except, bind, ret.
  destruct (PyStr.mem (PyStr.lower (basename file_path)) system_files);
    [discriminate|].
  destruct (isdir file_path s) as [[d|e0|] s1]; try discriminate.
  destruct (d && _); discriminate.
Qed.

Lemma is_system_file_with_handler isdir file_path s e s' :
  isdir file_path s = (Raise e, s') ->
  PyStr.mem (PyStr.lower (basename file_path)) system_files = false ->
  is_system_file_with isdir file_path s = (Ok false, s').
Proof.
  intros H Hn. unfold is_system_file_with, try_except, bind, ret.
  rewrite Hn, H. reflexivity.
Qed.

Lemma keeps_pure folder_path item s :
  Legacy.keeps folder_path item s
  = (Ok (eligible (files s) folder_path item), s).
Proof.
  unfold Legacy.keeps, Legacy.keeps_with, eligible.
  destruct (String.eqb item "Archive"); simpl; [reflexivity|].
  unfold bind. fold is_system_file. rewrite is_system_file_pure.
  reflexivity.
Qed.

(** C9, as the code has it: the system-file check never raises, whatever
    the directory test under it does; with [os.path.isdir] it is a plain
    function of the tree.  When the test under it fails, the check answers
    [False], "not a system file": the filter then keeps the entry unless its
    name mentions an archive, so the entry is swept rather than excluded. *)
Theorem system_file_check_fails_open isdir file_path s :
  (forall e s', is_system_file_with isdir file_path s <> (Raise e, s')) /\
  is_system_file file_path s = (Ok (system_entry (files s) file_path), s) /\
  (forall e s',
      isdir file_path s = (Raise e, s') ->
      PyStr.mem (PyStr.lower (basename file_path)) system_files = false ->
      is_system_file_with isdir file_path s = (Ok false, s')) /\
  (forall folder_path item e s',
      file_path = folder_path ++ [item] ->
      isdir file_path s = (Raise e, s') ->
      PyStr.mem (PyStr.lower item) system_files = false ->
      item <> "Archive" ->
      Legacy.keeps_with isdir folder_path item s
      = (Ok (negb (PyStr.contains "archive" (PyStr.lower item))), s')).
Proof.
  split; [|split; [|split]].
  - intros e s'. apply is_system_file_with_never_raises.
  - apply is_system_file_pure.
  - intros e s'. apply is_system_file_with_handler.
  - intros folder_path item e s' -> H Hn Hne.
    unfold Legacy.keeps_with.
    apply String.eqb_neq in Hne. rewrite Hne. simpl.
    unfold bind.
    rewrite (is_system_file_with_handler isdir _ s e s' H)
      by (now rewrite basename_app).
    reflexivity.
Qed.

Lemma system_file_check_fails_open_witness :
  Legacy.keeps_with (fun _ => raise PermissionError) Sample.desktop
    "Recycle Bin (old)" (Sample.fresh Sample.with_archives [])
  = (Ok true, Sample.fresh Sample.with_archives []).
Proof.
  apply (proj2 (proj2 (proj2
           (system_file_check_fails_open (fun _ => raise PermissionError)
              (Sample.desktop ++ ["Recycle Bin (old)"])
              (Sample.fresh Sample.with_archives []))))
         Sample.desktop "Recycle Bin (old)" PermissionError
         (Sample.fresh Sample.with_archives [])).
  - reflexivity.
  - reflexivity.
  - reflexivity.
  - discriminate.
Defined.

(** C9 as stated fails: a check that meets [PermissionError] on
    [notes.txt] reports it as no system file, and the filter keeps it for
    the sweep. *)
Lemma stat_error_entry_is_swept :
  (fun _ : path => @raise bool PermissionError)
    (Sample.desktop ++ ["notes.txt"]) (Sample.fresh Sample.with_archives [])
  = (Raise PermissionError, Sample.fresh Sample.with_archives []) /\
  is_system_file_with (fun _ => raise PermissionError)
    (Sample.desktop ++ ["notes.txt"]) (Sample.fresh Sample.with_archives [])
  = (Ok false, Sample.fresh Sample.with_archives []) /\
  Legacy.keeps_with (fun _ => raise PermissionError) Sample.desktop
    "notes.txt" (Sample.fresh Sample.with_archives [])
  = (Ok true, Sample.fresh Sample.with_archives []).
Proof. repeat split. Qed.

(** ** The mover of the forward sweep *)

Lemma busy_count_tick p b :
  busy_count p (busy_tick p b) = Nat.pred (busy_count p b).
Proof.
  induction b as [|[q k] b IH]; simpl; [reflexivity|].
  destruct (path_eqb p q) eqn:E; simpl; rewrite E; [reflexivity | exact IH].
Qed.

Lemma get_file_size_pure p s :
  get_file_size p s = (Ok (size_in (files s) p), s).
Proof.
  unfold get_file_size, try_except, os_path_getsize, size_in, ret.
  destruct (lookup p (files s)) as [[z|z]|]; reflexivity.
Qed.

Lemma shutil_move_locked src dst s :
  reaches_source (files s) src dst = true ->
  (0 < busy_count src (busy s))%nat ->
  shutil_move src dst s = (Raise PermissionError, tick src s).
Proof.
  unfold reaches_source, shutil_move. intros H Hb.
  apply andb_true_iff in H as [H Hp]. apply andb_true_iff in H as [Hc He].
  apply negb_true_iff in Hc. rewrite Hc.
  unfold exists_in in He.
  destruct (lookup src (files s)) as [n|]; [|discriminate].
  rewrite Hp. simpl.
  apply Nat.ltb_lt in Hb. rewrite Hb. reflexivity.
Qed.

Lemma shutil_move_free src dst s :
  move_possible (files s) src dst = true ->
  replaceable s src dst = true ->
  busy_count src (busy s) = 0%nat ->
  shutil_move src dst s = (Ok tt, moved src dst s).
Proof.
  unfold move_possible, reaches_source, replaceable, shutil_move, moved,
    real_destination.
  intros H Hr Hb. rewrite Hb.
  destruct (isdir_in (files s) dst); cbv iota in *;
    unfold exists_in at 2 in H;
    destruct (lookup src (files s)) as [[z|z]|]; simpl in H;
    repeat match goal with
           | X : _ && _ = true |- _ => apply andb_true_iff in X; destruct X
           | X : negb _ = true |- _ => apply negb_true_iff in X
           end;
    repeat match goal with
           | X : _ = _ |- _ => rewrite X
           end;
    simpl; try reflexivity; try discriminate.
Qed.

Lemma after_failed_attempts_files k p z s :
  files (after_failed_attempts k p z s) = files s.
Proof. revert s. induction k as [|k IH]; intros s; simpl; [reflexivity|]. now rewrite IH. Qed.

Lemma after_failed_attempts_attributes k p z s :
  attributes (after_failed_attempts k p z s) = attributes s.
Proof. revert s. induction k as [|k IH]; intros s; simpl; [reflexivity|]. now rewrite IH. Qed.

Lemma after_failed_attempts_journal k p z s :
  journal (after_failed_attempts k p z s) = journal s.
Proof. revert s. induction k as [|k IH]; intros s; simpl; [reflexivity|]. now rewrite IH. Qed.

Lemma after_failed_attempts_slept k p z s :
  slept (after_failed_attempts k p z s) = (slept s + k)%nat.
Proof.
  revert s. induction k as [|k IH]; intros s; simpl; [lia|].
  rewrite IH. simpl. lia.
Qed.

Lemma after_failed_attempts_busy k p z s :
  busy_count p (busy (after_failed_attempts k p z s))
  = (busy_count p (busy s) - k)%nat.
Proof.
  revert s. induction k as [|k IH]; intros s; simpl; [lia|].
  rewrite IH. simpl. rewrite busy_count_tick. lia.
Qed.

Lemma after_failed_attempts_stats k p z s :
  stats (after_failed_attempts k p z s)
  = mkStats (files_moved (stats s))
            (space_cleared (stats s) + Z.of_nat k * z)
            (errors (stats s)).
Proof.
  revert s. induction k as [|k IH]; intros s.
  - simpl. destruct (stats s). simpl. f_equal. lia.
  - cbn [after_failed_attempts]. rewrite IH.
    cbn [stats files_moved space_cleared errors]. f_equal. lia.
Qed.

(** One attempt on a locked entry: the size is added, the move raises, a
    second is slept. *)
Lemma retry_loop_locked n item_path target_path s :
  reaches_source (files s) item_path target_path = true ->
  (1 <= n <= busy_count item_path (busy s))%nat ->
  Legacy.retry_loop n item_path target_path s
  = (Raise PermissionError,
     after_failed_attempts n item_path (size_in (files s) item_path) s).
Proof.
  revert s. induction n as [|n IH]; intros s Hr Hn; [lia|].
  cbn [Legacy.retry_loop].
  unfold try_except_PermissionError, bind at 1.
  rewrite get_file_size_pure.
  unfold bind at 1, add_space_cleared.
  unfold bind at 1.
  rewrite shutil_move_locked by (simpl; first [exact Hr | lia]).
  unfold bind, time_sleep. simpl.
  destruct n as [|n]; [reflexivity|].
  change (S n =? 0)%nat with false. cbv iota.
  rewrite IH.
  - reflexivity.
  - exact Hr.
  - simpl. rewrite busy_count_tick. lia.
Qed.

(** [k] locked attempts, then the one that goes through. *)
Lemma retry_loop_unlocks n item_path target_path s :
  move_possible (files s) item_path target_path = true ->
  replaceable s item_path target_path = true ->
  (busy_count item_path (busy s) < n)%nat ->
  Legacy.retry_loop n item_path target_path s
  = (Ok tt,
     after_successful_attempt item_path target_path
       (size_in (files s) item_path)
       (after_failed_attempts (busy_count item_path (busy s)) item_path
          (size_in (files s) item_path) s)).
Proof.
  revert s. induction n as [|n IH]; intros s Hm Hw Hn; [lia|].
  cbn [Legacy.retry_loop].
  unfold try_except_PermissionError, bind at 1.
  rewrite get_file_size_pure.
  unfold bind at 1, add_space_cleared.
  unfold bind at 1.
  destruct (busy_count item_path (busy s)) as [|k] eqn:Hk.
  - rewrite shutil_move_free by (simpl; assumption).
    unfold incr_files_moved. reflexivity.
  - assert (Hr : reaches_source (files s) item_path target_path = true).
    { unfold move_possible in Hm. now apply andb_true_iff in Hm. }
    rewrite shutil_move_locked by (simpl; first [exact Hr | lia]).
    unfold bind, time_sleep. simpl.
    destruct n as [|n]; [lia|].
    change (S n =? 0)%nat with false. cbv iota.
    rewrite IH.
    + simpl. rewrite busy_count_tick, Hk. reflexivity.
    + exact Hm.
    + exact Hw.
    + simpl. rewrite busy_count_tick, Hk. simpl. lia.
Qed.

Lemma move_item_locked folder_path dated_subfolder item s :
  reaches_source (files s) (folder_path ++ [item]) (dated_subfolder ++ [item])
  = true ->
  (3 <= busy_count (folder_path ++ [item]) (busy s))%nat ->
  Legacy.move_item folder_path dated_subfolder item s
  = (Ok tt,
     after_exhausted_retries (folder_path ++ [item])
       (size_in (files s) (folder_path ++ [item])) s).
Proof.
  intros Hr Hb. unfold Legacy.move_item, try_except.
  rewrite retry_loop_locked by (auto; lia).
  reflexivity.
Qed.

Lemma move_item_unlocks folder_path dated_subfolder item s :
  move_possible (files s) (folder_path ++ [item]) (dated_subfolder ++ [item])
  = true ->
  replaceable s (folder_path ++ [item]) (dated_subfolder ++ [item]) = true ->
  (busy_count (folder_path ++ [item]) (busy s) < 3)%nat ->
  Legacy.move_item folder_path dated_subfolder item s
  = (Ok tt,
     after_successful_attempt (folder_path ++ [item])
       (dated_subfolder ++ [item])
       (size_in (files s) (folder_path ++ [item]))
       (after_failed_attempts (busy_count (folder_path ++ [item]) (busy s))
          (folder_path ++ [item])
          (size_in (files s) (folder_path ++ [item])) s)).
Proof.
  intros Hm Hw Hb. unfold Legacy.move_item, try_except.
  rewrite retry_loop_unlocks by auto.
  reflexivity.
Qed.

(** C1 on the code: [space_cleared] is raised before every attempt, inside
    the retry loop.  With [report.pdf] (100 bytes) locked for one attempt
    the sweep of scenario 1 moves both files and reports 450 bytes, not
    350; locked for all three attempts, [report.pdf] stays and the report
    is 550 bytes, not 250. *)
Theorem space_cleared_counts_every_attempt :
  Legacy.organize_folder Sample.desktop
    (Sample.fresh Sample.scenario1 [(Sample.desktop ++ ["report.pdf"], 1%nat)])
  = (Ok tt,
     mkState (mkStats 2 450 0)
       [ (Sample.desktop, Dir 0);
         (Sample.dated ++ ["report.pdf"], File 100);
         (Sample.dated ++ ["photo.jpg"], File 250);
         (Sample.desktop ++ ["Archive"], Dir 0);
         (Sample.dated, Dir 0) ]
       [(Sample.desktop ++ ["report.pdf"], 0%nat)]
       "Mar-14-2024_09-30AM" 1
       [ Created Sample.dated;
         Moved (Sample.desktop ++ ["report.pdf"]) (Sample.dated ++ ["report.pdf"]);
         Moved (Sample.desktop ++ ["photo.jpg"]) (Sample.dated ++ ["photo.jpg"]) ])
  /\
  Legacy.organize_folder Sample.desktop
    (Sample.fresh Sample.scenario1 [(Sample.desktop ++ ["report.pdf"], 3%nat)])
  = (Ok tt,
     mkState (mkStats 1 550 1)
       [ (Sample.desktop, Dir 0);
         (Sample.desktop ++ ["report.pdf"], File 100);
         (Sample.dated ++ ["photo.jpg"], File 250);
         (Sample.desktop ++ ["Archive"], Dir 0);
         (Sample.dated, Dir 0) ]
       [(Sample.desktop ++ ["report.pdf"], 0%nat)]
       "Mar-14-2024_09-30AM" 3
       [ Created Sample.dated;
         Moved (Sample.desktop ++ ["photo.jpg"]) (Sample.dated ++ ["photo.jpg"]) ]).
Proof. split; vm_compute; reflexivity. Qed.

(** The general shape of the same: after [k] locked attempts the size has
    been added [k] times, and the attempt that succeeds adds it once
    more. *)
Lemma space_cleared_after_retries folder_path dated_subfolder item s :
  move_possible (files s) (folder_path ++ [item]) (dated_subfolder ++ [item])
  = true ->
  replaceable s (folder_path ++ [item]) (dated_subfolder ++ [item]) = true ->
  (busy_count (folder_path ++ [item]) (busy s) < 3)%nat ->
  space_cleared
    (stats (snd (Legacy.move_item folder_path dated_subfolder item s)))
  = (space_cleared (stats s)
     + (Z.of_nat (busy_count (folder_path ++ [item]) (busy s)) + 1)
       * size_in (files s) (folder_path ++ [item]))%Z.
Proof.
  intros Hm Hw Hb. rewrite move_item_unlocks by assumption.
  unfold after_successful_attempt, moved.
  destruct (lookup _ _); simpl;
    rewrite after_failed_attempts_stats; simpl; lia.
Qed.

(** The repair sweep's guard: a name taken at the destination leaves
    everything as it is. *)
Lemma move_to_category_skips_existing categories file_path dated_folder s :
  exists_in (files s)
    (dated_folder
     ++ [category_of_item categories (basename file_path);
         basename file_path]) = true ->
  FileOrganizer.move_to_category (Some categories) file_path dated_folder s
  = (Ok tt, s).
Proof.
  intros H. rewrite move_to_category_bound.
  unfold try_except, bind, os_path_exists. now rewrite H.
Qed.

(** [refile] with the table in place, as a function of the category. *)
Lemma refile_bound categories dated_path item s :
  FileOrganizer.refile (Some categories) dated_path item s
  = (if isfile_in (files s) (dated_path ++ [item])
        && FileOrganizer.truthy (category_of_item categories item)
     then
       target_exists <-
         os_path_exists
           (dated_path ++ [category_of_item categories item; item]) ;;
       when (negb target_exists)
         (shutil_move (dated_path ++ [item])
            (dated_path ++ [category_of_item categories item; item]))
     else ret tt) s.
Proof.
  unfold FileOrganizer.refile, bind at 1, os_path_isfile.
  destruct (isfile_in (files s) (dated_path ++ [item])); [|reflexivity].
  cbn [when andb]. unfold bind at 1.
  rewrite get_category_for_extension_bound.
  fold (category_of_item categories item).
  now destruct (FileOrganizer.truthy (category_of_item categories item)).
Qed.

Lemma refile_skips_existing categories dated_path item s :
  exists_in (files s)
    (dated_path ++ [category_of_item categories item; item]) = true ->
  FileOrganizer.refile (Some categories) dated_path item s = (Ok tt, s).
Proof.
  intros H. rewrite refile_bound.
  destruct (_ && _); [|reflexivity].
  unfold bind, os_path_exists. now rewrite H.
Qed.

(** C3 on the code: the forward sweep moves without looking at the
    destination.  With [a.zip] (7 bytes) already in the dated subtree of
    this minute, sweeping a folder that holds another [a.zip] (100 bytes)
    replaces the archived copy, removes the source, and counts the move:
    [files_moved] is 1 and [space_cleared] is 100. *)
Theorem forward_sweep_overwrites_destination :
  lookup (Sample.dated ++ ["a.zip"]) Sample.scenario4 = Some (File 7) /\
  Legacy.organize_folder Sample.desktop (Sample.fresh Sample.scenario4 [])
  = (Ok tt,
     mkState (mkStats 1 100 0)
       [ (Sample.desktop, Dir 0);
         (Sample.dated ++ ["a.zip"], File 100);
         (Sample.desktop ++ ["Archive"], Dir 0);
         (Sample.dated, Dir 0) ]
       [] "Mar-14-2024_09-30AM" 0
       [ Moved (Sample.desktop ++ ["a.zip"]) (Sample.dated ++ ["a.zip"]) ]).
Proof. split; vm_compute; reflexivity. Qed.

(** ** What the journal of a run can hold *)

Lemma journal_grows_pre Q :
  (forall s, journal_grows Q s s) /\
  (forall a b c, journal_grows Q a b -> journal_grows Q b c ->
                 journal_grows Q a c).
Proof.
  split.
  - intros s. split; [reflexivity|]. exists []. split; [now rewrite app_nil_r | constructor].
  - intros a b c [Hn1 [e1 [H1 F1]]] [Hn2 [e2 [H2 F2]]]. split; [congruence|].
    exists (e1 ++ e2). split.
    + rewrite H2, H1. now rewrite app_assoc.
    + apply Forall_app. split; assumption.
Qed.

Lemma journal_grows_same Q s s' :
  now s' = now s -> journal s' = journal s -> journal_grows Q s s'.
Proof.
  intros Hn Hj. split; [exact Hn|]. exists []. split; [now rewrite app_nil_r | constructor].
Qed.

Lemma journal_grows_one Q s s' e :
  now s' = now s -> journal s' = journal s ++ [e] -> moves_satisfy Q e ->
  journal_grows Q s s'.
Proof.
  intros Hn Hj He. split; [exact Hn|]. exists [e]. split; [exact Hj | now constructor].
Qed.

Ltac quiet :=
  let s := fresh "s" in
  intros s; simpl; repeat (break_match; simpl);
  apply journal_grows_same; reflexivity.

Lemma os_path_exists_journal Q p : preserves (journal_grows Q) (os_path_exists p).
Proof. quiet. Qed.

Lemma os_path_isdir_journal Q p : preserves (journal_grows Q) (os_path_isdir p).
Proof. quiet. Qed.

Lemma os_path_isfile_journal Q p : preserves (journal_grows Q) (os_path_isfile p).
Proof. quiet. Qed.

Lemma os_listdir_journal Q p : preserves (journal_grows Q) (os_listdir p).
Proof. unfold os_listdir. quiet. Qed.

Lemma get_file_size_journal Q p : preserves (journal_grows Q) (get_file_size p).
Proof. intros s. rewrite get_file_size_pure. apply journal_grows_same; reflexivity. Qed.

Lemma add_space_cleared_journal Q z : preserves (journal_grows Q) (add_space_cleared z).
Proof. quiet. Qed.

Lemma incr_files_moved_journal Q : preserves (journal_grows Q) incr_files_moved.
Proof. quiet. Qed.

Lemma incr_errors_journal Q : preserves (journal_grows Q) incr_errors.
Proof. quiet. Qed.

Lemma time_sleep_journal Q n : preserves (journal_grows Q) (time_sleep n).
Proof. quiet. Qed.

Lemma open_write_journal Q p z : preserves (journal_grows Q) (open_write p z).
Proof. unfold open_write. quiet. Qed.

Lemma SetFileAttributesW_journal Q p bits :
  preserves (journal_grows Q) (SetFileAttributesW p bits).
Proof. unfold SetFileAttributesW. quiet. Qed.

Lemma getattr_categories_journal Q self_categories :
  preserves (journal_grows Q) (FileOrganizer.getattr_categories self_categories).
Proof. destruct self_categories; quiet. Qed.

Lemma strftime_now_journal Q : preserves (journal_grows Q) strftime_now.
Proof. quiet. Qed.

Lemma os_mkdir_journal Q p : preserves (journal_grows Q) (os_mkdir p).
Proof.
  intros s. unfold os_mkdir.
  destruct (exists_in (files s) p); [apply journal_grows_same; reflexivity|].
  destruct (parent_is_dir (files s) p).
  - simpl. eapply journal_grows_one; simpl; [reflexivity | reflexivity | exact I].
  - destruct (exists_in (files s) (dirname p));
      apply journal_grows_same; reflexivity.
Qed.

Lemma makedirs_rev_journal Q rname exist_ok :
  preserves (journal_grows Q) (makedirs_rev rname exist_ok).
Proof.
  induction rname as [|tail rhead IH]; simpl.
  - through (journal_grows_pre Q).
  - through (journal_grows_pre Q).
    + destruct rhead as [|x r]; [through (journal_grows_pre Q)|].
      through (journal_grows_pre Q); [apply os_path_exists_journal|].
      destruct a; [through (journal_grows_pre Q)|].
      intros s. specialize (IH s).
      destruct (makedirs_rev (x :: r) exist_ok s) as [[u|e|] s1]; simpl in *;
        try exact IH.
      destruct e; exact IH.
    + intros s. pose proof (os_mkdir_journal Q (rev rhead ++ [tail]) s) as H.
      destruct (os_mkdir (rev rhead ++ [tail]) s) as [[u|e|] s1]; simpl in *;
        try exact H.
      break_match; exact H.
Qed.

Lemma os_makedirs_journal Q name exist_ok :
  preserves (journal_grows Q) (os_makedirs name exist_ok).
Proof. apply makedirs_rev_journal. Qed.

Lemma shutil_move_journal (Q : path -> path -> Prop) src dst :
  Q src dst -> Q src (dst ++ [basename src]) ->
  preserves (journal_grows Q) (shutil_move src dst).
Proof.
  intros Q1 Q2 s. unfold shutil_move.
  assert (HQ : Q src (if isdir_in (files s) dst then dst ++ [basename src] else dst))
    by (destruct (isdir_in (files s) dst); assumption).
  destruct (isdir_in (files s) dst && _);
    [apply journal_grows_same; reflexivity|].
  destruct (lookup src (files s)) as [n|];
    [|apply journal_grows_same; reflexivity].
  destruct (negb _); [apply journal_grows_same; reflexivity|].
  destruct (0 <? _)%nat; [apply journal_grows_same; reflexivity|].
  destruct n.
  - destruct (_ && _); [apply journal_grows_same; reflexivity|].
    eapply journal_grows_one; simpl; [reflexivity | reflexivity | exact HQ].
  - destruct (is_prefix _ _); [apply journal_grows_same; reflexivity|].
    destruct (exists_in _ _); [apply journal_grows_same; reflexivity|].
    eapply journal_grows_one; simpl; [reflexivity | reflexivity | exact HQ].
Qed.

Ltac journal_step Q :=
  first
    [ apply os_path_exists_journal
    | apply SetFileAttributesW_journal
    | apply getattr_categories_journal
    | apply strftime_now_journal
    | apply os_path_isdir_journal
    | apply os_path_isfile_journal
    | apply os_listdir_journal
    | apply get_file_size_journal
    | apply add_space_cleared_journal
    | apply incr_files_moved_journal
    | apply incr_errors_journal
    | apply time_sleep_journal
    | apply open_write_journal
    | apply os_makedirs_journal
    | through (journal_grows_pre Q) ].

Lemma retry_loop_journal (Q : path -> path -> Prop) n item_path target_path :
  Q item_path target_path ->
  Q item_path (target_path ++ [basename item_path]) ->
  preserves (journal_grows Q) (Legacy.retry_loop n item_path target_path).
Proof.
  intros Q1 Q2. induction n as [|n IH]; cbn [Legacy.retry_loop].
  - journal_step Q.
  - repeat journal_step Q.
    + now apply shutil_move_journal.
    + destruct (n =? 0)%nat; [journal_step Q | exact IH].
Qed.

Lemma move_item_journal (Q : path -> path -> Prop) folder_path dated_subfolder item :
  Q (folder_path ++ [item]) (dated_subfolder ++ [item]) ->
  Q (folder_path ++ [item]) (dated_subfolder ++ [item; item]) ->
  preserves (journal_grows Q)
    (Legacy.move_item folder_path dated_subfolder item).
Proof.
  intros Q1 Q2. unfold Legacy.move_item.
  apply preserves_try_except; [exact (journal_grows_pre Q) | |].
  - apply retry_loop_journal; [exact Q1|].
    rewrite basename_app, <- app_assoc. exact Q2.
  - intros e. apply incr_errors_journal.
Qed.

(** ** The forward sweep of the old file, step by step *)

Lemma filter_items_pure folder_path all_items s :
  Legacy.filter_items folder_path all_items s
  = (Ok (filter (eligible (files s) folder_path) all_items), s).
Proof.
  induction all_items as [|item rest IH]; simpl; [reflexivity|].
  unfold bind at 1. rewrite keeps_pure.
  unfold bind at 1. rewrite IH. unfold ret.
  destruct (eligible (files s) folder_path item); reflexivity.
Qed.

(** The state in which the sweep lists the folder: [Archive] has been made
    if it was missing and could be made. *)
Lemma organize_folder_state folder_path s :
  let archive_folder := folder_path ++ ["Archive"] in
  let dated_subfolder := archive_folder ++ [now s] in
  let s1 := snd (when (negb (exists_in (files s) archive_folder))
                      (os_makedirs archive_folder false) s) in
  snd (Legacy.organize_folder folder_path s)
  = match folder_path with
    | [] => s
    | _ :: _ =>
        if negb (exists_in (files s) folder_path) then s
        else
          match fst (when (negb (exists_in (files s) archive_folder))
                          (os_makedirs archive_folder false) s) with
          | Ok _ =>
              match lookup folder_path (files s1) with
              | Some (Dir _) =>
                  match filter (eligible (files s1) folder_path)
                               (listdir_in (files s1) folder_path) with
                  | [] => s1
                  | files_to_move =>
                      snd ((os_makedirs (archive_folder ++ [now s1]) true ;;
                            for_each files_to_move
                              (Legacy.move_item folder_path
                                 (archive_folder ++ [now s1]))) s1)
                  end
              | _ => s1
              end
          | _ => s1
          end
    end.
Proof.
  intros archive_folder dated_subfolder s1. subst s1 dated_subfolder.
  unfold Legacy.organize_folder, try_except, bind, os_path_exists,
    strftime_now, os_listdir.
  destruct folder_path as [|c folder]; [reflexivity|].
  set (folder_path := c :: folder) in *.
  destruct (exists_in (files s) folder_path); cbn [negb]; cbv iota;
    [|reflexivity].
  fold archive_folder.
  destruct (when (negb (exists_in (files s) archive_folder))
                 (os_makedirs archive_folder false) s) as [[u|e|] s1];
    cbn [fst snd]; try reflexivity.
  destruct (lookup folder_path (files s1)) as [[z|z]|]; try reflexivity.
  rewrite filter_items_pure.
  destruct (filter (eligible (files s1) folder_path)
                   (listdir_in (files s1) folder_path)) as [|x l];
    [reflexivity|].
  destruct (os_makedirs (archive_folder ++ [now s1]) true s1)
    as [[u'|e'|] s2]; try reflexivity.
  destruct (for_each (x :: l)
              (Legacy.move_item folder_path (archive_folder ++ [now s1])) s2)
    as [[u''|e''|] s3]; reflexivity.
Qed.

Lemma eligible_archive_name t folder_path item :
  eligible t folder_path item = true -> archive_name item = false.
Proof.
  unfold eligible, archive_name. intros H.
  apply andb_true_iff in H as [H H3]. apply andb_true_iff in H as [H1 H2].
  apply negb_true_iff in H1, H3. now rewrite H1, H3.
Qed.

Lemma archive_name_not_eligible t folder_path item :
  archive_name item = true -> eligible t folder_path item = false.
Proof.
  intros H. destruct (eligible t folder_path item) eqn:E; [|reflexivity].
  apply eligible_archive_name in E. congruence.
Qed.

Lemma journal_grows_weaken (Q Q' : path -> path -> Prop) s s' :
  (forall a b, Q a b -> Q' a b) -> journal_grows Q s s' -> journal_grows Q' s s'.
Proof.
  intros HQ [Hn [evs [Hj Hf]]]. split; [exact Hn|]. exists evs. split; [exact Hj|].
  eapply Forall_impl; [|exact Hf]. intros [a b|d]; simpl; auto.
Qed.

Lemma legacy_sweep_journal folder_path s :
  journal_grows (flat_relocation folder_path (now s)) s
    (snd (Legacy.organize_folder folder_path s)).
Proof.
  set (Q := flat_relocation folder_path (now s)).
  pose proof (journal_grows_pre Q) as [Hrefl Htrans].
  rewrite organize_folder_state.
  destruct folder_path as [|c folder]; [apply Hrefl|].
  set (folder_path := c :: folder) in *.
  destruct (negb (exists_in (files s) folder_path)); [apply Hrefl|].
  set (archive_folder := folder_path ++ ["Archive"]).
  assert (H1 : preserves (journal_grows Q)
                 (when (negb (exists_in (files s) archive_folder))
                       (os_makedirs archive_folder false)))
    by (repeat journal_step Q).
  specialize (H1 s).
  destruct (when (negb (exists_in (files s) archive_folder))
                 (os_makedirs archive_folder false) s) as [r s1].
  cbn [fst snd] in *.
  destruct r as [u|e|]; try exact H1.
  destruct (lookup folder_path (files s1)) as [[z|z]|]; try exact H1.
  destruct (filter (eligible (files s1) folder_path)
                   (listdir_in (files s1) folder_path)) as [|x l] eqn:Hf;
    [exact H1|].
  eapply Htrans; [exact H1|].
  assert (Hnow : now s1 = now s) by apply H1.
  rewrite Hnow.
  match goal with
  | |- journal_grows Q s1 (snd (?c s1)) =>
      assert (H2 : preserves (journal_grows Q) c)
  end.
  { apply preserves_bind; [exact (journal_grows_pre Q) | apply os_makedirs_journal |].
    intros _. apply preserves_for_each; [exact (journal_grows_pre Q)|].
    intros item Hin. rewrite <- Hf in Hin. apply filter_In in Hin as [_ He].
    apply eligible_archive_name in He.
    apply move_item_journal; exists item; unfold archive_folder;
      rewrite <- !app_assoc; simpl; auto. }
  apply H2.
Qed.

Lemma strip_prefix_sibling p a b :
  strip_prefix (p ++ [a]) (p ++ [b]) = if String.eqb a b then Some [] else None.
Proof.
  induction p as [|c p IH]; simpl.
  - destruct (String.eqb a b); reflexivity.
  - now rewrite String.eqb_refl.
Qed.

(** C7: an entry named [Archive], or whose name holds "archive" in any
    letter case, never passes the filter of the forward sweep, so it is
    never in [files_to_move]; and no relocation of the sweep has the entry,
    or anything below it, as its source. *)
Theorem archive_entries_are_never_swept folder_path item s :
  archive_name item = true ->
  (forall t, eligible t folder_path item = false) /\
  Legacy.keeps folder_path item s = (Ok false, s) /\
  (forall all_items,
      exists files_to_move,
        Legacy.filter_items folder_path all_items s = (Ok files_to_move, s) /\
        ~ In item files_to_move) /\
  exists evs,
    journal (snd (Legacy.organize_folder folder_path s)) = journal s ++ evs /\
    forall src dst,
      In (Moved src dst) evs -> is_prefix (folder_path ++ [item]) src = false.
Proof.
  intros Ha. split; [|split; [|split]].
  - intros t. now apply archive_name_not_eligible.
  - rewrite keeps_pure. now rewrite archive_name_not_eligible.
  - intros all_items. eexists. split; [apply filter_items_pure|].
    intros Hin. apply filter_In in Hin as [_ He].
    apply eligible_archive_name in He. congruence.
  - destruct (legacy_sweep_journal folder_path s) as [_ [evs [Hj Hf]]].
    exists evs. split; [exact Hj|].
    intros src dst Hin. rewrite Forall_forall in Hf.
    specialize (Hf _ Hin). simpl in Hf.
    destruct Hf as [item' [Ha' [-> _]]].
    unfold is_prefix. rewrite strip_prefix_sibling.
    destruct (String.eqb item item') eqn:E; [|reflexivity].
    apply String.eqb_eq in E. subst. congruence.
Qed.

Lemma archive_entries_are_never_swept_witness :
  eligible Sample.with_archives Sample.desktop "My Archived Photos" = false /\
  journal (snd (Legacy.organize_folder Sample.desktop
                  (Sample.fresh Sample.with_archives [])))
  = [ Created Sample.dated;
      Moved (Sample.desktop ++ ["notes.txt"]) (Sample.dated ++ ["notes.txt"]) ].
Proof.
  split.
  - apply (proj1 (archive_entries_are_never_swept Sample.desktop
                    "My Archived Photos"
                    (Sample.fresh Sample.with_archives []) eq_refl)).
  - vm_compute. reflexivity.
Defined.

Lemma try_except_state A (c : M A) h s :
  (forall e s', snd (h e s') = s') ->
  snd (try_except c h s) = snd (c s).
Proof.
  intros Hh. unfold try_except.
  destruct (c s) as [[a|e|] s1]; simpl; auto.
Qed.



(** ** Making a directory and listing one *)

Lemma os_makedirs_child p x exist_ok s :
  p <> [] ->
  exists_in (files s) p = true ->
  os_makedirs (p ++ [x]) exist_ok s
  = match os_mkdir (p ++ [x]) s with
    | (Raise e, s') =>
        if negb exist_ok || negb (isdir_in (files s') (p ++ [x]))
        then (Raise e, s') else (Ok tt, s')
    | r => r
    end.
Proof.
  intros Hp He. unfold os_makedirs. rewrite rev_unit.
  pose proof (rev_involutive p) as Hrev.
  destruct (rev p) as [|y r] eqn:E.
  - simpl in Hrev. congruence.
  - cbn [makedirs_rev]. unfold bind at 1. unfold bind at 1.
    unfold os_path_exists. rewrite Hrev, He. reflexivity.
Qed.

Lemma parent_is_dir_child t p x :
  p <> [] -> parent_is_dir t (p ++ [x]) = isdir_in t p.
Proof.
  intros Hp. unfold parent_is_dir. rewrite dirname_app.
  destruct p; [congruence | reflexivity].
Qed.

Lemma child_name_app p x : child_name p (p ++ [x]) = Some x.
Proof. unfold child_name. now rewrite strip_prefix_app. Qed.

Lemma scandir_in_app t1 t2 p :
  scandir_in (t1 ++ t2) p = scandir_in t1 p ++ scandir_in t2 p.
Proof.
  induction t1 as [|[q n] t1 IH]; simpl; [reflexivity|].
  destruct (child_name p q); simpl; now rewrite IH.
Qed.

Lemma listdir_in_app t1 t2 p :
  listdir_in (t1 ++ t2) p = listdir_in t1 p ++ listdir_in t2 p.
Proof. unfold listdir_in. now rewrite scandir_in_app, map_app. Qed.

Lemma listdir_in_new_child t p x n :
  listdir_in (t ++ [(p ++ [x], n)]) p = listdir_in t p ++ [x].
Proof.
  rewrite listdir_in_app. unfold listdir_in at 2. simpl.
  now rewrite child_name_app.
Qed.

Lemma app_inj_last (p : path) a b : p ++ [a] = p ++ [b] -> a = b.
Proof. intros H. apply app_inv_head in H. congruence. Qed.

Lemma eligible_after_archive t folder_path item n :
  eligible (t ++ [(folder_path ++ ["Archive"], n)]) folder_path item
  = eligible t folder_path item.
Proof.
  unfold eligible. destruct (String.eqb item "Archive") eqn:E;
    [reflexivity|].
  simpl. f_equal. f_equal. unfold system_entry. f_equal. f_equal.
  unfold isdir_in. rewrite lookup_app.
  destruct (lookup (folder_path ++ [item]) t); [reflexivity|].
  simpl. destruct (path_eqb _ _) eqn:P; [|reflexivity].
  apply path_eqb_eq, app_inj_last in P.
  apply String.eqb_neq in E. congruence.
Qed.

Lemma filter_none A (f : A -> bool) l :
  (forall x, In x l -> f x = false) -> filter f l = [].
Proof.
  induction l as [|x l IH]; simpl; intros H; [reflexivity|].
  rewrite (H x) by now left. apply IH. intros y Hy. apply H. now right.
Qed.

(** Contract A of the locator: [Archive] is made when it is missing. *)
Lemma ensure_archive_root folder_path s :
  folder_path <> [] ->
  exists_in (files s) folder_path = true ->
  when (negb (exists_in (files s) (folder_path ++ ["Archive"])))
       (os_makedirs (folder_path ++ ["Archive"]) false) s
  = if exists_in (files s) (folder_path ++ ["Archive"]) then (Ok tt, s)
    else if isdir_in (files s) folder_path
         then (Ok tt,
               record (Created (folder_path ++ ["Archive"]))
                 (set_files
                    (files s ++ [(folder_path ++ ["Archive"], Dir 0)]) s))
         else (Raise NotADirectoryError, s).
Proof.
  intros Hne Hex.
  destruct (exists_in (files s) (folder_path ++ ["Archive"])) eqn:Ha;
    [reflexivity|].
  cbn [negb when].
  rewrite (os_makedirs_child folder_path "Archive" false s Hne Hex).
  unfold os_mkdir. rewrite Ha.
  rewrite (parent_is_dir_child _ folder_path "Archive" Hne).
  rewrite dirname_app, Hex.
  destruct (isdir_in (files s) folder_path); reflexivity.
Qed.

(** C6: a sweep that finds no eligible entry makes no dated subtree and
    moves nothing.  The state it leaves is the state it found, but for the
    [Archive] directory, made if it was missing; the statistics are as they
    were. *)
Theorem sweep_without_eligible_entries folder_path s :
  (forall item,
      In item (listdir_in (files s) folder_path) ->
      eligible (files s) folder_path item = false) ->
  let archive_folder := folder_path ++ ["Archive"] in
  let s' := snd (Legacy.organize_folder folder_path s) in
  (s' = s \/
   s' = record (Created archive_folder)
               (set_files (files s ++ [(archive_folder, Dir 0)]) s)) /\
  stats s' = stats s /\
  (forall p, p <> archive_folder ->
             lookup p (files s') = lookup p (files s)).
Proof.
  intros Hnone. cbv zeta.
  assert (H : snd (Legacy.organize_folder folder_path s) = s \/
              snd (Legacy.organize_folder folder_path s)
              = record (Created (folder_path ++ ["Archive"]))
                  (set_files
                     (files s ++ [(folder_path ++ ["Archive"], Dir 0)]) s)).
  { rewrite organize_folder_state.
    destruct folder_path as [|c folder]; [now left|].
    assert (Hne : c :: folder <> []) by discriminate.
    revert Hnone Hne. generalize (c :: folder). intros folder_path Hnone Hne.
    destruct (exists_in (files s) folder_path) eqn:Hex; [|now left].
    cbn [negb]. cbv iota.
    rewrite (ensure_archive_root folder_path s Hne Hex).
    destruct (exists_in (files s) (folder_path ++ ["Archive"])) eqn:Ha.
    - cbn [fst snd].
      destruct (lookup folder_path (files s)) as [[z|z]|]; try now left.
      rewrite (filter_none _ _ _ Hnone). now left.
    - destruct (isdir_in (files s) folder_path) eqn:Hd; cbn [fst snd];
        [|now left].
      cbn [record set_files files].
      rewrite lookup_app.
      unfold isdir_in in Hd.
      destruct (lookup folder_path (files s)) as [[z|z]|]; try discriminate.
      rewrite listdir_in_new_child, filter_app.
      rewrite (filter_none _ (eligible _ folder_path)
                 (listdir_in (files s) folder_path)).
      + simpl. now right.
      + intros item Hin.
        rewrite eligible_after_archive. now apply Hnone. }
  split; [exact H|]. split.
  - destruct H as [-> | ->]; reflexivity.
  - intros p Hp. destruct H as [-> | ->]; [reflexivity|].
    cbn [record set_files files]. rewrite lookup_app.
    destruct (lookup p (files s)); [reflexivity|].
    simpl. apply path_eqb_neq in Hp. now rewrite Hp.
Qed.

Lemma sweep_without_eligible_entries_witness :
  snd (Legacy.organize_folder Sample.desktop
         (Sample.fresh Sample.scenario2 []))
  = mkState (mkStats 0 0 0)
      (Sample.scenario2 ++ [(Sample.desktop ++ ["Archive"], Dir 0)])
      [] "Mar-14-2024_09-30AM" 0
      [Created (Sample.desktop ++ ["Archive"])].
Proof.
  destruct (proj1 (sweep_without_eligible_entries Sample.desktop
                     (Sample.fresh Sample.scenario2 [])
                     ltac:(simpl; intros item [<-|[<-|[]]]; reflexivity)))
    as [H|H].
  - vm_compute in H. discriminate H.
  - exact H.
Defined.

(* ------------------------------------------------------------------ *)
(** ** Loops, lookups and listings *)

Lemma for_each_cons A (x : A) l body s :
  for_each (x :: l) body s
  = match body x s with
    | (Ok _, s1) => for_each l body s1
    | (Raise e, s1) => (Raise e, s1)
    | (Unfinished, s1) => (Unfinished, s1)
    end.
Proof. reflexivity. Qed.

Ltac path_cases :=
  repeat match goal with
         | |- context [path_eqb ?a ?b] =>
             let E := fresh "E" in
             destruct (path_eqb a b) eqn:E;
             [apply path_eqb_eq in E | apply path_eqb_neq in E]
         | H : context [path_eqb ?a ?b] |- _ =>
             let E := fresh "E" in
             destruct (path_eqb a b) eqn:E;
             [apply path_eqb_eq in E | apply path_eqb_neq in E]
         end.

Lemma lookup_rename_file q src dst t :
  src <> dst ->
  lookup q (rename_file src dst t)
  = if path_eqb q dst then lookup src t
    else if path_eqb q src then None else lookup q t.
Proof.
  intros Hne. unfold rename_file.
  induction t as [|[k n] t IH]; simpl.
  - destruct (path_eqb q dst), (path_eqb q src); reflexivity.
  - destruct (path_eqb k dst) eqn:Ekd; simpl.
    + apply path_eqb_eq in Ekd. subst k. rewrite IH.
      path_cases; subst; try congruence.
    + apply path_eqb_neq in Ekd.
      destruct (path_eqb k src) eqn:Eks; simpl.
      * apply path_eqb_eq in Eks. subst k. rewrite IH.
        path_cases; subst; try congruence.
      * apply path_eqb_neq in Eks. rewrite IH.
        path_cases; subst; try congruence.
Qed.

Lemma child_name_Some X q x : child_name X q = Some x -> q = X ++ [x].
Proof.
  unfold child_name. destruct (strip_prefix X q) as [[|y [|z r]]|] eqn:E;
    try discriminate.
  intros [= <-]. now apply strip_prefix_Some.
Qed.

Lemma scandir_in_set_node X p n t :
  child_name X p = None ->
  map fst (scandir_in (set_node p n t) X) = map fst (scandir_in t X).
Proof.
  intros Hp. induction t as [|[k m] t IH]; simpl.
  - now rewrite Hp.
  - destruct (path_eqb p k) eqn:E; simpl.
    + destruct (child_name X k); reflexivity.
    + destruct (child_name X k); simpl; now rewrite IH.
Qed.

Lemma listed_exists t D i : In i (listdir_in t D) -> exists_in t (D ++ [i]) = true.
Proof.
  unfold listdir_in, exists_in.
  induction t as [|[k n] t IH]; simpl; [tauto|].
  destruct (child_name D k) as [j|] eqn:Ec; simpl.
  - intros [<-|H].
    + apply child_name_Some in Ec. subst k. now rewrite path_eqb_refl.
    + destruct (path_eqb (D ++ [i]) k); [reflexivity | now apply IH].
  - intros H. destruct (path_eqb (D ++ [i]) k); [reflexivity | now apply IH].
Qed.

Lemma exists_listed t D j :
  exists_in t (D ++ [j]) = true -> In j (listdir_in t D).
Proof.
  unfold listdir_in, exists_in.
  induction t as [|[k n] t IH]; simpl; [discriminate|].
  destruct (path_eqb (D ++ [j]) k) eqn:E.
  - apply path_eqb_eq in E. subst k. rewrite child_name_app. now left.
  - intros H. destruct (child_name D k); [right|]; now apply IH.
Qed.

Lemma exists_isdir_isfile t p :
  (isdir_in t p = true -> exists_in t p = true) /\
  (isfile_in t p = true -> exists_in t p = true) /\
  (exists_in t p = false -> isdir_in t p = false /\ isfile_in t p = false).
Proof.
  unfold isdir_in, isfile_in, exists_in.
  destruct (lookup p t) as [[z|z]|]; repeat split; congruence.
Qed.

Lemma two_last (D : path) c i : D ++ [c; i] = (D ++ [c]) ++ [i].
Proof. now rewrite <- app_assoc. Qed.

Lemma child_ne_grandchild (D : path) j c i : D ++ [j] <> D ++ [c; i].
Proof. intros H. apply app_inv_head in H. discriminate. Qed.


Lemma self_ne_grandchild (D : path) c i : D <> D ++ [c; i].
Proof.
  intros H. rewrite <- (app_nil_r D) in H at 1.
  apply app_inv_head in H. discriminate.
Qed.

Lemma lookup_new_entry q p n t :
  lookup p t = None ->
  lookup q (t ++ [(p, n)]) = if path_eqb q p then Some n else lookup q t.
Proof.
  intros Hp. rewrite lookup_app. simpl.
  destruct (path_eqb q p) eqn:E.
  - apply path_eqb_eq in E. subst q. now rewrite Hp.
  - destruct (lookup q t); reflexivity.
Qed.

Lemma app_cons_ne_nil (A : path) d : A ++ [d] <> [].
Proof. destruct A; discriminate. Qed.

Lemma strip_prefix_app_head h x y :
  strip_prefix (h ++ x) (h ++ y) = strip_prefix x y.
Proof.
  induction h as [|a h IH]; simpl; [reflexivity|].
  now rewrite String.eqb_refl.
Qed.

Lemma busy_count_nil p : busy_count p [] = 0%nat.
Proof. reflexivity. Qed.

Lemma makedirs_category D c s :
  D <> [] ->
  isdir_in (files s) D = true ->
  os_makedirs (D ++ [c]) true s
  = match lookup (D ++ [c]) (files s) with
    | Some (Dir _) => (Ok tt, s)
    | Some (File _) => (Raise FileExistsError, s)
    | None =>
        (Ok tt, record (Created (D ++ [c]))
                  (set_files (files s ++ [(D ++ [c], Dir 0)]) s))
    end.
Proof.
  intros HD Hd.
  pose proof (proj1 (exists_isdir_isfile (files s) D) Hd) as He.
  rewrite (os_makedirs_child D c true s HD He).
  unfold os_mkdir, exists_in, isdir_in.
  destruct (lookup (D ++ [c]) (files s)) as [[z|z]|] eqn:E; simpl;
    try reflexivity.
  - now rewrite E.
  - now rewrite E.
  - rewrite parent_is_dir_child by assumption. now rewrite Hd.
Qed.

Lemma os_listdir_dir D s :
  isdir_in (files s) D = true ->
  os_listdir D s = (Ok (listdir_in (files s) D), s).
Proof.
  unfold os_listdir, isdir_in.
  destruct (lookup D (files s)) as [[z|z]|]; try discriminate. reflexivity.
Qed.

(* ------------------------------------------------------------------ *)
(** ** Calls that end *)

Lemma finishes_ret A (a : A) : finishes (ret a).
Proof. intros s. discriminate. Qed.

Lemma finishes_bind A B (c : M A) (k : A -> M B) :
  finishes c -> (forall a, finishes (k a)) -> finishes (bind c k).
Proof.
  intros Hc Hk s. unfold bind. specialize (Hc s).
  destruct (c s) as [[a|e|] s1]; simpl in *; try discriminate.
  - apply Hk.
  - congruence.
Qed.

Lemma finishes_when b c : finishes c -> finishes (when b c).
Proof. destruct b; simpl; auto using finishes_ret. Qed.

Lemma finishes_for_each A (l : list A) body :
  (forall x, finishes (body x)) -> finishes (for_each l body).
Proof.
  intros H. induction l as [|x l IH]; simpl.
  - apply finishes_ret.
  - apply finishes_bind; auto.
Qed.

Lemma os_mkdir_finishes p : finishes (os_mkdir p).
Proof. intros s. unfold os_mkdir. repeat break_match; discriminate. Qed.

Lemma makedirs_rev_finishes rname exist_ok : finishes (makedirs_rev rname exist_ok).
Proof.
  induction rname as [|tail rhead IH]; simpl.
  - intros s. discriminate.
  - apply finishes_bind.
    + destruct rhead as [|x r]; [apply finishes_ret|].
      apply finishes_bind; [intros s; discriminate|].
      intros [|]; [apply finishes_ret|].
      intros s. specialize (IH s).
      destruct (makedirs_rev (x :: r) exist_ok s) as [[u|e|] s1]; simpl in *;
        try discriminate; [destruct e; discriminate | congruence].
    + intros _ s. pose proof (os_mkdir_finishes (rev rhead ++ [tail]) s) as H.
      destruct (os_mkdir (rev rhead ++ [tail]) s) as [[u|e|] s1]; simpl in *;
        try discriminate; [break_match; discriminate | congruence].
Qed.

Lemma os_makedirs_finishes name exist_ok : finishes (os_makedirs name exist_ok).
Proof. apply makedirs_rev_finishes. Qed.

Lemma open_write_finishes p z : finishes (open_write p z).
Proof. intros s. unfold open_write. repeat break_match; discriminate. Qed.

Lemma shutil_move_finishes src dst : finishes (shutil_move src dst).
Proof. intros s. unfold shutil_move. repeat break_match; discriminate. Qed.

Lemma os_listdir_finishes p : finishes (os_listdir p).
Proof. intros s. unfold os_listdir. repeat break_match; discriminate. Qed.

(** ** The counters of the old sweep *)

Lemma count_moved_app e1 e2 :
  count_moved (e1 ++ e2) = (count_moved e1 + count_moved e2)%nat.
Proof.
  induction e1 as [|[src dst|d] e1 IH]; simpl; auto.
Qed.

Lemma counted_pre :
  (forall s, counted s s) /\
  (forall a b c, counted a b -> counted b c -> counted a c).
Proof.
  split.
  - intros s. exists []. simpl. split; [now rewrite app_nil_r | lia].
  - intros a b c [e1 [J1 F1]] [e2 [J2 F2]]. exists (e1 ++ e2). split.
    + rewrite J2, J1. now rewrite app_assoc.
    + rewrite count_moved_app. lia.
Qed.

Lemma counted_same s s' :
  journal s' = journal s -> files_moved (stats s') = files_moved (stats s) ->
  counted s s'.
Proof.
  intros J F. exists []. simpl. split; [now rewrite app_nil_r | lia].
Qed.

Lemma counted_created s s' :
  journal_grows (fun _ _ => False) s s' -> stats s' = stats s -> counted s s'.
Proof.
  intros [_ [evs [J F]]] St. exists evs. split; [exact J|].
  rewrite St. assert (count_moved evs = 0%nat) as ->; [|lia].
  clear J. induction F as [|[src dst|d] evs He _ IH]; simpl; auto.
  destruct He.
Qed.

Lemma os_makedirs_counted name exist_ok :
  preserves counted (os_makedirs name exist_ok).
Proof.
  intros s. apply counted_created.
  - apply os_makedirs_journal.
  - apply os_makedirs_same_stats.
Qed.

(** How a call of [shutil.move] can end. *)
Lemma shutil_move_outcome src dst s :
  stats (snd (shutil_move src dst s)) = stats s /\
  ((fst (shutil_move src dst s) = Ok tt /\
    exists real_dst,
      journal (snd (shutil_move src dst s))
      = journal s ++ [Moved src real_dst])
   \/ (exists e, fst (shutil_move src dst s) = Raise e /\
                 journal (snd (shutil_move src dst s)) = journal s)).
Proof.
  split; [apply shutil_move_same_stats|].
  unfold shutil_move.
  destruct (isdir_in (files s) dst && _); [right; now eexists|].
  destruct (lookup src (files s)) as [n|]; [|right; now eexists].
  destruct (negb _); [right; now eexists|].
  destruct (0 <? _)%nat; [right; now eexists|].
  destruct n.
  - destruct (_ && _); [right; now eexists|].
    left. split; [reflexivity|]. now eexists.
  - destruct (is_prefix _ _); [right; now eexists|].
    destruct (exists_in _ _); [right; now eexists|].
    left. split; [reflexivity|]. now eexists.
Qed.

Lemma attempt_eq item_path target_path s :
  attempt item_path target_path s
  = match shutil_move item_path target_path
            (set_stats (mkStats (files_moved (stats s))
                          (space_cleared (stats s)
                           + size_in (files s) item_path)
                          (errors (stats s))) s) with
    | (Ok _, s1) =>
        (Ok tt, set_stats (mkStats (files_moved (stats s1) + 1)
                             (space_cleared (stats s1))
                             (errors (stats s1))) s1)
    | (Raise e, s1) => (Raise e, s1)
    | (Unfinished, s1) => (Unfinished, s1)
    end.
Proof.
  unfold attempt, bind. rewrite get_file_size_pure. reflexivity.
Qed.

(** One attempt of the retry loop: the entry is moved and counted, or the
    attempt raises and neither [files_moved] nor the journal changes. *)
Lemma attempt_outcome item_path target_path s :
  let r := fst (attempt item_path target_path s) in
  let s' := snd (attempt item_path target_path s) in
  errors (stats s') = errors (stats s) /\
  ((r = Ok tt /\
    files_moved (stats s') = (files_moved (stats s) + 1)%Z /\
    exists real_dst, journal s' = journal s ++ [Moved item_path real_dst])
   \/ (exists e, r = Raise e /\
                 files_moved (stats s') = files_moved (stats s) /\
                 journal s' = journal s)).
Proof.
  cbv zeta. rewrite attempt_eq.
  set (s0 := set_stats _ s).
  destruct (shutil_move_outcome item_path target_path s0) as [St H].
  destruct (shutil_move item_path target_path s0) as [[[]|e|] s1];
    cbn [fst snd] in *.
  - destruct H as [[_ [d J]]|[e [He _]]]; [|discriminate].
    cbn [fst snd stats journal set_stats errors files_moved].
    rewrite St. split; [reflexivity|]. left. split; [reflexivity|].
    split; [reflexivity|]. now exists d.
  - destruct H as [[He _]|[e' [_ J]]]; [discriminate|].
    split; [now rewrite St|]. right. exists e. rewrite St. auto.
  - destruct H as [[He _]|[e' [He _]]]; discriminate.
Qed.

Lemma retry_loop_attempt n item_path target_path :
  Legacy.retry_loop (S n) item_path target_path
  = try_except_PermissionError
      (attempt item_path target_path)
      (time_sleep 1 ;;
       if (n =? 0)%nat then raise PermissionError
       else Legacy.retry_loop n item_path target_path).
Proof. reflexivity. Qed.

(** The retry loop as a whole ends like one attempt. *)
Lemma retry_loop_outcome n item_path target_path s :
  let r := fst (Legacy.retry_loop (S n) item_path target_path s) in
  let s' := snd (Legacy.retry_loop (S n) item_path target_path s) in
  errors (stats s') = errors (stats s) /\
  ((r = Ok tt /\
    files_moved (stats s') = (files_moved (stats s) + 1)%Z /\
    exists real_dst, journal s' = journal s ++ [Moved item_path real_dst])
   \/ (exists e, r = Raise e /\
                 files_moved (stats s') = files_moved (stats s) /\
                 journal s' = journal s)).
Proof.
  cbv zeta. revert s. induction n as [|n IH]; intros s;
    rewrite retry_loop_attempt; unfold try_except_PermissionError;
    pose proof (attempt_outcome item_path target_path s) as H;
    cbv zeta in H;
    destruct (attempt item_path target_path s) as [[[]|e|] s1];
    cbn [fst snd] in *; try exact H;
    destruct H as [He [[Hr _]|[e' [Hr [Hf Hj]]]]]; try discriminate;
    destruct e; try (split; [exact He|]; right; eexists; now eauto).
  unfold bind, time_sleep. cbn [Nat.eqb].
  match goal with
  | |- context [Legacy.retry_loop (S n) _ _ ?x] => specialize (IH x)
  end.
  rewrite <- He, <- Hf, <- Hj. exact IH.
Qed.

(** Each pass of the loop over the entries to move ends normally and counts
    its entry once: as moved, with its relocation in the journal, or as an
    error. *)
Lemma move_item_outcome folder_path dated_subfolder item s :
  let s' := snd (Legacy.move_item folder_path dated_subfolder item s) in
  fst (Legacy.move_item folder_path dated_subfolder item s) = Ok tt /\
  ((files_moved (stats s') = (files_moved (stats s) + 1)%Z /\
    errors (stats s') = errors (stats s) /\
    exists real_dst,
      journal s' = journal s ++ [Moved (folder_path ++ [item]) real_dst])
   \/ (files_moved (stats s') = files_moved (stats s) /\
       errors (stats s') = (errors (stats s) + 1)%Z /\
       journal s' = journal s)).
Proof.
  cbv zeta. unfold Legacy.move_item, try_except.
  pose proof (retry_loop_outcome 2 (folder_path ++ [item])
                (dated_subfolder ++ [item]) s) as H.
  cbv zeta in H.
  destruct (Legacy.retry_loop 3 (folder_path ++ [item])
              (dated_subfolder ++ [item]) s) as [[[]|e|] s1];
    cbn [fst snd] in *;
    destruct H as [He [[Hr [Hf Hj]]|[e' [Hr [Hf Hj]]]]]; try discriminate.
  - split; [reflexivity|]. left. auto.
  - split; [reflexivity|]. right. cbn. rewrite Hf, He, Hj. auto.
Qed.

Lemma move_item_counted folder_path dated_subfolder item :
  preserves counted (Legacy.move_item folder_path dated_subfolder item).
Proof.
  intros s.
  destruct (move_item_outcome folder_path dated_subfolder item s)
    as [_ [[Hf [_ [d Hj]]]|[Hf [_ Hj]]]].
  - exists [Moved (folder_path ++ [item]) d]. simpl. split; [exact Hj | lia].
  - now apply counted_same.
Qed.

Lemma move_loop_outcome folder_path dated_subfolder items :
  forall s,
    let s' := snd (for_each items
                     (Legacy.move_item folder_path dated_subfolder) s) in
    fst (for_each items (Legacy.move_item folder_path dated_subfolder) s)
    = Ok tt /\
    (files_moved (stats s') + errors (stats s')
     = files_moved (stats s) + errors (stats s) + Z.of_nat (List.length items))%Z /\
    (files_moved (stats s) <= files_moved (stats s'))%Z /\
    (errors (stats s) <= errors (stats s'))%Z.
Proof.
  cbv zeta. induction items as [|item items IH]; intros s.
  - cbn. repeat split; lia.
  - rewrite for_each_cons.
    pose proof (move_item_outcome folder_path dated_subfolder item s) as H.
    cbv zeta in H.
    destruct (Legacy.move_item folder_path dated_subfolder item s)
      as [[[]|e|] s1]; cbn [fst snd] in *;
      destruct H as [Hr H]; try discriminate.
    destruct (IH s1) as [Hok [Hsum [Hm He]]].
    split; [exact Hok|]. cbn [List.length].
    destruct H as [[Hf [Her _]]|[Hf [Her _]]]; repeat split; lia.
Qed.

(** ** Lookups after a relocation *)

Lemma is_prefix_refl p : is_prefix p p = true.
Proof. rewrite <- (app_nil_r p) at 2. apply is_prefix_app. Qed.


Lemma strip_prefix_None p q : strip_prefix p q = None -> forall r, q <> p ++ r.
Proof.
  intros H r ->. now rewrite strip_prefix_app in H.
Qed.

Lemma path_eqb_false_of p q : p <> q -> path_eqb p q = false.
Proof. apply path_eqb_neq. Qed.

Lemma lookup_relocate_frame q src dst t :
  is_prefix src q = false -> is_prefix dst q = false ->
  lookup q (relocate src dst t) = lookup q t.
Proof.
  intros Hs Hd. unfold relocate.
  induction t as [|[k n] t IH]; [reflexivity|]. cbn [filter fst lookup].
  destruct (path_eqb k dst) eqn:Ek; cbn [negb].
  - apply path_eqb_eq in Ek. subst k.
    rewrite (path_eqb_false_of q dst); [exact IH|].
    intros ->. now rewrite is_prefix_refl in Hd.
  - cbn [map lookup]. unfold rename_key at 1. cbn [fst snd].
    destruct (strip_prefix src k) as [r|] eqn:Ep.
    + apply strip_prefix_Some in Ep. subst k.
      rewrite (path_eqb_false_of q (dst ++ r))
        by (intros ->; now rewrite is_prefix_app in Hd).
      rewrite (path_eqb_false_of q (src ++ r))
        by (intros ->; now rewrite is_prefix_app in Hs).
      exact IH.
    + cbn [lookup]. now rewrite IH.
Qed.

Lemma lookup_relocate_target src dst t r :
  (forall r', lookup (dst ++ r') t = None) ->
  lookup (dst ++ r) (relocate src dst t) = lookup (src ++ r) t.
Proof.
  unfold relocate.
  induction t as [|[k n] t IH]; intros Hfree; [reflexivity|].
  cbn [filter fst lookup].
  assert (Hk : forall r', path_eqb (dst ++ r') k = false).
  { intros r'. specialize (Hfree r'). cbn [lookup] in Hfree.
    destruct (path_eqb (dst ++ r') k); [discriminate | reflexivity]. }
  assert (Ht : forall r', lookup (dst ++ r') t = None).
  { intros r'. specialize (Hfree r'). cbn [lookup] in Hfree.
    now rewrite Hk in Hfree. }
  assert (Ek : path_eqb k dst = false).
  { rewrite path_eqb_sym. specialize (Hk []). now rewrite app_nil_r in Hk. }
  rewrite Ek. cbn [negb map lookup]. unfold rename_key at 1. cbn [fst snd].
  destruct (strip_prefix src k) as [r0|] eqn:Ep.
  - apply strip_prefix_Some in Ep. subst k.
    destruct (path_eqb (src ++ r) (src ++ r0)) eqn:E.
    + apply path_eqb_eq, app_inv_head in E. subst r0.
      now rewrite path_eqb_refl.
    + rewrite (path_eqb_false_of (dst ++ r) (dst ++ r0)); [now apply IH|].
      intros H. apply app_inv_head in H. subst r0.
      now rewrite path_eqb_refl in E.
  - cbn [lookup]. rewrite Hk.
    rewrite (path_eqb_false_of (src ++ r) k)
      by (intros <-; now rewrite strip_prefix_app in Ep).
    now apply IH.
Qed.

Lemma lookup_relocate_source src dst t r :
  apart src dst ->
  lookup (src ++ r) (relocate src dst t) = None.
Proof.
  intros Ha. unfold relocate.
  induction t as [|[k n] t IH]; [reflexivity|]. cbn [filter fst].
  destruct (path_eqb k dst); cbn [negb]; [exact IH|].
  cbn [map lookup]. unfold rename_key at 1. cbn [fst snd].
  destruct (strip_prefix src k) as [r0|] eqn:Ep.
  - rewrite (path_eqb_false_of (src ++ r) (dst ++ r0)) by apply Ha.
    exact IH.
  - cbn [lookup].
    rewrite (path_eqb_false_of (src ++ r) k)
      by (intros <-; now rewrite strip_prefix_app in Ep).
    exact IH.
Qed.

Lemma apart_ne p q : apart p q -> p <> q.
Proof. intros H E. apply (H [] []). now rewrite !app_nil_r. Qed.

Lemma relocated_frame q src dst t :
  is_prefix src q = false -> is_prefix dst q = false -> src <> dst ->
  lookup q (relocated src dst t) = lookup q t.
Proof.
  intros Hs Hd Hne. unfold relocated.
  destruct (lookup src t) as [[z|z]|]; cbn [relocate_entry];
    [| now apply lookup_relocate_frame | reflexivity].
  rewrite lookup_rename_file by exact Hne.
  rewrite (path_eqb_false_of q dst)
    by (intros ->; now rewrite is_prefix_refl in Hd).
  rewrite (path_eqb_false_of q src)
    by (intros ->; now rewrite is_prefix_refl in Hs).
  reflexivity.
Qed.

Lemma relocated_target src dst t :
  apart src dst ->
  (forall r, lookup (dst ++ r) t = None) ->
  lookup dst (relocated src dst t) = lookup src t.
Proof.
  intros Ha Hfree. unfold relocated.
  destruct (lookup src t) as [[z|z]|] eqn:E; cbn [relocate_entry].
  - rewrite lookup_rename_file by now apply apart_ne.
    now rewrite path_eqb_refl.
  - pose proof (lookup_relocate_target src dst t [] Hfree) as H.
    rewrite !app_nil_r in H. now rewrite E in H.
  - specialize (Hfree []). now rewrite app_nil_r in Hfree.
Qed.

Lemma relocated_source src dst t :
  apart src dst -> lookup src (relocated src dst t) = None.
Proof.
  intros Ha. unfold relocated.
  destruct (lookup src t) as [[z|z]|] eqn:E; cbn [relocate_entry].
  - rewrite lookup_rename_file by now apply apart_ne.
    rewrite (path_eqb_false_of src dst) by now apply apart_ne.
    now rewrite path_eqb_refl.
  - pose proof (lookup_relocate_source src dst t [] Ha) as H.
    now rewrite app_nil_r in H.
  - exact E.
Qed.

Lemma relocated_below src dst t r :
  isdir_in t src = true ->
  (forall r', lookup (dst ++ r') t = None) ->
  lookup (dst ++ r) (relocated src dst t) = lookup (src ++ r) t.
Proof.
  intros Hd Hfree. unfold relocated, isdir_in in *.
  destruct (lookup src t) as [[z|z]|]; try discriminate.
  now apply lookup_relocate_target.
Qed.

(** ** A folder swept into a subfolder of its own *)

Lemma is_prefix_app_head h x y : is_prefix (h ++ x) (h ++ y) = is_prefix x y.
Proof. unfold is_prefix. now rewrite strip_prefix_app_head. Qed.

Section Swept.

Variable folder_path : path.
Variable a : string.
Variable A' : list string.

Let T : path := folder_path ++ a :: A'.

Lemma source_not_above_target i r :
  i <> a -> is_prefix (folder_path ++ [i]) (T ++ r) = false.
Proof.
  intros H. unfold T. rewrite <- app_assoc. rewrite is_prefix_app_head.
  unfold is_prefix. cbn [app strip_prefix].
  apply String.eqb_neq in H. now rewrite H.
Qed.

Lemma target_not_above_other i j r :
  i <> j -> is_prefix (T ++ [i]) (T ++ j :: r) = false.
Proof.
  intros H. rewrite is_prefix_app_head. unfold is_prefix. cbn [strip_prefix].
  apply String.eqb_neq in H. now rewrite H.
Qed.

Lemma source_not_above_other i j r :
  i <> j -> is_prefix (folder_path ++ [i]) (folder_path ++ j :: r) = false.
Proof.
  intros H. rewrite is_prefix_app_head. unfold is_prefix. cbn [strip_prefix].
  apply String.eqb_neq in H. now rewrite H.
Qed.

Lemma target_not_above_source i j r :
  j <> a -> is_prefix (T ++ [i]) (folder_path ++ j :: r) = false.
Proof.
  intros H. unfold T. rewrite <- app_assoc. rewrite is_prefix_app_head.
  unfold is_prefix. cbn [app strip_prefix].
  assert (E : String.eqb a j = false) by (apply String.eqb_neq; congruence).
  now rewrite E.
Qed.

Lemma target_not_above_child i j :
  is_prefix (T ++ [i]) (folder_path ++ [j]) = false.
Proof.
  unfold T. rewrite <- app_assoc. rewrite is_prefix_app_head.
  unfold is_prefix. cbn [app strip_prefix].
  destruct (String.eqb a j); [|reflexivity]. now destruct A'.
Qed.

Lemma target_not_above_root i : is_prefix (T ++ [i]) T = false.
Proof.
  rewrite <- (app_nil_r T) at 2. now rewrite is_prefix_app_head.
Qed.

Lemma source_apart_target i j :
  i <> a -> apart (folder_path ++ [i]) (T ++ [j]).
Proof.
  intros H r r' E. unfold T in E. rewrite <- !app_assoc in E.
  apply app_inv_head in E. cbn in E. congruence.
Qed.

Lemma swept_frame items :
  forall t q,
    (forall i, In i items ->
               is_prefix (folder_path ++ [i]) q = false /\
               is_prefix (T ++ [i]) q = false) ->
    (forall i, In i items -> i <> a) ->
    lookup q (swept folder_path T items t) = lookup q t.
Proof.
  induction items as [|i items IH]; intros t q Hq Ha; [reflexivity|].
  cbn [swept]. rewrite IH.
  - destruct (Hq i (or_introl eq_refl)) as [H1 H2].
    apply relocated_frame; [exact H1 | exact H2 |].
    apply apart_ne, source_apart_target, Ha. now left.
  - intros j Hj. apply Hq. now right.
  - intros j Hj. apply Ha. now right.
Qed.

Lemma swept_entries items :
  NoDup items ->
  (forall i, In i items -> i <> a) ->
  forall t,
    (forall i r, In i items -> lookup (T ++ i :: r) t = None) ->
    forall i, In i items ->
      lookup (T ++ [i]) (swept folder_path T items t)
      = lookup (folder_path ++ [i]) t /\
      lookup (folder_path ++ [i]) (swept folder_path T items t) = None /\
      (isdir_in t (folder_path ++ [i]) = true ->
       forall r, lookup (T ++ i :: r) (swept folder_path T items t)
                 = lookup (folder_path ++ i :: r) t).
Proof.
  induction items as [|i items IH]; intros Hnd Ha t Hfree x Hx;
    [destruct Hx|].
  inversion Hnd as [|i' items' Hni Hnd']; subst.
  assert (Hia : i <> a) by (apply Ha; now left).
  assert (Ha' : forall j, In j items -> j <> a)
    by (intros j Hj; apply Ha; now right).
  assert (Hne : forall j, In j items -> i <> j)
    by (intros j Hj ->; contradiction).
  assert (Hfree_i : forall r, lookup ((T ++ [i]) ++ r) t = None).
  { intros r. rewrite <- app_assoc. apply Hfree. now left. }
  set (t1 := relocated (folder_path ++ [i]) (T ++ [i]) t).
  assert (Hframe1 : forall q,
             is_prefix (folder_path ++ [i]) q = false ->
             is_prefix (T ++ [i]) q = false ->
             lookup q t1 = lookup q t).
  { intros q H1 H2. apply relocated_frame; auto.
    now apply apart_ne, source_apart_target. }
  assert (Hfree1 : forall j r, In j items -> lookup (T ++ j :: r) t1 = None).
  { intros j r Hj. rewrite Hframe1.
    - apply Hfree. now right.
    - now apply source_not_above_target.
    - apply target_not_above_other. now apply Hne. }
  cbn [swept]. fold t1.
  destruct Hx as [<- | Hx].
  - (* the entry moved first *)
    assert (Hrest : forall q,
               (forall j, In j items ->
                          is_prefix (folder_path ++ [j]) q = false /\
                          is_prefix (T ++ [j]) q = false) ->
               lookup q (swept folder_path T items t1) = lookup q t1).
    { intros q Hq. now apply swept_frame. }
    split; [|split].
    + rewrite Hrest.
      * apply relocated_target; [now apply source_apart_target | exact Hfree_i].
      * intros j Hj. split.
        -- apply (source_not_above_target j [i]). now apply Ha'.
        -- apply target_not_above_other. intros ->. now apply (Hne i).
    + rewrite Hrest.
      * apply relocated_source. now apply source_apart_target.
      * intros j Hj. split.
        -- apply source_not_above_other. intros ->. now apply (Hne i).
        -- now apply target_not_above_source.
    + intros Hd r. rewrite Hrest.
      * change (T ++ i :: r) with (T ++ [i] ++ r). rewrite app_assoc.
        change (folder_path ++ i :: r) with (folder_path ++ [i] ++ r).
        rewrite (app_assoc folder_path).
        apply relocated_below; [exact Hd | exact Hfree_i].
      * intros j Hj. split.
        -- apply source_not_above_target. now apply Ha'.
        -- apply target_not_above_other. intros ->. now apply (Hne i).
  - (* an entry moved later *)
    assert (Hxi : i <> x) by now apply Hne.
    destruct (IH Hnd' Ha' t1 Hfree1 x Hx) as [H1 [H2 H3]].
    assert (Hsrc : forall r, lookup (folder_path ++ x :: r) t1
                             = lookup (folder_path ++ x :: r) t).
    { intros r. apply Hframe1.
      - now apply source_not_above_other.
      - apply target_not_above_source. now apply Ha'. }
    split; [|split].
    + rewrite H1. apply Hsrc.
    + exact H2.
    + intros Hd r. rewrite H3; [apply Hsrc|].
      unfold isdir_in in *. now rewrite (Hsrc []).
Qed.

End Swept.

(** ** The loop of the old sweep when nothing is in its way *)

Lemma swept_state_nil folder_path target s :
  swept_state folder_path target [] s = s.
Proof.
  destruct s as [[fm sc er] t b n sl j a]. unfold swept_state, sizes.
  cbn. now rewrite app_nil_r, !Z.add_0_r.
Qed.

Lemma move_item_runs folder_path target item s :
  busy s = [] ->
  target <> [] ->
  isdir_in (files s) target = true ->
  exists_in (files s) (folder_path ++ [item]) = true ->
  lookup (target ++ [item]) (files s) = None ->
  is_prefix (folder_path ++ [item]) (target ++ [item]) = false ->
  Legacy.move_item folder_path target item s
  = (Ok tt, swept_state folder_path target [item] s).
Proof.
  intros Hb Hne Hd Hsrc Hfree Hpre.
  assert (Hnd : isdir_in (files s) (target ++ [item]) = false)
    by (unfold isdir_in; now rewrite Hfree).
  assert (Hnx : exists_in (files s) (target ++ [item]) = false)
    by (unfold exists_in; now rewrite Hfree).
  assert (Hrd : real_destination (files s) (folder_path ++ [item])
                  (target ++ [item]) = target ++ [item])
    by (unfold real_destination; now rewrite Hnd).
  rewrite move_item_unlocks.
  - rewrite Hb, busy_count_nil. cbn [after_failed_attempts].
    unfold after_successful_attempt, moved, swept_state, sizes, relocated.
    cbn [files set_stats stats files_moved space_cleared errors busy now
         slept journal attributes fold_right List.length map swept
         swept_attributes].
    rewrite Hrd. unfold exists_in in Hsrc.
    destruct (lookup (folder_path ++ [item]) (files s)) as [n|] eqn:E;
      [|discriminate].
    unfold renamed, set_stats, record, set_files, set_attributes, relocated.
    cbn [files stats files_moved space_cleared errors busy now slept journal
         attributes].
    replace (Z.of_nat 1) with 1%Z by reflexivity.
    now rewrite E, Z.add_0_r.
  - unfold move_possible, reaches_source. rewrite Hrd, Hnd, Hsrc, Hnx, Hpre.
    rewrite (parent_is_dir_child _ target item Hne), Hd. cbn.
    now destruct (lookup (folder_path ++ [item]) (files s)) as [[z|z]|].
  - unfold replaceable. now rewrite Hrd, Hnx.
  - rewrite Hb, busy_count_nil. lia.
Qed.

Lemma sizes_agree t t' folder_path items :
  (forall i, In i items ->
             lookup (folder_path ++ [i]) t' = lookup (folder_path ++ [i]) t) ->
  sizes t' folder_path items = sizes t folder_path items.
Proof.
  induction items as [|i items IH]; intros H; [reflexivity|].
  cbn [sizes fold_right]. fold (sizes t' folder_path items).
  fold (sizes t folder_path items). rewrite IH.
  - unfold size_in. now rewrite (H i (or_introl eq_refl)).
  - intros j Hj. apply H. now right.
Qed.

Section SweptLoop.

Variable folder_path : path.
Variable a : string.
Variable A' : list string.

Let T : path := folder_path ++ a :: A'.

Lemma move_loop_runs items :
  NoDup items ->
  (forall i, In i items -> i <> a) ->
  forall s,
    busy s = [] ->
    (items <> [] -> isdir_in (files s) T = true) ->
    (forall i, In i items -> exists_in (files s) (folder_path ++ [i]) = true) ->
    (forall i r, In i items -> lookup (T ++ i :: r) (files s) = None) ->
    for_each items (Legacy.move_item folder_path T) s
    = (Ok tt, swept_state folder_path T items s).
Proof.
  induction items as [|i items IH]; intros Hnd Ha s Hb Hd0 Hsrc Hfree.
  - now rewrite swept_state_nil.
  - assert (Hd : isdir_in (files s) T = true) by (apply Hd0; discriminate).
    inversion Hnd as [|i' items' Hni Hnd']; subst.
    assert (Hia : i <> a) by (apply Ha; now left).
    assert (Ha' : forall j, In j items -> j <> a)
      by (intros j Hj; apply Ha; now right).
    assert (Hne : forall j, In j items -> i <> j)
      by (intros j Hj ->; contradiction).
    assert (HT : T <> []) by (unfold T; now destruct folder_path).
    rewrite for_each_cons.
    rewrite (move_item_runs folder_path T i s Hb HT Hd).
    + set (s1 := swept_state folder_path T [i] s).
      assert (Hframe1 : forall q,
                 is_prefix (folder_path ++ [i]) q = false ->
                 is_prefix (T ++ [i]) q = false ->
                 lookup q (files s1) = lookup q (files s)).
      { intros q H1 H2. unfold s1, swept_state. cbn [files swept].
        apply relocated_frame; auto.
        now apply apart_ne, source_apart_target. }
      assert (Hsrc1 : forall j, In j items ->
                 lookup (folder_path ++ [j]) (files s1)
                 = lookup (folder_path ++ [j]) (files s)).
      { intros j Hj. apply Hframe1.
        - apply source_not_above_other. now apply Hne.
        - apply target_not_above_source. now apply Ha'. }
      rewrite (IH Hnd' Ha' s1).
      * f_equal. unfold swept_state.
        rewrite (sizes_agree (files s) (files s1)) by exact Hsrc1.
        unfold s1, swept_state, sizes.
        cbn [files stats files_moved space_cleared errors busy now slept
             journal swept fold_right List.length map].
        rewrite <- app_assoc. cbn [app].
        f_equal. f_equal; lia.
      * exact Hb.
      * intros _. unfold isdir_in. rewrite Hframe1; [exact Hd | |].
        -- rewrite <- (app_nil_r T). now apply source_not_above_target.
        -- apply target_not_above_root.
      * intros j Hj. unfold exists_in. rewrite Hsrc1 by exact Hj.
        apply Hsrc. now right.
      * intros j r Hj. rewrite Hframe1.
        -- apply Hfree. now right.
        -- now apply source_not_above_target.
        -- apply target_not_above_other. now apply Hne.
    + apply Hsrc. now left.
    + apply (Hfree i []). now left.
    + now apply source_not_above_target.
Qed.

End SweptLoop.

(** ** The old sweep when nothing is in its way *)

Lemma ensured_busy d s : busy (ensured d s) = busy s.
Proof. unfold ensured. now destruct (exists_in (files s) d). Qed.

Lemma ensured_now d s : now (ensured d s) = now s.
Proof. unfold ensured. now destruct (exists_in (files s) d). Qed.

Lemma ensured_stats d s : stats (ensured d s) = stats s.
Proof. unfold ensured. now destruct (exists_in (files s) d). Qed.

Lemma ensured_lookup d s q :
  lookup q (files (ensured d s))
  = match lookup q (files s) with
    | Some n => Some n
    | None => if path_eqb q d then Some (Dir 0) else None
    end.
Proof.
  unfold ensured, exists_in.
  destruct (lookup d (files s)) as [n|] eqn:E.
  - destruct (lookup q (files s)) eqn:Eq; [reflexivity|].
    destruct (path_eqb q d) eqn:P; [|reflexivity].
    apply path_eqb_eq in P. congruence.
  - cbn [record set_files files]. rewrite lookup_app. cbn [lookup].
    reflexivity.
Qed.

Lemma ensured_lookup_other d s q :
  q <> d -> lookup q (files (ensured d s)) = lookup q (files s).
Proof.
  intros H. rewrite ensured_lookup. apply path_eqb_neq in H. rewrite H.
  now destruct (lookup q (files s)).
Qed.

Lemma ensured_isdir d s :
  isfile_in (files s) d = false -> isdir_in (files (ensured d s)) d = true.
Proof.
  unfold isfile_in, isdir_in. rewrite ensured_lookup, path_eqb_refl.
  now destruct (lookup d (files s)) as [[z|z]|].
Qed.

Lemma ensured_listdir folder_path x s :
  exists l, listdir_in (files (ensured (folder_path ++ [x]) s)) folder_path
            = listdir_in (files s) folder_path ++ l /\
            (l = [] \/ l = [x]).
Proof.
  unfold ensured. destruct (exists_in _ _).
  - exists []. rewrite app_nil_r. auto.
  - exists [x]. cbn [record set_files files].
    rewrite listdir_in_new_child. auto.
Qed.

Lemma makedirs_ensured D c s :
  D <> [] ->
  isdir_in (files s) D = true ->
  isfile_in (files s) (D ++ [c]) = false ->
  os_makedirs (D ++ [c]) true s = (Ok tt, ensured (D ++ [c]) s).
Proof.
  intros Hne Hd Hf. rewrite makedirs_category by assumption.
  unfold ensured, exists_in, isfile_in in *.
  now destruct (lookup (D ++ [c]) (files s)) as [[z|z]|].
Qed.

Lemma legacy_organize_folder_returns folder_path s :
  fst (Legacy.organize_folder folder_path s) = Ok tt.
Proof.
  unfold Legacy.organize_folder, try_except.
  match goal with
  | |- fst (match ?c s with _ => _ end) = _ =>
      assert (H : finishes c); [|specialize (H s); destruct (c s) as [[[]|e|] s1]]
  end; try reflexivity; [|now cbn in H].
  apply finishes_bind; [intros x; discriminate|]. intros ex.
  destruct folder_path as [|c f]; [apply finishes_ret|].
  destruct (negb ex); [apply finishes_ret|].
  apply finishes_bind; [intros x; discriminate|]. intros ea.
  apply finishes_bind;
    [apply finishes_when, os_makedirs_finishes|]. intros _.
  apply finishes_bind; [intros x; discriminate|]. intros ts x.
  pose proof (os_listdir_finishes (c :: f) x) as Hl.
  destruct (os_listdir (c :: f) x) as [[l|e|] x1]; cbn [fst] in *;
    [|discriminate|congruence].
  assert (Hf : finishes (Legacy.filter_items (c :: f) l)).
  { intros y. now rewrite filter_items_pure. }
  apply finishes_bind; [exact Hf|]. intros [|i l'];
    [apply finishes_ret|].
  apply finishes_bind; [apply os_makedirs_finishes|]. intros _.
  apply finishes_for_each. intros item y.
  pose proof (move_item_outcome (c :: f) ((c :: f) ++ ["Archive"] ++ [ts])
                item y) as [H _].
  rewrite app_assoc in H. now rewrite H.
Qed.

Lemma eligible_not_archive t folder_path item :
  eligible t folder_path item = true -> item <> "Archive".
Proof.
  unfold eligible. intros H ->. now rewrite String.eqb_refl in H.
Qed.

Lemma NoDup_filter A (f : A -> bool) l : NoDup l -> NoDup (filter f l).
Proof.
  induction 1 as [|x l Hx Hnd IH]; simpl; [constructor|].
  destruct (f x); [|exact IH].
  constructor; [|exact IH]. intros H. apply filter_In in H. tauto.
Qed.

Lemma filter_ext_in A (f g : A -> bool) l :
  (forall x, In x l -> f x = g x) -> filter f l = filter g l.
Proof.
  induction l as [|x l IH]; simpl; intros H; [reflexivity|].
  rewrite (H x) by now left. rewrite IH; [reflexivity|].
  intros y Hy. apply H. now right.
Qed.

Lemma eligible_agree t t' folder_path item :
  isdir_in t' (folder_path ++ [item]) = isdir_in t (folder_path ++ [item]) ->
  eligible t' folder_path item = eligible t folder_path item.
Proof. unfold eligible, system_entry. now intros ->. Qed.

Lemma legacy_sweep_runs folder_path s :
  folder_path <> [] ->
  isdir_in (files s) folder_path = true ->
  isfile_in (files s) (folder_path ++ ["Archive"]) = false ->
  isfile_in (files s) (folder_path ++ ["Archive"; now s]) = false ->
  let to_move := filter (eligible (files s) folder_path)
                        (listdir_in (files s) folder_path) in
  Legacy.organize_folder folder_path s
  = for_each to_move
      (Legacy.move_item folder_path (folder_path ++ ["Archive"; now s]))
      (prepared folder_path to_move s).
Proof.
  intros Hne Hd Hfa Hfd to_move.
  assert (Hex : exists_in (files s) folder_path = true)
    by (apply (proj1 (exists_isdir_isfile (files s) folder_path)); exact Hd).
  set (A := folder_path ++ ["Archive"]).
  set (s1 := ensured A s).
  assert (Hroot : when (negb (exists_in (files s) A)) (os_makedirs A false) s
                  = (Ok tt, s1)).
  { unfold A, s1, ensured. rewrite ensure_archive_root by assumption.
    fold A. destruct (exists_in (files s) A); [reflexivity|]. now rewrite Hd. }
  assert (Hd1 : isdir_in (files s1) folder_path = true).
  { unfold isdir_in, s1 in *. rewrite ensured_lookup.
    now destruct (lookup folder_path (files s)) as [[z|z]|]. }
  assert (Hl1 : filter (eligible (files s1) folder_path)
                       (listdir_in (files s1) folder_path) = to_move).
  { destruct (ensured_listdir folder_path "Archive" s) as [l [Hl Hc]].
    fold A in Hl. fold s1 in Hl. rewrite Hl, filter_app.
    assert (Hel : forall item,
               In item (listdir_in (files s) folder_path) ->
               eligible (files s1) folder_path item
               = eligible (files s) folder_path item).
    { intros item Hin. apply eligible_agree. unfold isdir_in, s1.
      rewrite ensured_lookup. apply listed_exists in Hin.
      unfold exists_in in Hin.
      now destruct (lookup (folder_path ++ [item]) (files s)). }
    rewrite (filter_ext_in _ _ _ _ Hel). fold to_move.
    destruct Hc as [-> | ->]; cbn [filter]; [now rewrite app_nil_r|].
    unfold eligible at 1. rewrite String.eqb_refl. cbn. now rewrite app_nil_r. }
  assert (Hpair : forall (c : M unit) x, c x = (fst (c x), snd (c x)))
    by (intros c x; now destruct (c x)).
  rewrite (Hpair (Legacy.organize_folder folder_path)).
  rewrite legacy_organize_folder_returns, organize_folder_state.
  destruct folder_path as [|c f]; [congruence|].
  set (folder_path := c :: f) in *.
  rewrite Hex. cbn [negb]. cbv iota. fold A. rewrite Hroot. cbn [fst snd].
  unfold isdir_in in Hd1.
  destruct (lookup folder_path (files s1)) as [[z|z]|]; try discriminate.
  rewrite Hl1. unfold prepared. fold A. fold s1.
  assert (Hnow : now s1 = now s) by apply ensured_now.
  rewrite Hnow.
  destruct to_move as [|i l] eqn:Et; [reflexivity|].
  rewrite <- Et.
  replace (folder_path ++ ["Archive"; now s]) with (A ++ [now s])
    by (unfold A; now rewrite <- app_assoc).
  assert (HdA : isdir_in (files s1) A = true)
    by (apply ensured_isdir; exact Hfa).
  assert (HfD : isfile_in (files s1) (A ++ [now s]) = false).
  { unfold isfile_in, s1. rewrite ensured_lookup_other.
    - replace (A ++ [now s]) with (folder_path ++ ["Archive"; now s])
        by (unfold A; now rewrite <- app_assoc).
      exact Hfd.
    - intros H. rewrite <- (app_nil_r A) in H at 2.
      apply app_inv_head in H. discriminate. }
  assert (HneA : A <> []) by (unfold A; now destruct folder_path).
  unfold bind at 1.
  rewrite (makedirs_ensured A (now s) s1 HneA HdA HfD).
  set (s2 := ensured (A ++ [now s]) s1).
  pose proof (move_loop_outcome folder_path (A ++ [now s]) to_move s2)
    as [Hok _].
  destruct (for_each to_move (Legacy.move_item folder_path (A ++ [now s])) s2)
    as [r s3]. cbn [fst snd] in *. now subst r.
Qed.

Lemma prepared_stats folder_path to_move s :
  stats (prepared folder_path to_move s) = stats s.
Proof.
  unfold prepared. destruct to_move; now rewrite ?ensured_stats.
Qed.

Lemma prepared_busy folder_path to_move s :
  busy (prepared folder_path to_move s) = busy s.
Proof.
  unfold prepared. destruct to_move; now rewrite ?ensured_busy.
Qed.

Lemma prepared_lookup_kept folder_path to_move s q n :
  lookup q (files s) = Some n ->
  lookup q (files (prepared folder_path to_move s)) = Some n.
Proof.
  intros H. unfold prepared.
  destruct to_move; rewrite ?ensured_lookup; now rewrite H.
Qed.

Lemma prepared_lookup_other folder_path to_move s q :
  q <> folder_path ++ ["Archive"] ->
  q <> folder_path ++ ["Archive"; now s] ->
  lookup q (files (prepared folder_path to_move s)) = lookup q (files s).
Proof.
  intros H1 H2. unfold prepared.
  destruct to_move; rewrite ?ensured_lookup_other; auto.
Qed.

Lemma prepared_lookup_below folder_path to_move s item r :
  item <> "Archive" ->
  lookup (folder_path ++ item :: r) (files (prepared folder_path to_move s))
  = lookup (folder_path ++ item :: r) (files s).
Proof.
  intros H. apply prepared_lookup_other; intros E;
    apply app_inv_head in E; congruence.
Qed.

Lemma prepared_lookup_listed folder_path to_move s item :
  In item (listdir_in (files s) folder_path) ->
  lookup (folder_path ++ [item]) (files (prepared folder_path to_move s))
  = lookup (folder_path ++ [item]) (files s).
Proof.
  intros Hin. apply listed_exists in Hin. unfold exists_in in Hin.
  destruct (lookup (folder_path ++ [item]) (files s)) as [n|] eqn:E;
    [|discriminate].
  now apply prepared_lookup_kept.
Qed.

Lemma prepared_isdir folder_path to_move s :
  to_move <> [] ->
  isfile_in (files s) (folder_path ++ ["Archive"; now s]) = false ->
  isdir_in (files (prepared folder_path to_move s))
    (folder_path ++ ["Archive"; now s]) = true.
Proof.
  intros Hto Hfd. unfold prepared. destruct to_move; [congruence|].
  apply ensured_isdir. unfold isfile_in.
  rewrite ensured_lookup_other; [exact Hfd|].
  intros E. rewrite <- (app_nil_r (folder_path ++ ["Archive"])) in E.
  replace (folder_path ++ ["Archive"; now s])
    with ((folder_path ++ ["Archive"]) ++ [now s]) in E
    by now rewrite <- app_assoc.
  apply app_inv_head in E. discriminate.
Qed.


(** X2: when nothing is in its way, the old sweep moves every eligible
    entry, with what is below it, into the dated subfolder under its own
    name, leaves the other entries where they are, and counts each move and
    each size once. *)
Theorem sweep_archives_every_eligible_entry folder_path s :
  folder_path <> [] ->
  isdir_in (files s) folder_path = true ->
  isfile_in (files s) (folder_path ++ ["Archive"]) = false ->
  isfile_in (files s) (folder_path ++ ["Archive"; now s]) = false ->
  busy s = [] ->
  NoDup (listdir_in (files s) folder_path) ->
  let dated_subfolder := folder_path ++ ["Archive"; now s] in
  let to_move := filter (eligible (files s) folder_path)
                        (listdir_in (files s) folder_path) in
  (forall item rest,
      In item to_move ->
      lookup (dated_subfolder ++ item :: rest) (files s) = None) ->
  let s' := snd (Legacy.organize_folder folder_path s) in
  (forall item,
      In item to_move ->
      lookup (dated_subfolder ++ [item]) (files s')
      = lookup (folder_path ++ [item]) (files s) /\
      lookup (folder_path ++ [item]) (files s') = None /\
      (isdir_in (files s) (folder_path ++ [item]) = true ->
       forall rest,
         lookup (dated_subfolder ++ item :: rest) (files s')
         = lookup (folder_path ++ item :: rest) (files s))) /\
  (forall item,
      In item (listdir_in (files s) folder_path) ->
      eligible (files s) folder_path item = false ->
      lookup (folder_path ++ [item]) (files s')
      = lookup (folder_path ++ [item]) (files s)) /\
  stats s'
  = mkStats (files_moved (stats s) + Z.of_nat (List.length to_move))
            (space_cleared (stats s) + sizes (files s) folder_path to_move)
            (errors (stats s)).
Proof.
  intros Hne Hd Hfa Hfd Hb Hnd dated to_move Hfree. cbv zeta.
  rewrite legacy_sweep_runs by assumption. fold to_move. fold dated.
  set (s2 := prepared folder_path to_move s).
  assert (Hin : forall i, In i to_move ->
                  In i (listdir_in (files s) folder_path) /\
                  eligible (files s) folder_path i = true)
    by (intros i Hi; now apply filter_In in Hi).
  assert (Ha : forall i, In i to_move -> i <> "Archive")
    by (intros i Hi; eapply eligible_not_archive, Hin, Hi).
  assert (Hnd' : NoDup to_move) by now apply NoDup_filter.
  assert (Hsrc2 : forall i r, In i to_move ->
                    lookup (folder_path ++ i :: r) (files s2)
                    = lookup (folder_path ++ i :: r) (files s))
    by (intros i r Hi; apply prepared_lookup_below; now apply Ha).
  assert (Hfree2 : forall i r, In i to_move ->
                     lookup (dated ++ i :: r) (files s2) = None).
  { intros i r Hi. unfold s2. rewrite prepared_lookup_other.
    - now apply Hfree.
    - intros E. unfold dated in E. rewrite <- app_assoc in E.
      apply app_inv_head in E. discriminate.
    - intros E. rewrite <- (app_nil_r (folder_path ++ _)) in E.
      apply app_inv_head in E. discriminate. }
  assert (Hrun : for_each to_move (Legacy.move_item folder_path dated) s2
                 = (Ok tt, swept_state folder_path dated to_move s2)).
  { apply (move_loop_runs folder_path "Archive" [now s] to_move Hnd' Ha).
    - unfold s2. now rewrite prepared_busy.
    - intros Hto. unfold s2. now apply prepared_isdir.
    - intros i Hi. unfold exists_in. rewrite (Hsrc2 i [] Hi).
      apply Hin, proj1, listed_exists in Hi. exact Hi.
    - exact Hfree2. }
  rewrite Hrun. cbn [snd].
  assert (Hfiles : files (swept_state folder_path dated to_move s2)
                   = swept folder_path dated to_move (files s2))
    by reflexivity.
  rewrite Hfiles.
  split; [|split].
  - intros i Hi.
    destruct (swept_entries folder_path "Archive" [now s] to_move Hnd' Ha
                (files s2) Hfree2 i Hi) as [H1 [H2 H3]].
    fold dated in H1, H2, H3.
    split; [|split].
    + rewrite H1. apply (Hsrc2 i [] Hi).
    + exact H2.
    + intros Hdi r. rewrite H3; [now apply Hsrc2|].
      unfold isdir_in in *. now rewrite (Hsrc2 i [] Hi).
  - intros j Hj Hel.
    rewrite (swept_frame folder_path "Archive" [now s]).
    + now apply prepared_lookup_listed.
    + intros i Hi. split.
      * apply source_not_above_other. intros ->.
        destruct (Hin j Hi) as [_ He]. congruence.
      * apply target_not_above_child.
    + exact Ha.
  - unfold swept_state. cbn [stats]. unfold s2. rewrite prepared_stats.
    rewrite (sizes_agree (files s)); [reflexivity|].
    intros i Hi. apply (Hsrc2 i [] Hi).
Qed.

(** ** The shortcut pass *)


(** ** The shortcut pass when nothing is in its way *)




Lemma ensured_isdir_kept d s q :
  isdir_in (files s) q = true -> isdir_in (files (ensured d s)) q = true.
Proof.
  unfold isdir_in. rewrite ensured_lookup.
  now destruct (lookup q (files s)) as [[z|z]|].
Qed.






Section ShortcutLoop.

Variable folder_path : path.
Variable a : string.
Variable A' : list string.

Let T : path := folder_path ++ a :: A'.


End ShortcutLoop.












(** ** A locked entry in the old sweep *)

Lemma for_each_app A (l1 l2 : list A) body s :
  for_each (l1 ++ l2) body s
  = match for_each l1 body s with
    | (Ok _, s1) => for_each l2 body s1
    | (Raise e, s1) => (Raise e, s1)
    | (Unfinished, s1) => (Unfinished, s1)
    end.
Proof.
  revert s. induction l1 as [|x l1 IH]; intros s; [reflexivity|].
  cbn [app]. rewrite !for_each_cons.
  destruct (body x s) as [[[]|e|] s1]; [apply IH | reflexivity | reflexivity].
Qed.

(** C8: a locked entry is tried three times, no more, and the sweep goes on.
    In the mover: when the lock outlasts three attempts, each attempt is
    followed by one second of sleep, the entry stays where it is, [errors]
    grows by one and [files_moved] does not change; when the lock is gone
    after [k < 3] attempts, the next attempt moves the entry, after [k]
    seconds of sleep.  In the sweep: [organize_folder] returns normally
    whatever fails, every eligible entry is counted once, as moved or as an
    error, and after an entry whose lock outlasts the three attempts the
    sweep runs on as the loop over the eligible entries that follow it. *)
Theorem locked_entry_is_tried_three_times folder_path s :
  (forall dated_subfolder item s0,
      reaches_source (files s0) (folder_path ++ [item])
        (dated_subfolder ++ [item]) = true ->
      let item_path := folder_path ++ [item] in
      let size := size_in (files s0) item_path in
      let locks := busy_count item_path (busy s0) in
      ((3 <= locks)%nat ->
       let s' := after_exhausted_retries item_path size s0 in
       Legacy.move_item folder_path dated_subfolder item s0 = (Ok tt, s') /\
       busy_count item_path (busy s') = (locks - 3)%nat /\
       slept s' = (slept s0 + 3)%nat /\
       errors (stats s') = (errors (stats s0) + 1)%Z /\
       files_moved (stats s') = files_moved (stats s0) /\
       files s' = files s0 /\
       journal s' = journal s0 /\
       forall rest,
         for_each (item :: rest) (Legacy.move_item folder_path dated_subfolder)
           s0
         = for_each rest (Legacy.move_item folder_path dated_subfolder) s') /\
      ((locks < 3)%nat ->
       move_possible (files s0) item_path (dated_subfolder ++ [item]) = true ->
       replaceable s0 item_path (dated_subfolder ++ [item]) = true ->
       let s' := after_successful_attempt item_path (dated_subfolder ++ [item])
                   size (after_failed_attempts locks item_path size s0) in
       Legacy.move_item folder_path dated_subfolder item s0 = (Ok tt, s') /\
       slept s' = (slept s0 + locks)%nat /\
       errors (stats s') = errors (stats s0) /\
       files_moved (stats s') = (files_moved (stats s0) + 1)%Z)) /\
  (folder_path <> [] ->
   isdir_in (files s) folder_path = true ->
   isfile_in (files s) (folder_path ++ ["Archive"]) = false ->
   isfile_in (files s) (folder_path ++ ["Archive"; now s]) = false ->
   let dated_subfolder := folder_path ++ ["Archive"; now s] in
   let to_move := filter (eligible (files s) folder_path)
                         (listdir_in (files s) folder_path) in
   let s' := snd (Legacy.organize_folder folder_path s) in
   fst (Legacy.organize_folder folder_path s) = Ok tt /\
   (files_moved (stats s') + errors (stats s')
    = files_moved (stats s) + errors (stats s)
      + Z.of_nat (List.length to_move))%Z /\
   forall before item after,
     to_move = before ++ item :: after ->
     let s1 := snd (for_each before
                      (Legacy.move_item folder_path dated_subfolder)
                      (prepared folder_path to_move s)) in
     let item_path := folder_path ++ [item] in
     reaches_source (files s1) item_path (dated_subfolder ++ [item]) = true ->
     (3 <= busy_count item_path (busy s1))%nat ->
     Legacy.organize_folder folder_path s
     = for_each after (Legacy.move_item folder_path dated_subfolder)
         (after_exhausted_retries item_path (size_in (files s1) item_path)
            s1)).
Proof.
  split.
  - intros dated_subfolder item s0 Hr item_path size locks.
    subst item_path size locks. split.
    + intros Hl. cbv zeta.
      split; [apply move_item_locked; assumption|].
      split; [|split; [|split; [|split; [|split; [|split]]]]].
      * unfold after_exhausted_retries. cbn [set_stats busy].
        apply after_failed_attempts_busy.
      * unfold after_exhausted_retries. cbn [set_stats slept].
        apply after_failed_attempts_slept.
      * unfold after_exhausted_retries. cbn [set_stats stats errors].
        now rewrite after_failed_attempts_stats.
      * unfold after_exhausted_retries. cbn [set_stats stats files_moved].
        now rewrite after_failed_attempts_stats.
      * unfold after_exhausted_retries. cbn [set_stats files].
        apply after_failed_attempts_files.
      * unfold after_exhausted_retries. cbn [set_stats journal].
        apply after_failed_attempts_journal.
      * intros rest. cbn [for_each]. unfold bind at 1.
        now rewrite move_item_locked by assumption.
    + intros Hl Hm Hw. cbv zeta.
      split; [apply move_item_unlocks; assumption|].
      unfold after_successful_attempt, moved.
      destruct (lookup _ _);
        unfold renamed, record, set_files, set_attributes;
        cbn [set_stats stats files busy now slept journal errors files_moved
             space_cleared];
        rewrite after_failed_attempts_slept, after_failed_attempts_stats;
        repeat split; reflexivity.
  - intros Hne Hd Hfa Hfd dated_subfolder to_move s'.
    subst s'. rewrite legacy_sweep_runs by assumption.
    fold to_move. fold dated_subfolder.
    pose proof (move_loop_outcome folder_path dated_subfolder to_move
                  (prepared folder_path to_move s)) as [Hok [Hsum _]].
    rewrite prepared_stats in Hsum.
    split; [exact Hok|]. split; [exact Hsum|].
    intros before item after Hsplit s1 item_path Hr Hl.
    rewrite Hsplit at 1. rewrite for_each_app.
    pose proof (move_loop_outcome folder_path dated_subfolder before
                  (prepared folder_path to_move s)) as [Hb _].
    fold s1.
    destruct (for_each before (Legacy.move_item folder_path dated_subfolder)
                (prepared folder_path to_move s)) as [r x] eqn:E.
    cbn [fst snd] in *. subst r. subst s1. cbn [snd].
    rewrite for_each_cons.
    now rewrite move_item_locked by assumption.
Qed.

Lemma locked_entry_is_tried_three_times_witness :
  Legacy.organize_folder Sample.desktop
    (Sample.fresh Sample.scenario1 [(Sample.desktop ++ ["report.pdf"], 5%nat)])
  = (Ok tt,
     mkState (mkStats 1 550 1)
       [ (Sample.desktop, Dir 0);
         (Sample.desktop ++ ["report.pdf"], File 100);
         (Sample.dated ++ ["photo.jpg"], File 250);
         (Sample.desktop ++ ["Archive"], Dir 0);
         (Sample.dated, Dir 0) ]
       [(Sample.desktop ++ ["report.pdf"], 2%nat)]
       "Mar-14-2024_09-30AM" 3
       [ Created Sample.dated;
         Moved (Sample.desktop ++ ["photo.jpg"]) (Sample.dated ++ ["photo.jpg"]) ]).
Proof.
  destruct (locked_entry_is_tried_three_times Sample.desktop
              (Sample.fresh Sample.scenario1
                 [(Sample.desktop ++ ["report.pdf"], 5%nat)])) as [_ H].
  destruct (H ltac:(discriminate) eq_refl eq_refl eq_refl) as [_ [_ Hrun]].
  rewrite (Hrun [] "report.pdf" ["photo.jpg"] eq_refl eq_refl
             ltac:(vm_compute; lia)).
  vm_compute. reflexivity.
Defined.

(** ** Where the forward sweeps put what they move *)




(** ** The repair sweeps on the object as it is constructed *)

Lemma unchanged_pre :
  (forall s, unchanged s s) /\
  (forall a b c, unchanged a b -> unchanged b c -> unchanged a c).
Proof. unfold unchanged. split; congruence. Qed.

Ltac only_reads :=
  let s := fresh "s" in
  intros s; cbv beta delta [unchanged]; simpl;
  repeat (break_match; simpl); reflexivity.

Lemma os_path_exists_unchanged p : preserves unchanged (os_path_exists p).
Proof. only_reads. Qed.

Lemma os_path_isdir_unchanged p : preserves unchanged (os_path_isdir p).
Proof. only_reads. Qed.

Lemma os_path_isfile_unchanged p : preserves unchanged (os_path_isfile p).
Proof. only_reads. Qed.

Lemma os_listdir_unchanged p : preserves unchanged (os_listdir p).
Proof. unfold os_listdir. only_reads. Qed.

(** Reading [self.categories] while it is not set ends whatever was to
    follow. *)
Lemma getattr_unbound A (k : category_table -> M A) s :
  bind (FileOrganizer.getattr_categories FileOrganizer.categories_after_init)
       k s
  = (Raise AttributeError, s).
Proof. reflexivity. Qed.

Lemma getattr_unbound_unchanged A (k : category_table -> M A) :
  preserves unchanged
    (bind (FileOrganizer.getattr_categories
             FileOrganizer.categories_after_init) k).
Proof. intros s. now rewrite getattr_unbound. Qed.

Lemma getattr_unbound_finishes A (k : category_table -> M A) :
  finishes
    (bind (FileOrganizer.getattr_categories
             FileOrganizer.categories_after_init) k).
Proof. intros s. now rewrite getattr_unbound. Qed.

Ltac unchanged_step :=
  first
    [ apply getattr_unbound_unchanged
    | apply os_path_exists_unchanged
    | apply os_path_isdir_unchanged
    | apply os_path_isfile_unchanged
    | apply os_listdir_unchanged
    | through unchanged_pre ].

Lemma os_path_exists_finishes p : finishes (os_path_exists p).
Proof. intros s. discriminate. Qed.

Lemma os_path_isdir_finishes p : finishes (os_path_isdir p).
Proof. intros s. discriminate. Qed.

Lemma os_path_isfile_finishes p : finishes (os_path_isfile p).
Proof. intros s. discriminate. Qed.

(** A guarded block that ends and changes nothing is a no-op. *)
Lemma try_except_idle (c : M unit) s :
  finishes c -> preserves unchanged c ->
  try_except c (fun _ => ret tt) s = (Ok tt, s).
Proof.
  intros Hf Hu. specialize (Hf s). specialize (Hu s).
  unfold try_except, unchanged in *.
  destruct (c s) as [[[]|e|] s1]; simpl in *; subst;
    [reflexivity | reflexivity | congruence].
Qed.

Lemma fix_dated_folder_unbound archive_path dated_folder :
  preserves unchanged
    (FileOrganizer.fix_dated_folder FileOrganizer.categories_after_init
       archive_path dated_folder) /\
  finishes
    (FileOrganizer.fix_dated_folder FileOrganizer.categories_after_init
       archive_path dated_folder).
Proof.
  unfold FileOrganizer.fix_dated_folder. split.
  - repeat unchanged_step.
  - apply finishes_bind; [apply os_path_isdir_finishes|].
    intros b. apply finishes_when. apply getattr_unbound_finishes.
Qed.

Lemma fix_onedrive_archives_unbound home s :
  FileOrganizer.fix_onedrive_archives FileOrganizer.categories_after_init
    home s
  = (Ok tt, s).
Proof.
  unfold FileOrganizer.fix_onedrive_archives. apply try_except_idle.
  - apply finishes_for_each. intros A. unfold FileOrganizer.fix_archive.
    apply finishes_bind; [apply os_path_exists_finishes|].
    intros b. apply finishes_when.
    apply finishes_bind; [apply os_listdir_finishes|].
    intros l. apply finishes_for_each. intros d.
    apply fix_dated_folder_unbound.
  - unchanged_step. unfold FileOrganizer.fix_archive.
    repeat unchanged_step.
Qed.


Lemma os_walk_unchanged visit :
  (forall root dirs files_, preserves unchanged (visit root dirs files_)) ->
  forall fuel top, preserves unchanged (FileOrganizer.os_walk fuel top visit).
Proof.
  intros Hv fuel. induction fuel as [|fuel IH]; intros top s;
    [reflexivity|].
  cbn [FileOrganizer.os_walk].
  destruct (lookup top (files s)) as [[z|z]|]; try reflexivity.
  apply preserves_bind; [exact unchanged_pre | apply Hv |].
  intros _. apply preserves_for_each; [exact unchanged_pre|].
  intros d _. apply IH.
Qed.


(** ** What the repair of the OneDrive archives can move *)



(** ** The repair walk and a file that is filed already *)


(** ** Sample runs of the old sweep *)

Ltac no_dup :=
  vm_compute;
  repeat (constructor; [cbn; intuition discriminate|]); constructor.

Lemma sweep_archives_every_eligible_entry_witness :
  let s' := snd (Legacy.organize_folder Sample.desktop
                   (Sample.fresh Sample.scenario1 [])) in
  lookup (Sample.dated ++ ["report.pdf"]) (files s') = Some (File 100) /\
  lookup (Sample.desktop ++ ["report.pdf"]) (files s') = None /\
  stats s' = mkStats 2 350 0.
Proof.
  assert (Hne : Sample.desktop <> []) by discriminate.
  assert (Hnd : NoDup (listdir_in (files (Sample.fresh Sample.scenario1 []))
                         Sample.desktop)) by no_dup.
  destruct (sweep_archives_every_eligible_entry Sample.desktop
              (Sample.fresh Sample.scenario1 []) Hne eq_refl eq_refl eq_refl
              eq_refl Hnd)
    as [Hmoved [_ Hstats]].
  - intros item rest _. vm_compute. reflexivity.
  - destruct (Hmoved "report.pdf") as [H1 [H2 _]].
    + vm_compute. now left.
    + split; [exact H1|]. split; [exact H2|]. exact Hstats.
Defined.


(** ** The new file never counts *)

Lemma strftime_now_same_stats : preserves same_stats strftime_now.
Proof. reads_only. Qed.

Lemma set_folder_color_same_stats folder_path category :
  preserves same_stats (FileOrganizer.set_folder_color folder_path category).
Proof. unfold FileOrganizer.set_folder_color. repeat same_stats_step. Qed.

Lemma set_folder_icon_and_color_same_stats folder_path category :
  preserves same_stats
    (FileOrganizer.set_folder_icon_and_color folder_path category).
Proof.
  unfold FileOrganizer.set_folder_icon_and_color. repeat same_stats_step.
Qed.

Lemma current_organize_folder_same_stats folder_path :
  preserves same_stats (FileOrganizer.organize_folder folder_path).
Proof.
  unfold FileOrganizer.organize_folder.
  same_stats_step; [|same_stats_step].
  same_stats_step; [same_stats_step|].
  destruct folder_path; [same_stats_step|].
  destruct (negb a); [same_stats_step|].
  same_stats_step; [same_stats_step|].
  destruct (filter _ a0); [same_stats_step|].
  repeat first [ apply set_folder_color_same_stats
               | apply strftime_now_same_stats | same_stats_step ].
Qed.

Ltac stats_step :=
  first [ apply strftime_now_same_stats
        | apply set_folder_color_same_stats
        | apply set_folder_icon_and_color_same_stats
        | apply current_organize_folder_same_stats
        | apply move_to_category_same_stats
        | apply fix_onedrive_archives_same_stats
        | same_stats_step ].

Lemma handle_shortcuts_first_same_stats folder_path :
  preserves same_stats (FileOrganizer.handle_shortcuts_first folder_path).
Proof. unfold FileOrganizer.handle_shortcuts_first. repeat stats_step. Qed.

Lemma move_shortcuts_same_stats folder_path :
  preserves same_stats (FileOrganizer.move_shortcuts folder_path).
Proof. unfold FileOrganizer.move_shortcuts. repeat stats_step. Qed.

Lemma update_existing_archives_same_stats self_categories root_path :
  preserves same_stats
    (FileOrganizer.update_existing_archives self_categories root_path).
Proof. unfold FileOrganizer.update_existing_archives. repeat stats_step. Qed.

Lemma force_update_onedrive_archive_same_stats self_categories home :
  preserves same_stats
    (FileOrganizer.force_update_onedrive_archive self_categories home).
Proof.
  unfold FileOrganizer.force_update_onedrive_archive. repeat stats_step.
Qed.

Lemma get_onedrive_archives_same_stats business personal :
  preserves same_stats (FileOrganizer.get_onedrive_archives business personal).
Proof.
  unfold FileOrganizer.get_onedrive_archives, FileOrganizer.winreg_UserFolder.
  repeat first [ stats_step | break_match ].
Qed.

Lemma update_all_archives_same_stats self_categories desktop_path
  downloads_path business personal fuel :
  preserves same_stats
    (FileOrganizer.update_all_archives self_categories desktop_path
       downloads_path business personal fuel).
Proof.
  unfold FileOrganizer.update_all_archives.
  stats_step; [|stats_step].
  stats_step; [apply get_onedrive_archives_same_stats|].
  stats_step. stats_step; [stats_step|]. stats_step.
  apply os_walk_same_stats. intros root dirs fs.
  unfold FileOrganizer.update_walked. repeat stats_step.
Qed.

Lemma current_organize_same_stats self_categories home desktop_path
  downloads_path :
  preserves same_stats
    (FileOrganizer.organize self_categories home desktop_path downloads_path).
Proof.
  unfold FileOrganizer.organize, print_statistics.
  repeat first [ stats_step | break_match ].
Qed.

(** X3: the forward side of the new file never writes [self.stats]: the
    full run [organize], its forward sweep and the two shortcut movers
    leave the three counters as they found them, whatever they move and
    however they end, so the statistics [organize] prints are those of the
    start. *)
Theorem new_sweeps_never_count self_categories home desktop_path
  downloads_path folder_path s :
  stats (snd (FileOrganizer.organize self_categories home desktop_path
                downloads_path s)) = stats s /\
  stats (snd (FileOrganizer.organize_folder folder_path s)) = stats s /\
  stats (snd (FileOrganizer.handle_shortcuts_first folder_path s))
  = stats s /\
  stats (snd (FileOrganizer.move_shortcuts folder_path s)) = stats s.
Proof.
  repeat split.
  - apply current_organize_same_stats.
  - apply current_organize_folder_same_stats.
  - apply handle_shortcuts_first_same_stats.
  - apply move_shortcuts_same_stats.
Qed.

(** X4: the archive updaters [update_existing_archives],
    [force_update_onedrive_archive] and [update_all_archives] leave the
    three counters as they found them, whatever they create or move. *)
Theorem archive_updaters_never_count self_categories home desktop_path
  downloads_path business personal fuel root_path s :
  stats (snd (FileOrganizer.update_existing_archives self_categories
                root_path s)) = stats s /\
  stats (snd (FileOrganizer.force_update_onedrive_archive self_categories
                home s)) = stats s /\
  stats (snd (FileOrganizer.update_all_archives self_categories desktop_path
                downloads_path business personal fuel s)) = stats s.
Proof.
  repeat split.
  - apply update_existing_archives_same_stats.
  - apply force_update_onedrive_archive_same_stats.
  - apply update_all_archives_same_stats.
Qed.

(** ** The old [organize] *)

Lemma legacy_organize_folder_preserves (R : State -> State -> Prop)
  (R_pre : (forall s, R s s) /\ (forall a b c, R a b -> R b c -> R a c))
  folder_path :
  (forall name exist_ok, preserves R (os_makedirs name exist_ok)) ->
  (forall dated item, preserves R (Legacy.move_item folder_path dated item)) ->
  preserves R (Legacy.organize_folder folder_path).
Proof.
  intros Hmk Hmv s. destruct R_pre as [Hrefl Htrans].
  rewrite organize_folder_state.
  destruct folder_path as [|c folder]; [apply Hrefl|].
  set (folder_path := c :: folder) in *.
  destruct (negb (exists_in (files s) folder_path)); [apply Hrefl|].
  set (archive_folder := folder_path ++ ["Archive"]).
  assert (H1 : preserves R
                 (when (negb (exists_in (files s) archive_folder))
                       (os_makedirs archive_folder false)))
    by (apply preserves_when; [now split | apply Hmk]).
  specialize (H1 s).
  destruct (when (negb (exists_in (files s) archive_folder))
                 (os_makedirs archive_folder false) s) as [r s1].
  cbn [fst snd] in *.
  destruct r as [u|e|]; try exact H1.
  destruct (lookup folder_path (files s1)) as [[z|z]|]; try exact H1.
  destruct (filter (eligible (files s1) folder_path)
                   (listdir_in (files s1) folder_path)) as [|x l];
    [exact H1|].
  eapply Htrans; [exact H1|].
  match goal with
  | |- R s1 (snd (?c s1)) => assert (H2 : preserves R c)
  end.
  { apply preserves_bind; [now split | apply Hmk | intros _].
    apply preserves_for_each; [now split | intros item _]. apply Hmv. }
  apply H2.
Qed.

Lemma legacy_organize_folder_counted folder_path :
  preserves counted (Legacy.organize_folder folder_path).
Proof.
  apply legacy_organize_folder_preserves.
  - exact counted_pre.
  - apply os_makedirs_counted.
  - intros dated item. apply move_item_counted.
Qed.

Lemma legacy_sweeps_return l s :
  fst (for_each l Legacy.organize_folder s) = Ok tt.
Proof.
  revert s. induction l as [|p l IH]; intros s; [reflexivity|].
  rewrite for_each_cons.
  pose proof (legacy_organize_folder_returns p s) as Hp.
  destruct (Legacy.organize_folder p s) as [[[]|e|] y]; cbn in Hp;
    try discriminate.
  apply IH.
Qed.

Lemma legacy_organize_eq desktop_path downloads_path s :
  Legacy.organize desktop_path downloads_path s
  = for_each (configured desktop_path ++ configured downloads_path)
             Legacy.organize_folder s.
Proof.
  assert (Hbody :
            (when (truthy_path desktop_path)
               (Legacy.organize_folder (path_of desktop_path)) ;;
             when (truthy_path downloads_path)
               (Legacy.organize_folder (path_of downloads_path)) ;;
             print_statistics) s
            = for_each (configured desktop_path ++ configured downloads_path)
                Legacy.organize_folder s).
  { unfold configured.
    destruct (truthy_path desktop_path), (truthy_path downloads_path);
      reflexivity. }
  unfold Legacy.organize, try_except. rewrite Hbody.
  pose proof (legacy_sweeps_return
                (configured desktop_path ++ configured downloads_path) s)
    as Hok.
  destruct (for_each _ _ s) as [[[]|e|] y]; cbn in Hok; try discriminate.
  reflexivity.
Qed.

(** X5: the old [organize] is the old sweep over the Desktop and then over
    the Downloads folder, as far as each is set; it returns normally
    whatever the sweeps meet, and [files_moved] grows by exactly the number
    of relocations the run has made. *)
Theorem old_organize_sweeps_the_configured_folders desktop_path
  downloads_path s :
  Legacy.organize desktop_path downloads_path s
  = for_each (configured desktop_path ++ configured downloads_path)
             Legacy.organize_folder s /\
  fst (Legacy.organize desktop_path downloads_path s) = Ok tt /\
  exists evs,
    journal (snd (Legacy.organize desktop_path downloads_path s))
    = journal s ++ evs /\
    files_moved (stats (snd (Legacy.organize desktop_path downloads_path s)))
    = (files_moved (stats s) + Z.of_nat (count_moved evs))%Z.
Proof.
  split; [apply legacy_organize_eq|].
  rewrite legacy_organize_eq.
  set (folders := configured desktop_path ++ configured downloads_path).
  split; [apply legacy_sweeps_return|].
  assert (H : preserves counted (for_each folders Legacy.organize_folder)).
  { apply preserves_for_each; [exact counted_pre|].
    intros p _. apply legacy_organize_folder_counted. }
  exact (H s).
Qed.

(** ** Renaming an archive to the current minute *)

(** How a call of [os.rename] can end. *)
Lemma os_rename_outcome src dst s :
  stats (snd (os_rename src dst s)) = stats s /\
  ((exists n,
      lookup src (files s) = Some n /\
      os_rename src dst s
      = (Ok tt, if path_eqb src dst then s else renamed n src dst s))
   \/ (exists e,
         fst (os_rename src dst s) = Raise e /\
         files (snd (os_rename src dst s)) = files s /\
         journal (snd (os_rename src dst s)) = journal s)).
Proof.
  unfold os_rename.
  destruct (lookup src (files s)) as [n|]; [|split; [reflexivity|right; now eexists]].
  destruct (path_eqb src dst); [split; [reflexivity|left; now exists n]|].
  destruct (exists_in (files s) dst); [split; [reflexivity|right; now eexists]|].
  destruct (negb _); [split; [reflexivity|right; now eexists]|].
  destruct (0 <? _)%nat; [split; [reflexivity|right; now eexists]|].
  destruct (match n with Dir _ => _ | File _ => _ end);
    [split; [reflexivity|right; now eexists]|].
  split; [reflexivity|]. left. now exists n.
Qed.

Lemma update_archive_timestamp_eq archive_path s :
  update_archive_timestamp archive_path s
  = if exists_in (files s) archive_path then
      match os_rename archive_path (stamped archive_path s) s with
      | (Ok _, s1) => (Ok (Some (stamped archive_path s)), s1)
      | (_, s1) => (Ok (Some archive_path), s1)
      end
    else (Ok None, s).
Proof.
  unfold update_archive_timestamp, try_except, bind, os_path_exists,
    strftime_now, stamped.
  destruct (exists_in (files s) archive_path); [|reflexivity].
  destruct (os_rename_outcome archive_path
              (dirname archive_path ++ [("Archive_" ++ now s)%string]) s)
    as [_ [[n [_ ->]]|[e [He _]]]]; [reflexivity|].
  destruct (os_rename _ _ s) as [[[]|e'|] s1]; cbn in He; try discriminate.
  reflexivity.
Qed.

(** X6: [update_archive_timestamp] never raises and never touches a
    counter.  Where nothing is at the path it answers [None] and changes
    nothing; otherwise it answers the new name, or, when the renaming
    fails, the old path with tree and journal as they were. *)
Theorem update_archive_timestamp_fails_safe archive_path s :
  let r := fst (update_archive_timestamp archive_path s) in
  let s' := snd (update_archive_timestamp archive_path s) in
  (exists_in (files s) archive_path = false -> r = Ok None /\ s' = s) /\
  (exists_in (files s) archive_path = true ->
   r = Ok (Some (stamped archive_path s)) \/
   (r = Ok (Some archive_path) /\
    files s' = files s /\ journal s' = journal s)) /\
  stats s' = stats s.
Proof.
  cbv zeta. rewrite update_archive_timestamp_eq.
  destruct (exists_in (files s) archive_path).
  - split; [discriminate|].
    destruct (os_rename_outcome archive_path (stamped archive_path s) s)
      as [Hst [[n [_ E]]|[e [He [Hf Hj]]]]].
    + rewrite E in *. cbn [fst snd] in *. split; [|exact Hst]. intros _.
      now left.
    + destruct (os_rename _ _ s) as [[[]|e'|] s1]; cbn [fst snd] in *;
        try discriminate.
      split; [|exact Hst]. intros _. right. auto.
  - cbn. split; [auto|]. split; [discriminate | reflexivity].
Qed.

Lemma nonempty_path_split (p : path) :
  p <> [] -> p = dirname p ++ [basename p].
Proof. intros H. unfold dirname, basename. now apply app_removelast_last. Qed.

(** X7: an archive directory that is not locked, and whose new name is
    free, is renamed with all below it to [Archive_<timestamp>] beside it;
    nothing else in the tree changes, and the renaming is the one entry
    added to the journal. *)
Theorem update_archive_timestamp_renames archive_path s :
  archive_path <> [] ->
  isdir_in (files s) archive_path = true ->
  parent_is_dir (files s) archive_path = true ->
  busy_count archive_path (busy s) = 0%nat ->
  (forall rest, lookup (stamped archive_path s ++ rest) (files s) = None) ->
  let new_path := stamped archive_path s in
  let s' := snd (update_archive_timestamp archive_path s) in
  fst (update_archive_timestamp archive_path s) = Ok (Some new_path) /\
  (forall rest,
      lookup (new_path ++ rest) (files s')
      = lookup (archive_path ++ rest) (files s)) /\
  (forall rest, lookup (archive_path ++ rest) (files s') = None) /\
  (forall q,
      is_prefix archive_path q = false -> is_prefix new_path q = false ->
      lookup q (files s') = lookup q (files s)) /\
  journal s' = journal s ++ [Moved archive_path new_path].
Proof.
  intros Hne Hd Hp Hb Hfree. cbv zeta.
  set (new_path := stamped archive_path s) in *.
  assert (Hex : exists_in (files s) archive_path = true)
    by (apply (proj1 (exists_isdir_isfile (files s) archive_path)); exact Hd).
  assert (Hnew : lookup new_path (files s) = None)
    by (specialize (Hfree []); now rewrite app_nil_r in Hfree).
  assert (Hdiff : archive_path <> new_path).
  { intros E. unfold exists_in in Hex. rewrite E, Hnew in Hex. discriminate. }
  assert (Hlast : basename archive_path <> ("Archive_" ++ now s)%string).
  { intros E. apply Hdiff. unfold new_path, stamped. rewrite <- E.
    now apply nonempty_path_split. }
  assert (Hapart : apart archive_path new_path).
  { intros r r' E. unfold new_path, stamped in E.
    pose proof (nonempty_path_split archive_path Hne) as Hs.
    set (d := dirname archive_path) in *.
    set (x := basename archive_path) in *.
    rewrite Hs in E. rewrite <- !app_assoc in E.
    apply app_inv_head in E. cbn [app] in E. congruence. }
  assert (Hpre : is_prefix archive_path new_path = false).
  { destruct (is_prefix archive_path new_path) eqn:E; [|reflexivity].
    apply is_prefix_true in E as [r E]. exfalso.
    apply (Hapart r []). now rewrite app_nil_r. }
  assert (Hrun : exists z,
             os_rename archive_path new_path s
             = (Ok tt, renamed (Dir z) archive_path new_path s)).
  { unfold os_rename. unfold isdir_in in Hd.
    destruct (lookup archive_path (files s)) as [[z|z]|]; try discriminate.
    exists z.
    rewrite (path_eqb_false_of _ _ Hdiff).
    unfold exists_in. rewrite Hnew.
    assert (Hpn : parent_is_dir (files s) new_path = true).
    { unfold parent_is_dir in *. unfold new_path, stamped.
      now rewrite dirname_app. }
    rewrite Hpn, Hb, Hpre. reflexivity. }
  destruct Hrun as [z Hrun].
  rewrite update_archive_timestamp_eq. fold new_path. rewrite Hex, Hrun.
  unfold renamed.
  cbn [fst snd record set_files set_attributes files journal relocate_entry].
  split; [reflexivity|]. split; [|split; [|split]].
  - intros rest. now apply lookup_relocate_target.
  - intros rest. now apply lookup_relocate_source.
  - intros q H1 H2. now apply lookup_relocate_frame.
  - reflexivity.
Qed.

Lemma update_archive_timestamp_renames_witness :
  let s := Sample.fresh Sample.scenario4 [] in
  let archive_path := Sample.desktop ++ ["Archive"] in
  let new_path := Sample.desktop ++ ["Archive_Mar-14-2024_09-30AM"] in
  fst (update_archive_timestamp archive_path s) = Ok (Some new_path) /\
  lookup (new_path ++ ["Mar-14-2024_09-30AM"; "a.zip"])
    (files (snd (update_archive_timestamp archive_path s)))
  = Some (File 7) /\
  lookup (archive_path ++ ["Mar-14-2024_09-30AM"; "a.zip"])
    (files (snd (update_archive_timestamp archive_path s)))
  = None.
Proof.
  intros s archive_path new_path.
  destruct (update_archive_timestamp_renames archive_path s
              ltac:(discriminate) eq_refl eq_refl eq_refl
              (fun rest => eq_refl))
    as [H1 [H2 [H3 _]]].
  split; [exact H1|]. split.
  - exact (H2 ["Mar-14-2024_09-30AM"; "a.zip"]).
  - exact (H3 ["Mar-14-2024_09-30AM"; "a.zip"]).
Defined.

(** ** Where the special folders are looked for *)

Lemma legacy_get_special_folder_path_eq os_type home reg folder_name s :
  Legacy.get_special_folder_path os_type home reg folder_name s
  = (Ok (find (exists_in (files s))
              (special_folder_candidates os_type home reg folder_name)), s).
Proof.
  unfold Legacy.get_special_folder_path, special_folder_candidates,
    try_except, bind, os_path_exists, Legacy.winreg_QueryValueEx, ret, raise.
  destruct (String.eqb os_type "Windows").
  - destruct (exists_in (files s) (home ++ ["OneDrive"; folder_name])) eqn:E1;
      destruct (exists_in (files s) (home ++ [folder_name])) eqn:E2;
      destruct (String.eqb folder_name "Downloads");
      try destruct reg as [p|];
      try destruct (exists_in (files s) p) eqn:E3;
      cbn [app find]; rewrite ?E1, ?E2, ?E3; reflexivity.
  - cbn [find]. now destruct (exists_in (files s) (home ++ [folder_name])).
Qed.

(** X8: the old [get_special_folder_path] never raises and changes
    nothing; it answers the first of its candidates that exists (on Windows
    the OneDrive folder, then the folder under the home directory, then for
    Downloads the registry value; elsewhere the folder under the home
    directory) and [None] when none does. *)
Theorem special_folder_is_first_existing_candidate os_type home reg
  folder_name s :
  let candidates := special_folder_candidates os_type home reg folder_name in
  exists r,
    Legacy.get_special_folder_path os_type home reg folder_name s = (Ok r, s) /\
    r = find (exists_in (files s)) candidates /\
    (forall p, r = Some p -> In p candidates /\ exists_in (files s) p = true) /\
    (r = None -> forall p, In p candidates -> exists_in (files s) p = false) /\
    (os_type = "Windows" ->
     exists_in (files s) (home ++ ["OneDrive"; folder_name]) = true ->
     r = Some (home ++ ["OneDrive"; folder_name])).
Proof.
  cbv zeta. eexists. split; [apply legacy_get_special_folder_path_eq|].
  split; [reflexivity|]. split; [|split].
  - intros p H. now apply find_some in H.
  - intros H p Hin. now apply (find_none _ _ H).
  - intros -> H. unfold special_folder_candidates.
    change (String.eqb "Windows" "Windows") with true.
    cbn [app find]. now rewrite H.
Qed.

(** X9: [get_onedrive_archives] never raises and changes nothing; it
    answers the [Archive - Pre-2024] folders that exist under the OneDrive
    accounts the registry gives, the Business account first; an account
    that cannot be read is passed over. *)
Theorem onedrive_archives_are_the_existing_ones business personal s :
  FileOrganizer.get_onedrive_archives business personal s
  = (Ok (filter (exists_in (files s))
           (map (fun onedrive_path => onedrive_path ++ ["Archive - Pre-2024"])
                (onedrive_accounts business personal))), s).
Proof.
  unfold FileOrganizer.get_onedrive_archives, try_except, bind,
    os_path_exists, FileOrganizer.winreg_UserFolder, ret, raise,
    onedrive_accounts.
  destruct business as [b|], personal as [p|]; cbn [app map filter];
    repeat match goal with
           | |- context [exists_in ?t ?q] => destruct (exists_in t q)
           end; reflexivity.
Qed.

(** ** What the other movers and updaters of the new file can move *)

Lemma set_folder_icon_and_color_journal Q folder_path category :
  preserves (journal_grows Q)
    (FileOrganizer.set_folder_icon_and_color folder_path category).
Proof.
  unfold FileOrganizer.set_folder_icon_and_color. repeat journal_step Q.
Qed.

Lemma shortcut_mover_journal folder_path T item dst :
  PyStr.endswith_any (PyStr.lower item) FileOrganizer.shortcut_suffixes = true ->
  dst = folder_path ++ ["Archive"; T; "Shortcuts"; item] ->
  preserves (journal_grows (shortcut_relocation folder_path T))
    (shutil_move (folder_path ++ [item]) dst).
Proof.
  intros He ->. apply shutil_move_journal; exists item;
    rewrite ?basename_app, <- ?app_assoc; simpl; auto.
Qed.

Lemma handle_shortcuts_first_journal folder_path s :
  journal_grows (shortcut_relocation folder_path (now s)) s
    (snd (FileOrganizer.handle_shortcuts_first folder_path s)).
Proof.
  set (Q := shortcut_relocation folder_path (now s)).
  unfold FileOrganizer.handle_shortcuts_first.
  rewrite try_except_state by reflexivity.
  unfold bind at 1, strftime_now at 1.
  match goal with
  | |- journal_grows Q s (snd (?c s)) =>
      assert (H : preserves (journal_grows Q) c)
  end.
  { do 5 (apply preserves_bind;
          [exact (journal_grows_pre Q) | journal_step Q | intros ?]).
    apply preserves_for_each; [exact (journal_grows_pre Q) | intros item _].
    destruct (PyStr.endswith_any _ _) eqn:He; cbn [when]; [|journal_step Q].
    journal_step Q; [|journal_step Q].
    journal_step Q; [journal_step Q|].
    journal_step Q.
    apply shortcut_mover_journal; [exact He|].
    now rewrite <- !app_assoc. }
  apply H.
Qed.

Lemma move_shortcuts_journal folder_path s :
  journal_grows (shortcut_relocation folder_path (now s)) s
    (snd (FileOrganizer.move_shortcuts folder_path s)).
Proof.
  set (Q := shortcut_relocation folder_path (now s)).
  unfold FileOrganizer.move_shortcuts.
  rewrite try_except_state by reflexivity.
  unfold bind at 1, strftime_now at 1.
  match goal with
  | |- journal_grows Q s (snd (?c s)) =>
      assert (H : preserves (journal_grows Q) c)
  end.
  { do 2 (apply preserves_bind;
          [exact (journal_grows_pre Q) | journal_step Q | intros ?]).
    apply preserves_for_each; [exact (journal_grows_pre Q) | intros item _].
    destruct (PyStr.endswith_any _ _) eqn:He; cbn [when]; [|journal_step Q].
    apply shortcut_mover_journal; [exact He|].
    now rewrite <- !app_assoc. }
  apply H.
Qed.

Lemma update_existing_archives_journal self_categories root_path :
  preserves (journal_grows nothing_moves)
    (FileOrganizer.update_existing_archives self_categories root_path).
Proof.
  unfold FileOrganizer.update_existing_archives.
  repeat first [ apply set_folder_icon_and_color_journal
               | journal_step nothing_moves ].
Qed.

Lemma force_update_onedrive_archive_journal self_categories home :
  preserves (journal_grows nothing_moves)
    (FileOrganizer.force_update_onedrive_archive self_categories home).
Proof.
  unfold FileOrganizer.force_update_onedrive_archive.
  repeat journal_step nothing_moves.
Qed.

Lemma created_only s s' :
  journal_grows nothing_moves s s' ->
  exists dirs, journal s' = journal s ++ map Created dirs.
Proof.
  intros [_ [evs [Hj Hf]]]. rewrite Hj. clear Hj.
  induction Hf as [|e evs He _ [dirs IH]].
  - now exists [].
  - destruct e as [src dst|d]; [destruct He|].
    exists (d :: dirs). simpl.
    apply app_inv_head in IH. now rewrite IH.
Qed.

(** X10: the two shortcut movers of the new file, [handle_shortcuts_first]
    and [move_shortcuts], relocate nothing but entries of the folder whose
    lower-cased name ends in a shortcut suffix, each into
    [Archive/<timestamp>/Shortcuts] of that folder under its own name (or
    into the directory of that name when one is there). *)
Theorem shortcut_movers_move_shortcuts_only folder_path s :
  (exists evs,
      journal (snd (FileOrganizer.handle_shortcuts_first folder_path s))
      = journal s ++ evs /\
      forall src dst,
        In (Moved src dst) evs ->
        shortcut_relocation folder_path (now s) src dst) /\
  (exists evs,
      journal (snd (FileOrganizer.move_shortcuts folder_path s))
      = journal s ++ evs /\
      forall src dst,
        In (Moved src dst) evs ->
        shortcut_relocation folder_path (now s) src dst).
Proof.
  split.
  - destruct (handle_shortcuts_first_journal folder_path s)
      as [_ [evs [Hj Hf]]].
    exists evs. split; [exact Hj|].
    intros src dst Hin. rewrite Forall_forall in Hf. exact (Hf _ Hin).
  - destruct (move_shortcuts_journal folder_path s) as [_ [evs [Hj Hf]]].
    exists evs. split; [exact Hj|].
    intros src dst Hin. rewrite Forall_forall in Hf. exact (Hf _ Hin).
Qed.

(** X11: the archive updaters [update_existing_archives] and
    [force_update_onedrive_archive] relocate nothing: all they add to the
    journal are directories made. *)
Theorem archive_updaters_move_nothing self_categories home root_path s :
  (exists dirs,
      journal (snd (FileOrganizer.update_existing_archives self_categories
                      root_path s))
      = journal s ++ map Created dirs) /\
  (exists dirs,
      journal (snd (FileOrganizer.force_update_onedrive_archive
                      self_categories home s))
      = journal s ++ map Created dirs).
Proof.
  split; apply created_only.
  - apply update_existing_archives_journal.
  - apply force_update_onedrive_archive_journal.
Qed.

(** ** A file moved into its category folder *)

Lemma shutil_move_file_outcome src dst z s :
  lookup src (files s) = Some (File z) ->
  exists_in (files s) dst = false ->
  shutil_move src dst s = (Ok tt, renamed (File z) src dst s)
  \/ exists e, fst (shutil_move src dst s) = Raise e /\
               files (snd (shutil_move src dst s)) = files s.
Proof.
  intros Hsrc Hdst. unfold shutil_move.
  destruct (exists_isdir_isfile (files s) dst) as [_ [_ Hn]].
  destruct (Hn Hdst) as [Hnd _]. rewrite Hnd, Hsrc. cbn [andb].
  destruct (negb _); [right; now eexists|].
  destruct (0 <? _)%nat; [right; now eexists|].
  rewrite Hdst. now left.
Qed.

(** X12: [move_to_category], with the category table set, loses nothing.
    Every entry of the tree other than the file itself is where it was
    with what it held, so nothing is overwritten; and the file is either
    left where it was, or it is in the folder of its category under its
    own name, a place that was free. *)
Theorem move_to_category_keeps_every_entry categories file_path dated_folder
  s :
  isfile_in (files s) file_path = true ->
  let target_path :=
    dated_folder
    ++ [category_of_item categories (basename file_path);
        basename file_path] in
  let s' := snd (FileOrganizer.move_to_category (Some categories) file_path
                   dated_folder s) in
  fst (FileOrganizer.move_to_category (Some categories) file_path
         dated_folder s) = Ok tt /\
  (forall q n,
      q <> file_path -> lookup q (files s) = Some n ->
      lookup q (files s') = Some n) /\
  (files s' = files s \/
   (lookup target_path (files s) = None /\
    lookup target_path (files s') = lookup file_path (files s) /\
    lookup file_path (files s') = None)).
Proof.
  intros Hf. cbv zeta.
  rewrite move_to_category_bound.
  set (target := dated_folder
                 ++ [category_of_item categories (basename file_path);
                     basename file_path]).
  assert (Hbody : (target_exists <- os_path_exists target ;;
                   when (negb target_exists) (shutil_move file_path target)) s
                  = if exists_in (files s) target then (Ok tt, s)
                    else shutil_move file_path target s).
  { unfold bind, os_path_exists.
    now destruct (exists_in (files s) target). }
  unfold try_except. rewrite Hbody. clear Hbody.
  destruct (exists_in (files s) target) eqn:Et.
  - cbn [fst snd]. split; [reflexivity|]. split; [auto | now left].
  - unfold isfile_in in Hf.
    destruct (lookup file_path (files s)) as [[z|z]|] eqn:Es;
      try discriminate.
    assert (Hne : file_path <> target).
    { intros E. unfold exists_in in Et. rewrite <- E, Es in Et.
      discriminate. }
    assert (Htn : lookup target (files s) = None).
    { unfold exists_in in Et. now destruct (lookup target (files s)). }
    destruct (shutil_move_file_outcome file_path target z s Es Et)
      as [-> | [e [He Hsame]]].
    + unfold renamed.
      cbn [fst snd record set_files set_attributes files relocate_entry].
      split; [reflexivity|]. split.
      * intros q n Hq Hl. rewrite lookup_rename_file by exact Hne.
        destruct (path_eqb q target) eqn:E1.
        -- apply path_eqb_eq in E1. congruence.
        -- apply path_eqb_neq in Hq. now rewrite Hq.
      * right. split; [exact Htn|]. rewrite !lookup_rename_file by exact Hne.
        rewrite !path_eqb_refl.
        rewrite (path_eqb_false_of _ _ Hne). auto.
    + destruct (shutil_move file_path target s) as [[[]|e'|] s1];
        cbn [fst snd ret] in *; try discriminate.
      rewrite Hsame. split; [reflexivity|]. split; [auto | now left].
Qed.

Lemma move_to_category_keeps_every_entry_witness :
  let D := Sample.onedrive_archive ++ ["Mar-14-2024_09-30AM"] in
  let s' := snd (FileOrganizer.move_to_category (Some Sample.config)
                   (D ++ ["notes.txt"]) D
                   (Sample.fresh Sample.scenario3 [])) in
  lookup (D ++ ["Documents"]) (files s') = Some (Dir 0) /\
  (files s' = Sample.scenario3 \/
   (lookup (D ++ ["Documents"; "notes.txt"]) Sample.scenario3 = None /\
    lookup (D ++ ["Documents"; "notes.txt"]) (files s') = Some (File 12) /\
    lookup (D ++ ["notes.txt"]) (files s') = None)).
Proof.
  intros D s'.
  destruct (move_to_category_keeps_every_entry Sample.config
              (D ++ ["notes.txt"]) D (Sample.fresh Sample.scenario3 [])
              eq_refl) as [_ [Hkept Hfile]].
  split.
  - apply Hkept; [discriminate | reflexivity].
  - exact Hfile.
Defined.

(** ** The extension of a name is one of its suffixes *)

Lemma substring_nothing n s : substring n 0 s = "".
Proof.
  revert n. induction s as [|c s IH]; intros [|n]; cbn; auto.
Qed.

Lemma length_substring s : forall n m,
  (n + m <= String.length s)%nat -> String.length (substring n m s) = m.
Proof.
  induction s as [|c s IH]; intros n m H; cbn in H.
  - assert (n = 0 /\ m = 0)%nat as [-> ->] by lia. reflexivity.
  - destruct n as [|n]; cbn.
    + destruct m as [|m]; [reflexivity|]. cbn. f_equal. apply IH. lia.
    + apply IH. lia.
Qed.

Lemma rfind_dot_bound p : forall k found i,
  PyStr.rfind_dot p k found = Some i ->
  found = Some i \/ (k <= i < k + String.length p)%nat.
Proof.
  induction p as [|c p IH]; intros k found i H; cbn in H.
  - now left.
  - apply IH in H. destruct H as [H | H].
    + destruct (Ascii.eqb c "."%char).
      * injection H as <-. right. cbn. lia.
      * now left.
    + right. cbn. lia.
Qed.

Lemma endswith_nothing p : PyStr.endswith p "" = true.
Proof.
  unfold PyStr.endswith. cbn [String.length]. rewrite substring_nothing.
  reflexivity.
Qed.

Lemma splitext_ext_is_suffix p :
  PyStr.endswith p (snd (PyStr.splitext p)) = true.
Proof.
  unfold PyStr.splitext.
  destruct (PyStr.rfind_dot p 0 None) as [i|] eqn:E;
    [|apply endswith_nothing].
  destruct (PyStr.has_stem p i); [|apply endswith_nothing].
  cbn [snd]. apply rfind_dot_bound in E as [E | E]; [discriminate|].
  unfold PyStr.endswith.
  rewrite length_substring by lia.
  replace (String.length p - (String.length p - i))%nat with i by lia.
  rewrite String.eqb_refl.
  assert (H : (String.length p - i <=? String.length p)%nat = true)
    by (apply Nat.leb_le; lia).
  now rewrite H.
Qed.

(** X13: the two shortcut tests of the new file agree one way only.  A
    name whose extension the classifier takes for a shortcut extension
    passes the suffix test of the forward sweep; the name [.lnk] passes the
    suffix test, but its extension is empty, which is no shortcut
    extension: with no category listing the empty extension the classifier
    files it under [Others]. *)
Theorem classified_shortcuts_pass_the_suffix_test categories item :
  In (snd (PyStr.splitext (PyStr.lower item))) shortcut_extensions ->
  category_of_item categories item = "Shortcuts" /\
  PyStr.endswith_any (PyStr.lower item) FileOrganizer.shortcut_suffixes
  = true /\
  PyStr.endswith_any (PyStr.lower ".lnk") FileOrganizer.shortcut_suffixes
  = true /\
  category_of_item [] ".lnk" = "Others".
Proof.
  intros H. split; [|split; [|split; reflexivity]].
  - unfold category_of_item, category_of_extension.
    now rewrite (proj2 (mem_In _ _) H).
  - unfold PyStr.endswith_any. apply existsb_exists.
    exists (snd (PyStr.splitext (PyStr.lower item))). split; [exact H|].
    apply splitext_ext_is_suffix.
Qed.

Lemma classified_shortcuts_pass_the_suffix_test_witness :
  category_of_item Sample.config "Chrome.LNK" = "Shortcuts" /\
  PyStr.endswith_any (PyStr.lower "Chrome.LNK")
    FileOrganizer.shortcut_suffixes = true.
Proof.
  destruct (classified_shortcuts_pass_the_suffix_test Sample.config
              "Chrome.LNK") as [H1 [H2 _]].
  - vm_compute. tauto.
  - split; [exact H1 | exact H2].
Defined.

(** ** Where the new file looks for the special folders *)

Lemma known_folder_cases folder_name :
  In folder_name FileOrganizer.known_folders ->
  PyStr.mem folder_name FileOrganizer.known_folders = true /\
  (exists csidl,
      FileOrganizer.assoc folder_name FileOrganizer.CSIDL_VALUES
      = Some csidl) /\
  FileOrganizer.assoc folder_name FileOrganizer.env_vars = Some folder_name.
Proof.
  intros H. split; [now apply mem_In|].
  unfold FileOrganizer.known_folders in H. cbn [In] in H.
  repeat (destruct H as [<- | H]; [split; [eexists|]; reflexivity|]).
  destruct H.
Qed.

(** X14: on Windows the new [get_special_folder_path] never raises and
    changes nothing.  For one of the six folder names it knows it always
    answers a path: the registry value if that exists, else the answer of
    the shell if that exists, else the folder of that name under the user
    profile, whether it exists or not.  For any other name it answers
    [None]. *)
Theorem windows_special_folder_may_not_exist home user_shell_folders
  SHGetFolderPathW USERPROFILE user_dirs folder_name s :
  let answer :=
    FileOrganizer.get_special_folder_path "Windows" home user_shell_folders
      SHGetFolderPathW USERPROFILE user_dirs folder_name s in
  (In folder_name FileOrganizer.known_folders ->
   answer
   = (Ok (Some (windows_special_folder (files s) user_shell_folders
                  SHGetFolderPathW USERPROFILE folder_name)), s)) /\
  (~ In folder_name FileOrganizer.known_folders -> answer = (Ok None, s)) /\
  (In folder_name FileOrganizer.known_folders ->
   (forall name p, user_shell_folders name = Some p ->
                   exists_in (files s) p = false) ->
   (forall csidl p, SHGetFolderPathW csidl = Some p ->
                    exists_in (files s) p = false) ->
   answer = (Ok (Some (USERPROFILE ++ [folder_name])), s)).
Proof.
  cbv zeta.
  assert (Hknown : In folder_name FileOrganizer.known_folders ->
            FileOrganizer.get_special_folder_path "Windows" home
              user_shell_folders SHGetFolderPathW USERPROFILE user_dirs
              folder_name s
            = (Ok (Some (windows_special_folder (files s) user_shell_folders
                           SHGetFolderPathW USERPROFILE folder_name)), s)).
  { intros Hin.
    destruct (known_folder_cases folder_name Hin) as [Hm [[csidl Hc] He]].
    unfold FileOrganizer.get_special_folder_path, windows_special_folder.
    change (String.eqb "Windows" "Windows") with true. cbv iota.
    rewrite Hm, Hc, He.
    cbv beta iota delta [try_except bind FileOrganizer.unless_returned
                           FileOrganizer.try_path
                           FileOrganizer.lookup_or_raise os_path_exists ret
                           raise].
    destruct (user_shell_folders folder_name) as [p|]; cbv beta iota;
      [destruct (exists_in (files s) p); cbv beta iota; [reflexivity|]|];
      (destruct (SHGetFolderPathW csidl) as [q|]; cbv beta iota;
       [destruct (exists_in (files s) q); cbv beta iota; [reflexivity|]|];
       now destruct (exists_in (files s) (USERPROFILE ++ [folder_name]))). }
  split; [exact Hknown|]. split.
  - intros Hin. apply mem_not_In in Hin.
    assert (He : FileOrganizer.assoc folder_name FileOrganizer.env_vars
                 = None).
    { unfold PyStr.mem, FileOrganizer.known_folders in Hin.
      cbn [existsb] in Hin.
      unfold FileOrganizer.env_vars. cbn [FileOrganizer.assoc].
      repeat match type of Hin with
             | (String.eqb ?a ?b || _)%bool = false =>
                 let E := fresh "E" in
                 apply orb_false_iff in Hin as [E Hin]; rewrite E
             end.
      reflexivity. }
    unfold FileOrganizer.get_special_folder_path.
    change (String.eqb "Windows" "Windows") with true. cbv iota.
    rewrite Hin, He. reflexivity.
  - intros Hin Hreg Hshell. rewrite (Hknown Hin). repeat f_equal.
    unfold windows_special_folder.
    destruct (user_shell_folders folder_name) as [p|] eqn:E1;
      [rewrite (Hreg _ _ E1)|];
      (destruct (FileOrganizer.assoc folder_name FileOrganizer.CSIDL_VALUES)
         as [csidl|];
       [|reflexivity];
       destruct (SHGetFolderPathW csidl) as [q|] eqn:E2;
       [rewrite (Hshell _ _ E2)|]; reflexivity).
Qed.

Lemma windows_special_folder_may_not_exist_witness :
  FileOrganizer.get_special_folder_path "Windows" Sample.home
    (fun _ => None) (fun _ => Some []) Sample.home None "Downloads"
    (Sample.fresh Sample.scenario1 [])
  = (Ok (Some (Sample.home ++ ["Downloads"])),
     Sample.fresh Sample.scenario1 []) /\
  exists_in Sample.scenario1 (Sample.home ++ ["Downloads"]) = false.
Proof.
  split; [|reflexivity].
  destruct (windows_special_folder_may_not_exist Sample.home
              (fun _ => None) (fun _ => Some []) Sample.home None
              "Downloads" (Sample.fresh Sample.scenario1 []))
    as [_ [_ H]].
  apply H.
  - vm_compute. tauto.
  - intros name p E. discriminate.
  - intros csidl p E. injection E as <-. reflexivity.
Defined.

(** ** The new file on the object as it is constructed *)

Lemma finishes_try_except A (c : M A) h :
  finishes c -> (forall e, finishes (h e)) -> finishes (try_except c h).
Proof.
  intros Hc Hh s. unfold try_except. specialize (Hc s).
  destruct (c s) as [[a|e|] s1]; cbn in *; [discriminate | apply Hh | auto].
Qed.

Lemma strftime_now_finishes : finishes strftime_now.
Proof. intros s. discriminate. Qed.

Lemma SetFileAttributesW_finishes p bits : finishes (SetFileAttributesW p bits).
Proof. intros s. unfold SetFileAttributesW. now break_match. Qed.

Lemma set_folder_color_finishes folder_path category :
  finishes (FileOrganizer.set_folder_color folder_path category).
Proof.
  unfold FileOrganizer.set_folder_color.
  apply finishes_try_except; [|intros e; apply finishes_ret].
  apply finishes_bind; [apply open_write_finishes | intros _].
  apply finishes_bind; [apply SetFileAttributesW_finishes | intros _].
  apply SetFileAttributesW_finishes.
Qed.

Lemma current_sweep_returns folder_path s :
  fst (FileOrganizer.organize_folder folder_path s) = Ok tt.
Proof.
  unfold FileOrganizer.organize_folder, try_except.
  match goal with
  | |- fst (match ?c s with _ => _ end) = _ =>
      assert (H : finishes c);
        [|specialize (H s); destruct (c s) as [[[]|e|] s1]]
  end; try reflexivity; [|now cbn in H].
  apply finishes_bind; [apply os_path_exists_finishes | intros ex].
  destruct folder_path as [|c f]; [apply finishes_ret|].
  destruct (negb ex); [apply finishes_ret|].
  apply finishes_bind; [apply os_listdir_finishes | intros items].
  destruct (filter _ items); [apply finishes_ret|].
  apply finishes_bind; [apply strftime_now_finishes | intros T].
  apply finishes_bind; [apply os_makedirs_finishes | intros _].
  apply finishes_bind; [apply set_folder_color_finishes | intros _].
  apply finishes_for_each. intros item.
  apply finishes_try_except; [apply shutil_move_finishes|].
  intros e. apply finishes_ret.
Qed.

Lemma current_sweeps_return l s :
  fst (for_each l FileOrganizer.organize_folder s) = Ok tt.
Proof.
  revert s. induction l as [|p l IH]; intros s; [reflexivity|].
  rewrite for_each_cons.
  pose proof (current_sweep_returns p s) as Hp.
  destruct (FileOrganizer.organize_folder p s) as [[[]|e|] y]; cbn in Hp;
    try discriminate.
  apply IH.
Qed.

(** X15: on the object as it is constructed, [organize] is the shortcut
    pass over the Desktop and then over the Downloads folder, as far as
    each is set: the two repairs of the OneDrive archives around them end
    at the unset [self.categories] and change nothing.  The run returns
    normally. *)
Theorem organize_as_constructed home desktop_path downloads_path s :
  FileOrganizer.organize FileOrganizer.categories_after_init home
    desktop_path downloads_path s
  = for_each (configured desktop_path ++ configured downloads_path)
      FileOrganizer.organize_folder s /\
  fst (FileOrganizer.organize FileOrganizer.categories_after_init home
         desktop_path downloads_path s)
  = Ok tt.
Proof.
  assert (Hfix : forall (k : M unit) x,
             (FileOrganizer.fix_onedrive_archives
                FileOrganizer.categories_after_init home ;; k) x
             = k x).
  { intros k x. unfold bind. now rewrite fix_onedrive_archives_unbound. }
  assert (Hbody :
            (FileOrganizer.fix_onedrive_archives
               FileOrganizer.categories_after_init home ;;
             when (truthy_path desktop_path)
               (FileOrganizer.organize_folder (path_of desktop_path)) ;;
             when (truthy_path downloads_path)
               (FileOrganizer.organize_folder (path_of downloads_path)) ;;
             FileOrganizer.fix_onedrive_archives
               FileOrganizer.categories_after_init home ;;
             print_statistics) s
            = for_each (configured desktop_path ++ configured downloads_path)
                FileOrganizer.organize_folder s).
  { rewrite Hfix. unfold configured.
    assert (Hend : forall x,
               (FileOrganizer.fix_onedrive_archives
                  FileOrganizer.categories_after_init home ;;
                print_statistics) x
               = ret tt x)
      by (intros x; now rewrite Hfix).
    assert (Hstep : forall p (k k' : M unit) x,
               (forall y, k y = k' y) ->
               (FileOrganizer.organize_folder p ;; k) x
               = (FileOrganizer.organize_folder p ;; k') x).
    { intros p k k' x Hk. unfold bind.
      destruct (FileOrganizer.organize_folder p x) as [[[]|e|] y];
        [apply Hk | reflexivity | reflexivity]. }
    destruct (truthy_path desktop_path), (truthy_path downloads_path);
      cbn [when app for_each].
    - apply Hstep. intros y. apply Hstep. exact Hend.
    - apply Hstep. intros y. exact (Hend y).
    - change ((FileOrganizer.organize_folder (path_of downloads_path) ;;
               FileOrganizer.fix_onedrive_archives
                 FileOrganizer.categories_after_init home ;;
               print_statistics) s
              = (FileOrganizer.organize_folder (path_of downloads_path) ;;
                 ret tt) s).
      apply Hstep. exact Hend.
    - exact (Hend s). }
  assert (Heq : FileOrganizer.organize FileOrganizer.categories_after_init
                  home desktop_path downloads_path s
                = for_each
                    (configured desktop_path ++ configured downloads_path)
                    FileOrganizer.organize_folder s).
  { unfold FileOrganizer.organize, try_except. rewrite Hbody.
    pose proof (current_sweeps_return
                  (configured desktop_path ++ configured downloads_path) s)
      as Hok.
    destruct (for_each _ _ s) as [[[]|e|] y]; cbn in Hok; try discriminate.
    reflexivity. }
  split; [exact Heq|]. rewrite Heq. apply current_sweeps_return.
Qed.

Lemma update_walked_unbound root dirs files_ :
  preserves unchanged
    (FileOrganizer.update_walked FileOrganizer.categories_after_init root
       dirs files_).
Proof.
  unfold FileOrganizer.update_walked.
  unchanged_step. unchanged_step. intros s.
  now rewrite getattr_unbound.
Qed.

Lemma get_onedrive_archives_unchanged business personal :
  preserves unchanged (FileOrganizer.get_onedrive_archives business personal).
Proof.
  unfold FileOrganizer.get_onedrive_archives, FileOrganizer.winreg_UserFolder.
  repeat first [ unchanged_step | break_match ].
Qed.

(** X16: on the object as it is constructed the archive updaters do
    nothing: [update_existing_archives], [force_update_onedrive_archive]
    and [update_all_archives] read [self.categories] before they write
    anything, and the error ends them in their own handler with the state
    as it was. *)
Theorem updaters_as_constructed home desktop_path downloads_path business
  personal fuel root_path s :
  snd (FileOrganizer.update_existing_archives
         FileOrganizer.categories_after_init root_path s) = s /\
  snd (FileOrganizer.force_update_onedrive_archive
         FileOrganizer.categories_after_init home s) = s /\
  snd (FileOrganizer.update_all_archives FileOrganizer.categories_after_init
         desktop_path downloads_path business personal fuel s) = s.
Proof.
  split; [|split].
  - assert (H : preserves unchanged
                  (FileOrganizer.update_existing_archives
                     FileOrganizer.categories_after_init root_path)).
    { unfold FileOrganizer.update_existing_archives.
      repeat unchanged_step. }
    apply H.
  - assert (H : preserves unchanged
                  (FileOrganizer.force_update_onedrive_archive
                     FileOrganizer.categories_after_init home)).
    { unfold FileOrganizer.force_update_onedrive_archive.
      repeat unchanged_step. }
    apply H.
  - assert (H : preserves unchanged
                  (FileOrganizer.update_all_archives
                     FileOrganizer.categories_after_init desktop_path
                     downloads_path business personal fuel)).
    { unfold FileOrganizer.update_all_archives.
      unchanged_step; [|unchanged_step].
      unchanged_step; [apply get_onedrive_archives_unchanged|].
      unchanged_step. unchanged_step; [unchanged_step|]. unchanged_step.
      apply os_walk_unchanged. apply update_walked_unbound. }
    apply H.
Qed.
